(** * A shallow embedding of the momentum-trading engine

    The engine is a TypeScript program.  Its pieces are embedded here as
    executable Rocq definitions:

    - [lib/account-manager.ts], account-keyed variant: [AccountManager],
      the per-account position store; the start-up initialization of the
      token-keyed variant of the same file is [TokenKeyed];
    - [lib/deque.ts]: [addCandleToQueue], the rolling candle history, and
      the initial candle table;
    - [lib/calculate-triggers.ts] ([src/unnamed/part_003]):
      [calculateTriggers], the trigger ladder;
    - [lib/process-candles.ts] ([src/unnamed/part_007], the token-keyed
      variant, the only one in the sources): [processCandles], the movement
      detector, with the closed-candle step of [index.ts] that calls it and
      the seeding loop of its [main];
    - [lib/movement-threshold.ts] ([src/unnamed/part_004]):
      [checkMovementThreshold], the entry engine;
    - [lib/check-triggers.ts] (and [src/unnamed/part_007]): [checkTriggers],
      the trigger runner;
    - [lib/trade-manager.ts] ([src/unnamed/part_007]): [TradeManager], the
      order gateway adapter;
    - [lib/interfaces.ts] ([src/unnamed/part_002]) and [lib/load-data.ts]:
      the records and the configuration tables.

    Modelling conventions.

    - A JavaScript [number] is an IEEE-754 double.  Where a property is
      about the values the engine computes or compares (the stored ladder,
      the detector's decision, the entry thresholds), the code is embedded
      on binary64 ([PrimFloat]; modules [Binary64] and [Doubles]) with every
      operation in the order of the source, the objects it calls being
      parameters.  The control flow of the engines, the store and the order
      gateway are embedded over exact rationals ([Q]); the properties stated
      there are about which calls are made and what is written where, and
      name computed values through the code's own quantities.  Integers
      that are only counted or compared (timestamps, precisions) are [Z] or
      [nat].
    - A JavaScript object used as a dictionary is a [gmap string _] of its
      own properties.  A lookup on such an object also finds the members
      inherited from [Object.prototype]; [ObjectStore] embeds
      [updatePosition] with them, and agrees with the own-property embedding
      on every [ordinaryName].  The properties of the store that hold for
      ordinary names only say so.
    - A function that mutates shared objects and may throw is a state
      transformer returning an [Outcome] together with the state reached:
      a thrown exception keeps the mutations made before it.
    - A call that leaves the process (a REST call of the exchange client) is
      answered by an explicit, arbitrary reply supplied from outside.
    - An [async] function runs to its end without another handler running
      at its [await]s; logging calls are left out. *)

From Stdlib Require Import QArith Qabs Qround Qminmax ZArith Lia Lqa List Bool.
From Stdlib Require Floats.PrimFloat Floats.SpecFloat Floats.FloatOps.
From Stdlib Require Numbers.Cyclic.Int63.Uint63.
From stdpp Require Import base option list gmap strings fin_maps.
Import ListNotations.

Local Open Scope Q_scope.

(** ** Numbers *)

Module Number.

(** JavaScript truthiness of a number: [0] is falsy (so is [NaN], which an
    exact rational never is). *)
Definition truthy (x : Q) : bool := negb (Qeq_bool x 0).

(** [x || y] on numbers that may be [null]. *)
Definition orElse (x : option Q) (y : Q) : Q :=
  match x with
  | Some v => if truthy v then v else y
  | None => y
  end.

Definition geb (x y : Q) : bool := Qle_bool y x.
Definition leb (x y : Q) : bool := Qle_bool x y.
Definition gtb (x y : Q) : bool := negb (Qle_bool x y).

(** [10^p] as a positive integer. *)
Fixpoint pow10 (p : nat) : positive :=
  match p with
  | O => 1%positive
  | S p' => (10 * pow10 p')%positive
  end.

(** The integer [n] for which [n / 10^p - x] is closest to zero, the larger
    [n] on a tie, as [Number.prototype.toFixed] picks it for [x >= 0]. *)
Definition nearestScaled (x : Q) (p : nat) : Z :=
  Qfloor (x * inject_Z (Zpos (pow10 p)) + (1 # 2)).

(** [parseFloat(value.toFixed(precision))]: the sign is split off first,
    so ties round away from zero. *)
Definition toFixed (value : Q) (precision : nat) : Q :=
  if Qle_bool 0 value
  then nearestScaled value precision # pow10 precision
  else (- nearestScaled (- value) precision)%Z # pow10 precision.

End Number.

(** ** Exceptions and mutable state *)

(** What a [throw] carries.  The message text is dropped, the reason kept. *)
Inductive Error : Type :=
  | AccountDoesNotExist (accountName : string)
  | SymbolDoesNotExist (symbol accountName : string)
  | NoPositionData (accountName symbol : string)
  | NoCandlesFound (symbol : string)
  | NoConfigurationFound (symbol : string)
  | PrecisionNotFound (symbol : string)
  | TypeError (what : string)
  | TransportError (what : string).

Inductive Outcome (A : Type) : Type :=
  | Returned (a : A)
  | Thrown (e : Error).
Arguments Returned {A} a.
Arguments Thrown {A} e.

(** A method over mutable state [S]: it ends by returning or by throwing, and
    in both cases the state keeps what was written before. *)
Definition Eff (S A : Type) : Type := S -> Outcome A * S.

Module Eff.
Section Combinators.
Context {S : Type}.

Definition ret {A} (a : A) : Eff S A := fun s => (Returned a, s).
Definition throw {A} (e : Error) : Eff S A := fun s => (Thrown e, s).

Definition bind {A B} (c : Eff S A) (k : A -> Eff S B) : Eff S B :=
  fun s =>
    match c s with
    | (Returned a, s') => k a s'
    | (Thrown e, s') => (Thrown e, s')
    end.

Definition get : Eff S S := fun s => (Returned s, s).
Definition modify (f : S -> S) : Eff S unit := fun s => (Returned tt, f s).

(** [try { body } catch (e) { handler e }] *)
Definition tryCatch {A} (body : Eff S A) (handler : Error -> Eff S A) : Eff S A :=
  fun s =>
    match body s with
    | (Returned a, s') => (Returned a, s')
    | (Thrown e, s') => handler e s'
    end.

(** [try { body } finally { fin }]: [fin] runs on every way out of
    [body]; the outcome of [body] stands unless [fin] itself throws. *)
Definition tryFinally {A} (body : Eff S A) (fin : Eff S unit) : Eff S A :=
  fun s =>
    match body s with
    | (r, s') =>
        match fin s' with
        | (Returned _, s'') => (r, s'')
        | (Thrown e, s'') => (Thrown e, s'')
        end
    end.

(** [for (const x of xs) { body x }] *)
Fixpoint forOf {A} (xs : list A) (body : A -> Eff S unit) : Eff S unit :=
  match xs with
  | [] => ret tt
  | x :: rest => bind (body x) (fun _ => forOf rest body)
  end.
End Combinators.
End Eff.

Notation "'let*' x ':=' c 'in' k" := (Eff.bind c (fun x => k))
  (at level 10, x pattern, c at level 100, k at level 200).
Notation "c ';;' k" := (Eff.bind c (fun _ => k))
  (at level 100, k at level 200, right associativity).

(** ** Data model ([lib/interfaces.ts]) *)

Inductive TriggerSide : Type := long | short.
Inductive OrderSide : Type := BUY | SELL.

#[global] Instance TriggerSide_eq_dec : EqDecision TriggerSide.
Proof. solve_decision. Defined.
#[global] Instance OrderSide_eq_dec : EqDecision OrderSide.
Proof. solve_decision. Defined.

(** [interface Pair].  The multi-account engine reads [usdt_amount] where the
    token-keyed one read [qty]; both are the amount handed to the entry. *)
Record Pair : Type := {
  symbol : string;
  threshold : Q;
  fees_exemption_percentage : Q;
  num_previous_candles : Z;
  usdt_amount : Q;
}.

Record Config : Type := {
  tokens : list string;
  pairs : list Pair;
}.

(** [interface Position] *)
Record Position : Type := {
  status : bool;
  entry_price : option Q;
  triggers : list Q;
  stop_prices : list Q;
  trigger_side : option TriggerSide;
  lock_close_price : option Q;
  movement_threshold : option Q;
  is_placing_stop_loss_running : bool;
}.

(** [Partial<Position>]: each field is either absent ([None]) or present with
    its new value. *)
Record PositionUpdates : Type := {
  new_status : option bool;
  new_entry_price : option (option Q);
  new_triggers : option (list Q);
  new_stop_prices : option (list Q);
  new_trigger_side : option (option TriggerSide);
  new_lock_close_price : option (option Q);
  new_movement_threshold : option (option Q);
  new_is_placing_stop_loss_running : option bool;
}.

(** [{ ...position, ...updates }] *)
Definition spread (position : Position) (updates : PositionUpdates) : Position :=
  {| status := default (status position) (new_status updates);
     entry_price := default (entry_price position) (new_entry_price updates);
     triggers := default (triggers position) (new_triggers updates);
     stop_prices := default (stop_prices position) (new_stop_prices updates);
     trigger_side := default (trigger_side position) (new_trigger_side updates);
     lock_close_price :=
       default (lock_close_price position) (new_lock_close_price updates);
     movement_threshold :=
       default (movement_threshold position) (new_movement_threshold updates);
     is_placing_stop_loss_running :=
       default (is_placing_stop_loss_running position)
               (new_is_placing_stop_loss_running updates) |}.

(** [interface TokenData] *)
Record TokenData : Type := { positions : gmap string Position }.

(** [interface Candle] *)
Record Candle : Type := {
  openTime : Z;
  open : Q;
  high : Q;
  low : Q;
  close : Q;
  volume : Q;
  closeTime : Z;
}.

(** ** AccountManager ([lib/account-manager.ts]) *)

(** The instance: [accountData] is the in-memory document, [fileWrites] the
    documents handed to [fs.writeFile] so far, newest first. *)
Record AccountManager : Type := {
  accountData : gmap string TokenData;
  fileWrites : list (gmap string TokenData);
}.

Module AccountManager.

Definition saveAccountData : Eff AccountManager unit :=
  Eff.modify (fun am =>
    {| accountData := accountData am;
       fileWrites := accountData am :: fileWrites am |}).

Definition setAccountData (data : gmap string TokenData) : Eff AccountManager unit :=
  Eff.modify (fun am => {| accountData := data; fileWrites := fileWrites am |}).

(** The position created for a pair that has none. *)
Definition initialPosition : Position :=
  {| status := false; entry_price := None; triggers := []; stop_prices := [];
     trigger_side := None; lock_close_price := None;
     movement_threshold := None; is_placing_stop_loss_running := false |}.

(** The [pairs.forEach] body: the positions of one account and the
    [initialized] flag. *)
Fixpoint initializePairs (pairs : list Pair) (acc : gmap string Position * bool)
  : gmap string Position * bool :=
  match pairs with
  | [] => acc
  | p :: rest =>
      let '(ps, initialized) := acc in
      match ps !! symbol p with
      | Some _ => initializePairs rest (ps, initialized)
      | None => initializePairs rest (<[symbol p := initialPosition]> ps, true)
      end
  end.

Definition initializeAccountData (accountName : string) (pairs : list Pair)
  : Eff AccountManager unit :=
  let* am := Eff.get in
  let '(account, initialized) :=
    match accountData am !! accountName with
    | Some td => (td, false)
    | None => ({| positions := ∅ |}, true)
    end in
  let '(ps, initialized) := initializePairs pairs (positions account, initialized) in
  setAccountData (<[accountName := {| positions := ps |}]> (accountData am)) ;;
  if initialized then saveAccountData else Eff.ret tt.

Definition updatePosition (accountName symbol : string) (updates : PositionUpdates)
  : Eff AccountManager unit :=
  let* am := Eff.get in
  match accountData am !! accountName with
  | None => Eff.throw (AccountDoesNotExist accountName)
  | Some account =>
      match positions account !! symbol with
      | None => Eff.throw (SymbolDoesNotExist symbol accountName)
      | Some position =>
          setAccountData
            (<[accountName :=
                 {| positions := <[symbol := spread position updates]> (positions account) |}]>
               (accountData am)) ;;
          saveAccountData
      end
  end.

Definition getAccountData (accountName : string) (am : AccountManager)
  : option TokenData :=
  accountData am !! accountName.

Definition getPositionData (accountName symbol : string) (am : AccountManager)
  : option Position :=
  match getAccountData accountName am with
  | Some account => positions account !! symbol
  | None => None
  end.

(** [new AccountManager(filePath)]: [loadAccountData] gives the document of
    the file when the file exists and [{}] otherwise; nothing is written. *)
Definition create (file : option (gmap string TokenData)) : AccountManager :=
  {| accountData := default ∅ file; fileWrites := [] |}.

(** [delete this.accountData[accountName]] *)
Definition deleteAccount (accountName : string) : Eff AccountManager unit :=
  let* am := Eff.get in
  match accountData am !! accountName with
  | Some _ =>
      setAccountData (delete accountName (accountData am)) ;;
      saveAccountData
  | None => Eff.throw (AccountDoesNotExist accountName)
  end.

(** [delete account.positions[symbol]]: [account] is the object held in
    [accountData], so the stored account changes.  The method has one
    message for a missing account and for a missing symbol; it is the
    reason [SymbolDoesNotExist]. *)
Definition deletePosition (accountName symbol : string) : Eff AccountManager unit :=
  let* am := Eff.get in
  match getAccountData accountName am with
  | Some account =>
      match positions account !! symbol with
      | Some _ =>
          setAccountData
            (<[accountName :=
                 {| positions := delete symbol (positions account) |}]>
               (accountData am)) ;;
          saveAccountData
      | None => Eff.throw (SymbolDoesNotExist symbol accountName)
      end
  | None => Eff.throw (SymbolDoesNotExist symbol accountName)
  end.

End AccountManager.

(** ** Property names every object answers to

    [accountData] and each [positions] are plain objects, so a lookup
    [object[key]] that finds no own property goes on to [Object.prototype]:
    for the names below it gives a function, which is truthy, and for
    [__proto__] the prototype itself. *)

Definition objectPrototypeMethods : list string :=
  ["constructor"; "__defineGetter__"; "__defineSetter__"; "hasOwnProperty";
   "__lookupGetter__"; "__lookupSetter__"; "isPrototypeOf";
   "propertyIsEnumerable"; "toString"; "valueOf"; "toLocaleString"].

(** A name that only an own property answers to. *)
Definition ordinaryName (name : string) : bool :=
  negb (existsb (String.eqb name) ("__proto__" :: objectPrototypeMethods)).

(** *** [updatePosition] with the inherited members

    The manager once more, with the lookups of [updatePosition] as the
    engine evaluates them.  A position is an object whose fields may be
    missing, which is what [Partial<Position>] describes. *)

Module ObjectStore.

(** What [object[key]] evaluates to. *)
Inductive Member (V : Type) : Type :=
  | Own (value : V)
  | Method
  | Prototype
  | Undefined.
Arguments Own {V} value.
Arguments Method {V}.
Arguments Prototype {V}.
Arguments Undefined {V}.

Definition member {V} (object : gmap string V) (key : string) : Member V :=
  match object !! key with
  | Some value => Own value
  | None =>
      if existsb (String.eqb key) objectPrototypeMethods then Method
      else if String.eqb key "__proto__" then Prototype
      else Undefined
  end.

(** A stored position: the own fields it has. *)
Definition PositionObject : Type := PositionUpdates.

Definition emptyObject : PositionObject :=
  {| new_status := None; new_entry_price := None; new_triggers := None;
     new_stop_prices := None; new_trigger_side := None;
     new_lock_close_price := None; new_movement_threshold := None;
     new_is_placing_stop_loss_running := None |}.

Definition asObject (p : Position) : PositionObject :=
  {| new_status := Some (status p); new_entry_price := Some (entry_price p);
     new_triggers := Some (triggers p); new_stop_prices := Some (stop_prices p);
     new_trigger_side := Some (trigger_side p);
     new_lock_close_price := Some (lock_close_price p);
     new_movement_threshold := Some (movement_threshold p);
     new_is_placing_stop_loss_running := Some (is_placing_stop_loss_running p) |}.

(** A field after a spread: the later object wins where it has the field. *)
Definition later {A} (old new : option A) : option A :=
  match new with
  | Some v => Some v
  | None => old
  end.

(** [{ ...object, ...updates }] *)
Definition spreadObject (object updates : PositionObject) : PositionObject :=
  {| new_status := later (new_status object) (new_status updates);
     new_entry_price := later (new_entry_price object) (new_entry_price updates);
     new_triggers := later (new_triggers object) (new_triggers updates);
     new_stop_prices := later (new_stop_prices object) (new_stop_prices updates);
     new_trigger_side := later (new_trigger_side object) (new_trigger_side updates);
     new_lock_close_price :=
       later (new_lock_close_price object) (new_lock_close_price updates);
     new_movement_threshold :=
       later (new_movement_threshold object) (new_movement_threshold updates);
     new_is_placing_stop_loss_running :=
       later (new_is_placing_stop_loss_running object)
             (new_is_placing_stop_loss_running updates) |}.

(** The instance: for each account the [positions] object it holds. *)
Record Manager : Type := {
  accountData : gmap string (gmap string PositionObject);
  fileWrites : list (gmap string (gmap string PositionObject));
}.

(** [this.accountData[accountName].positions[symbol] = position] followed by
    [this.saveAccountData()]. *)
Definition assigned (accountName symbol : string) (position : PositionObject)
    (positions : gmap string PositionObject) (m : Manager) : Manager :=
  let data := <[accountName := <[symbol := position]> positions]> (accountData m) in
  {| accountData := data; fileWrites := data :: fileWrites m |}.

(** [updatePosition].  An inherited function passes a guard as a stored
    value does; a function has no [positions], so the second guard throws a
    [TypeError] for such an account name; the spread of a function has no
    field.  The assignment to an inherited [__proto__] replaces the
    prototype of [positions], which this store does not hold: the model
    stops there ([None]). *)
Definition updatePosition (accountName symbol : string) (updates : PositionUpdates)
    (m : Manager) : option (Outcome unit * Manager) :=
  match member (accountData m) accountName with
  | Undefined => Some (Thrown (AccountDoesNotExist accountName), m)
  | Method | Prototype => Some (Thrown (TypeError "positions is undefined"), m)
  | Own positions =>
      match member positions symbol with
      | Undefined => Some (Thrown (SymbolDoesNotExist symbol accountName), m)
      | Own position =>
          Some (Returned tt,
                assigned accountName symbol (spreadObject position updates)
                         positions m)
      | Method =>
          Some (Returned tt,
                assigned accountName symbol (spreadObject emptyObject updates)
                         positions m)
      | Prototype => None
      end
  end.

End ObjectStore.

(** The manager of the other sections, as objects: every stored position has
    all its fields. *)
Definition documentObjects (data : gmap string TokenData)
  : gmap string (gmap string ObjectStore.PositionObject) :=
  (fun account => ObjectStore.asObject <$> positions account) <$> data.

Definition managerObjects (am : AccountManager) : ObjectStore.Manager :=
  {| ObjectStore.accountData := documentObjects (accountData am);
     ObjectStore.fileWrites := map documentObjects (fileWrites am) |}.

(** *** The token-keyed variant of [initializeAccountData]

    The single-file engine ([index.ts]) keeps every token in one manager and
    initializes them together; a new position starts with [entry_price]
    [0.0], and the document is saved once, after the last token. *)

Module TokenKeyed.

Definition initialPosition : Position :=
  {| status := false; entry_price := Some 0; triggers := []; stop_prices := [];
     trigger_side := None; lock_close_price := None;
     movement_threshold := None; is_placing_stop_loss_running := false |}.

(** The inner [pairs.forEach] for one token. *)
Fixpoint initializePairs (pairs : list Pair) (acc : gmap string Position * bool)
  : gmap string Position * bool :=
  match pairs with
  | [] => acc
  | p :: rest =>
      let '(ps, initialized) := acc in
      match ps !! symbol p with
      | Some _ => initializePairs rest (ps, initialized)
      | None => initializePairs rest (<[symbol p := initialPosition]> ps, true)
      end
  end.

(** The outer [tokens.forEach]. *)
Fixpoint initializeTokens (tokens : list string) (pairs : list Pair)
    (acc : gmap string TokenData * bool) : gmap string TokenData * bool :=
  match tokens with
  | [] => acc
  | token :: rest =>
      let '(data, initialized) := acc in
      let '(account, initialized) :=
        match data !! token with
        | Some td => (td, initialized)
        | None => ({| positions := ∅ |}, true)
        end in
      let '(ps, initialized) := initializePairs pairs (positions account, initialized) in
      initializeTokens rest pairs (<[token := {| positions := ps |}]> data, initialized)
  end.

Definition initializeAccountData (tokens : list string) (pairs : list Pair)
  : Eff AccountManager unit :=
  let* am := Eff.get in
  let '(data, initialized) := initializeTokens tokens pairs (accountData am, false) in
  AccountManager.setAccountData data ;;
  if initialized then AccountManager.saveAccountData else Eff.ret tt.

End TokenKeyed.

(** ** Rolling candle history ([lib/deque.ts]) *)

Definition addCandleToQueue (candles : list Candle) (candle : Candle)
                            (maxLength : nat) : list Candle :=
  let candles :=
    if (maxLength <=? length candles)%nat
    then tail candles            (* candles.shift() *)
    else candles in
  candles ++ [candle].           (* candles.push(candle) *)

(** The default value of [maxLength]. *)
Definition defaultMaxLength : nat := 20.

(** [export const symbolCandles = config.pairs.reduce((acc, pair) =>
    { acc[pair.symbol] = []; return acc; }, {})] *)
Definition initialSymbolCandles (config : Config) : gmap string (list Candle) :=
  fold_left (fun acc p => <[symbol p := []]> acc) (pairs config) ∅.

(** The seeding loop of [main] ([index.ts]):
    [for (const candle of candles)
       symbolCandles[symbol] = addCandleToQueue(symbolCandles[symbol], candle);] *)
Definition seedCandles (fetched : list Candle) (queue : list Candle) : list Candle :=
  fold_left (fun candles candle => addCandleToQueue candles candle defaultMaxLength)
            fetched queue.

(** ** Configuration tables ([lib/load-data.ts]) *)

(** [config.pairs.reduce((acc, pair) => { acc[pair.symbol] = pair; ... }, {})] *)
Definition pairSettingsOf (config : Config) : gmap string Pair :=
  fold_left (fun acc p => <[symbol p := p]> acc) (pairs config) ∅.

(** ** Trigger ladder ([lib/calculate-triggers.ts]) *)

Module Ladder.
Section Loop.
Variables (entryPrice movementThreshold feesExemptionPercentage : Q).
Variable direction : TriggerSide.

Definition initialStopPrice : Q :=
  match direction with
  | long =>
      entryPrice * (1 - movementThreshold / 100 - feesExemptionPercentage / 100)
  | short =>
      entryPrice * (1 + movementThreshold / 100 + feesExemptionPercentage / 100)
  end.

Definition triggerPrice (i : Z) : Q :=
  match direction with
  | long => entryPrice * (1 + (inject_Z i * movementThreshold) / 100)
  | short => entryPrice * (1 - (inject_Z i * movementThreshold) / 100)
  end.

Definition stopPrice (currentStopPrice : Q) : Q :=
  match direction with
  | long =>
      currentStopPrice
      * (1 + movementThreshold / 100 + feesExemptionPercentage / 100)
  | short =>
      currentStopPrice
      * (1 - movementThreshold / 100 - feesExemptionPercentage / 100)
  end.

(** [for (let i = ...; i <= count; i++) { ... }] with [remaining] turns
    still to run; the arrays grow by [push]. *)
Fixpoint loop (remaining : nat) (i : Z) (currentStopPrice : Q)
              (triggers stopPrices : list Q) : list Q * list Q :=
  match remaining with
  | O => (triggers, stopPrices)
  | S remaining' =>
      let t := triggerPrice i in
      let s := stopPrice currentStopPrice in
      loop remaining' (i + 1)%Z s
           (triggers ++ [Number.toFixed t 8])
           (stopPrices ++ [Number.toFixed s 8])
  end.
End Loop.
End Ladder.

(** *** Numbers on binary64

    The arithmetic of the engine as it runs: every operation is the IEEE-754
    double operation, in the order the source performs it.  [toFixed] finds
    the nearest scaled integer from the exact value of the double, and
    [parseFloat] of its digits is the correctly rounded quotient. *)

Module Binary64.
Import PrimFloat SpecFloat FloatOps.
Local Open Scope float_scope.

Definition ofZ (n : Z) : float := of_uint63 (Uint63.of_Z n).

(** The double nearest to [n / d], ties to even, for [0 <= n], [0 < d] and
    a quotient in the normal range: what [parseFloat] gives for the digits
    of a decimal. *)
Definition nearestQuotient (n d : Z) : float :=
  if (n <=? 0)%Z then 0
  else
    let quotientAt (e : Z) : Z :=
      ((n * 2 ^ Z.max 0 (- e)) / (d * 2 ^ Z.max 0 e))%Z in
    let e0 := (Z.log2 n - Z.log2 d - 52)%Z in
    let e :=
      if (2 ^ 53 <=? quotientAt e0)%Z then (e0 + 1)%Z
      else if (quotientAt e0 <? 2 ^ 52)%Z then (e0 - 1)%Z
      else e0 in
    let numerator := (n * 2 ^ Z.max 0 (- e))%Z in
    let denominator := (d * 2 ^ Z.max 0 e)%Z in
    let q := (numerator / denominator)%Z in
    let r := (numerator mod denominator)%Z in
    let roundUp :=
      ((denominator <? 2 * r) || ((2 * r =? denominator) && Z.odd q))%Z in
    Z.ldexp (ofZ (if roundUp then q + 1 else q)) e.

(** The double nearest to the decimal [n / 10^p]. *)
Definition decimal (n : Z) (p : Z) : float := nearestQuotient n (10 ^ p).

(** The integer [n] for which [n / 10^p] is closest to the exact value
    [mantissa * 2^exponent], the larger [n] on a tie. *)
Definition nearestScaled (mantissa : positive) (exponent : Z) (p : Z) : Z :=
  let scaled := (Zpos mantissa * 10 ^ p)%Z in
  if (0 <=? exponent)%Z then (scaled * 2 ^ exponent)%Z
  else ((2 * scaled + 2 ^ (- exponent)) / 2 ^ (- exponent + 1))%Z.

(** [parseFloat(value.toFixed(precision))].  [toFixed] writes [NaN], the
    infinities and a magnitude from [10^21] on as [String(value)]; a zero of
    either sign as ["0.00..."]; every other value as its sign and the digits
    of the nearest scaled integer. *)
Definition toFixed (value : float) (precision : Z) : float :=
  match Prim2SF value with
  | S754_finite negative mantissa exponent =>
      if ofZ (5 ^ 21) * ofZ (2 ^ 21) <=? abs value then value
      else
        let v := decimal (nearestScaled mantissa exponent precision) precision in
        if negative then - v else v
  | S754_zero _ => 0
  | S754_infinity _ | S754_nan => value
  end.

(** JavaScript truthiness of a number: neither a zero nor [NaN]. *)
Definition truthy (x : float) : bool := negb (x =? 0) && negb (is_nan x).

(** [x || y] on numbers that may be [null]. *)
Definition orElse (x : option float) (y : float) : float :=
  match x with
  | Some v => if truthy v then v else y
  | None => y
  end.

(** [math.sum]: the entries are added from the left. *)
Definition sum (xs : list float) : float :=
  match xs with
  | [] => 0
  | x :: rest => fold_left add rest x
  end.

(** The [num] that [math.mean] counts up while it adds the entries. *)
Definition count (xs : list float) : float :=
  fold_left (fun num _ => num + 1) xs 0.

(** [math.mean] of a non-empty array. *)
Definition mean (xs : list float) : float := sum xs / count xs.

(** *** The ladder on binary64 *)

Definition initialStopPrice (entryPrice movementThreshold feesExemptionPercentage : float)
    (direction : TriggerSide) : float :=
  match direction with
  | long =>
      entryPrice * (1 - movementThreshold / 100 - feesExemptionPercentage / 100)
  | short =>
      entryPrice * (1 + movementThreshold / 100 + feesExemptionPercentage / 100)
  end.

Definition triggerPrice (entryPrice movementThreshold : float)
    (direction : TriggerSide) (i : float) : float :=
  match direction with
  | long => entryPrice * (1 + (i * movementThreshold) / 100)
  | short => entryPrice * (1 - (i * movementThreshold) / 100)
  end.

Definition stopPrice (movementThreshold feesExemptionPercentage : float)
    (direction : TriggerSide) (currentStopPrice : float) : float :=
  match direction with
  | long =>
      currentStopPrice * (1 + movementThreshold / 100 + feesExemptionPercentage / 100)
  | short =>
      currentStopPrice * (1 - movementThreshold / 100 - feesExemptionPercentage / 100)
  end.

Fixpoint loop (entryPrice movementThreshold feesExemptionPercentage : float)
    (direction : TriggerSide) (remaining : nat) (i : float)
    (currentStopPrice : float) (triggers stopPrices : list float)
  : list float * list float :=
  match remaining with
  | O => (triggers, stopPrices)
  | S remaining' =>
      let t := triggerPrice entryPrice movementThreshold direction i in
      let s := stopPrice movementThreshold feesExemptionPercentage direction
                         currentStopPrice in
      loop entryPrice movementThreshold feesExemptionPercentage direction
           remaining' (i + 1) s
           (triggers ++ [toFixed t 8]) (stopPrices ++ [toFixed s 8])
  end.

(** The two arrays [calculateTriggers] stores. *)
Definition ladder (entryPrice movementThreshold feesExemptionPercentage : float)
    (direction : TriggerSide) (count : nat) : list float * list float :=
  loop entryPrice movementThreshold feesExemptionPercentage direction count 1
       (initialStopPrice entryPrice movementThreshold feesExemptionPercentage direction)
       [] [].

(** The turn counter of the ladder loop at its [k]-th turn, counted from 0:
    [let i = 1] followed by [k] times [i++]. *)
Definition loopCounter (k : nat) : float := Nat.iter k (fun i => i + 1) 1.

(** The running stop [currentStopPrice] after [k] turns of the loop. *)
Definition runningStop (entryPrice movementThreshold feesExemptionPercentage : float)
    (direction : TriggerSide) (k : nat) : float :=
  Nat.iter k (stopPrice movementThreshold feesExemptionPercentage direction)
           (initialStopPrice entryPrice movementThreshold
                             feesExemptionPercentage direction).

End Binary64.

(** The default value of [count]. *)
Definition defaultCount : nat := 20.

Definition calculateTriggers (pairSettings : gmap string Pair)
    (entryPrice : Q) (direction : TriggerSide) (accountName symbol : string)
    (count : nat) : Eff AccountManager (list Q * list Q) :=
  let* am := Eff.get in
  match AccountManager.getPositionData accountName symbol am with
  | None => Eff.throw (NoPositionData accountName symbol)
  | Some positionData =>
      match movement_threshold positionData with
      | None => Eff.throw (NoPositionData accountName symbol)
      | Some movementThreshold =>
          if negb (Number.truthy movementThreshold)
          then Eff.throw (NoPositionData accountName symbol)
          else
            match pairSettings !! symbol with
            | None => Eff.throw (TypeError "pairSettings[symbol] is undefined")
            | Some pairConfig =>
                let feesExemptionPercentage := fees_exemption_percentage pairConfig in
                let initialStopPrice :=
                  Ladder.initialStopPrice entryPrice movementThreshold
                                          feesExemptionPercentage direction in
                let '(triggers, stopPrices) :=
                  Ladder.loop entryPrice movementThreshold feesExemptionPercentage
                              direction count 1 initialStopPrice [] [] in
                AccountManager.updatePosition accountName symbol
                  {| new_status := None; new_entry_price := None;
                     new_triggers := Some triggers;
                     new_stop_prices := Some stopPrices;
                     new_trigger_side := Some (Some direction);
                     new_lock_close_price := None;
                     new_movement_threshold := None;
                     new_is_placing_stop_loss_running := None |} ;;
                Eff.ret (triggers, stopPrices)
            end
      end
  end.

(** ** Movement detector ([lib/process-candles.ts]) *)

Module Detector.

(** [math.sum]: the entries are added from the left; the sum of no entry
    is [0]. *)
Definition sum (xs : list Q) : Q :=
  match xs with
  | [] => 0
  | x :: rest => fold_left Qplus rest x
  end.

(** [math.mean] of a non-empty array. *)
Definition mean (xs : list Q) : Q := sum xs / inject_Z (Z.of_nat (length xs)).

(** [xs.slice(start)]: a negative [start] counts from the end. *)
Definition slice {A} (start : Z) (xs : list A) : list A :=
  let len := Z.of_nat (length xs) in
  let k := if (start <? 0)%Z then Z.max (len + start) 0 else Z.min start len in
  drop (Z.to_nat k) xs.

(** The percentage move of a history row. *)
Definition rowDiff (row : Candle) : Q :=
  Qabs ((close row - open row) / open row) * 100.

(** The percentage move of the candle being judged. *)
Definition currentDiffOf (currentCandle : Candle) : Q :=
  (Qabs (close currentCandle - open currentCandle) / open currentCandle) * 100.

Section ProcessCandles.
Variable config : Config.
Variable symbolCandles : gmap string (list Candle).

Definition lockUpdates (currentCandle : Candle) (dynamicThreshold : Q)
  : PositionUpdates :=
  {| new_status := None; new_entry_price := None; new_triggers := None;
     new_stop_prices := None; new_trigger_side := None;
     new_lock_close_price := Some (Some (close currentCandle));
     new_movement_threshold := Some (Some (dynamicThreshold / 2));
     new_is_placing_stop_loss_running := None |}.

Definition processCandles (symbol_ : string) (currentCandle : Candle)
  : Eff AccountManager bool :=
  match symbolCandles !! symbol_ with
  | None | Some [] => Eff.throw (NoCandlesFound symbol_)
  | Some candles =>
      let diffs := map rowDiff candles in
      match find (fun p => String.eqb (symbol p) symbol_) (pairs config) with
      | None => Eff.throw (NoConfigurationFound symbol_)
      | Some pairConfig =>
          let averageDiff := mean diffs in
          let dynamicThreshold := threshold pairConfig * averageDiff in
          let currentDiff := currentDiffOf currentCandle in
          let pastDiffsSum :=
            sum (slice (- num_previous_candles pairConfig) diffs) in
          if Number.gtb currentDiff dynamicThreshold
             && Number.gtb currentDiff pastDiffsSum
          then
            Eff.forOf (tokens config) (fun token =>
              AccountManager.updatePosition token symbol_
                (lockUpdates currentCandle dynamicThreshold)) ;;
            Eff.ret true
          else Eff.ret false
      end
  end.
End ProcessCandles.

End Detector.

(** ** The closed-candle step of the feed handler ([index.ts])

    [const result = await processCandles(kline.s, candle, accountManager);]
    [symbolCandles[kline.s] = addCandleToQueue(symbolCandles[kline.s], candle);] *)

Record Feed : Type := {
  feedAccounts : AccountManager;
  symbolCandles : gmap string (list Candle);
}.

Definition onClosedCandle (config : Config) (symbol_ : string) (candle : Candle)
  : Eff Feed bool :=
  fun f =>
    match Detector.processCandles config (symbolCandles f) symbol_ candle
                                  (feedAccounts f) with
    | (Thrown e, am) =>
        (Thrown e, {| feedAccounts := am; symbolCandles := symbolCandles f |})
    | (Returned result, am) =>
        match symbolCandles f !! symbol_ with
        | None =>
            (Thrown (TypeError "candles is undefined"),
             {| feedAccounts := am; symbolCandles := symbolCandles f |})
        | Some candles =>
            (Returned result,
             {| feedAccounts := am;
                symbolCandles :=
                  <[symbol_ := addCandleToQueue candles candle defaultMaxLength]>
                    (symbolCandles f) |})
        end
    end.

(** ** The exchange, seen from the client library

    The REST client is not part of the engine.  Every call is a [Request]
    written to the gateway's journal and answered by the next [Reply] of a
    list supplied from outside; a missing, rejected or ill-shaped reply is
    the promise rejecting (a transport failure). *)

Inductive OrderType : Type := MARKET | STOP_MARKET | OTHER_TYPE.
Inductive PositionSide : Type := LONG | SHORT | BOTH.

#[global] Instance OrderType_eq_dec : EqDecision OrderType.
Proof. solve_decision. Defined.

Record SymbolInfo : Type := {
  info_symbol : string;
  pricePrecision : nat;
  quantityPrecision : nat;
}.

Record ExchangePosition : Type := {
  positionAmt : Q;
  positionSide : PositionSide;
}.

Record OpenOrder : Type := {
  open_type : OrderType;
  open_stopPrice : Q;
  open_orderId : Z;
}.

(** [NewFuturesOrderParams] *)
Record OrderParams : Type := {
  order_symbol : string;
  order_side : OrderSide;
  order_type : OrderType;
  order_quantity : option Q;
  order_stopPrice : option Q;
  order_positionSide : PositionSide;
  order_closePosition : bool;
}.

(** [NewOrderResult | NewOrderError] *)
Inductive OrderAnswer : Type :=
  | NewOrderResult (orderId : Z)
  | NewOrderError (code : Z).

Inductive Request : Type :=
  | GetExchangeInfo
  | GetPositionsV3 (symbol : string)
  | GetAllOpenOrders (symbol : string)
  | SubmitMultipleOrders (orders : list OrderParams)
  | SubmitNewOrder (order : OrderParams)
  | CancelAllOpenOrders (symbol : string).

Inductive Reply : Type :=
  | Rejects (what : string)
  | ExchangeInfo (symbols : list SymbolInfo)
  | Positions (ps : list ExchangePosition)
  | OpenOrders (os : list OpenOrder)
  | OrderAnswers (answers : list OrderAnswer)
  | OrderPlaced (orderId : Z)
  | Cancelled.

(** [interface OrderResult], the fields the engine reads. *)
Record OrderResult : Type := {
  success : bool;
  error : option string;
}.

(** [String.prototype.toUpperCase] on ASCII. *)
Definition upperChar (c : Ascii.ascii) : Ascii.ascii :=
  let n := Ascii.nat_of_ascii c in
  if ((97 <=? n) && (n <=? 122))%nat then Ascii.ascii_of_nat (n - 32) else c.

Fixpoint toUpperCase (s : string) : string :=
  match s with
  | EmptyString => EmptyString
  | String c rest => String (upperChar c) (toUpperCase rest)
  end.

(** ** TradeManager ([lib/trade-manager.ts]) *)

(** The instance fields, with the client's replies to come and the journal
    of requests sent, oldest first. *)
Record Gateway : Type := {
  positionLocks : gmap string bool;
  exchangeInfo : option (list SymbolInfo);
  replies : list Reply;
  requests : list Request;
}.

Module TradeManager.

Definition setPositionLock (symbol : string) (b : bool) : Eff Gateway unit :=
  Eff.modify (fun g =>
    {| positionLocks := <[symbol := b]> (positionLocks g);
       exchangeInfo := exchangeInfo g;
       replies := replies g; requests := requests g |}).

Definition setExchangeInfo (info : list SymbolInfo) : Eff Gateway unit :=
  Eff.modify (fun g =>
    {| positionLocks := positionLocks g; exchangeInfo := Some info;
       replies := replies g; requests := requests g |}).

(** One awaited call of [this.client]. *)
Definition call (rq : Request) : Eff Gateway Reply :=
  fun g =>
    let g' := {| positionLocks := positionLocks g;
                 exchangeInfo := exchangeInfo g;
                 replies := tail (replies g);
                 requests := requests g ++ [rq] |} in
    match replies g with
    | [] => (Thrown (TransportError "no reply"), g')
    | Rejects what :: _ => (Thrown (TransportError what), g')
    | r :: _ => (Returned r, g')
    end.

Definition illShaped {A} : Eff Gateway A :=
  Eff.throw (TransportError "unexpected reply").

Definition getExchangeInfo : Eff Gateway (list SymbolInfo) :=
  let* r := call GetExchangeInfo in
  match r with ExchangeInfo symbols => Eff.ret symbols | _ => illShaped end.

Definition getPositionsV3 (symbol : string) : Eff Gateway (list ExchangePosition) :=
  let* r := call (GetPositionsV3 symbol) in
  match r with Positions ps => Eff.ret ps | _ => illShaped end.

Definition getAllOpenOrders (symbol : string) : Eff Gateway (list OpenOrder) :=
  let* r := call (GetAllOpenOrders symbol) in
  match r with OpenOrders os => Eff.ret os | _ => illShaped end.

Definition submitMultipleOrders (orders : list OrderParams)
  : Eff Gateway (list OrderAnswer) :=
  let* r := call (SubmitMultipleOrders orders) in
  match r with OrderAnswers answers => Eff.ret answers | _ => illShaped end.

Definition submitNewOrder (order : OrderParams) : Eff Gateway Z :=
  let* r := call (SubmitNewOrder order) in
  match r with OrderPlaced orderId => Eff.ret orderId | _ => illShaped end.

Definition cancelAllOpenOrders (symbol : string) : Eff Gateway unit :=
  let* r := call (CancelAllOpenOrders symbol) in
  match r with Cancelled => Eff.ret tt | _ => illShaped end.

Definition getSymbolPrecision (symbol : string) : Eff Gateway (nat * nat) :=
  let* g := Eff.get in
  let* info :=
    match exchangeInfo g with
    | Some info => Eff.ret info
    | None =>
        let* info := getExchangeInfo in
        setExchangeInfo info ;; Eff.ret info
    end in
  match find (fun s => String.eqb (info_symbol s) (toUpperCase symbol)) info with
  | Some symbolInfo =>
      Eff.ret (pricePrecision symbolInfo, quantityPrecision symbolInfo)
  | None => Eff.throw (PrecisionNotFound symbol)
  end.

Definition roundToPrecision (value : Q) (precision : nat) : Q :=
  Number.toFixed value precision.

Definition isOrderError (order : OrderAnswer) : bool :=
  match order with NewOrderError _ => true | NewOrderResult _ => false end.

Definition calculateQuantity (symbol : string) (currentPrice usdtAmount : Q)
  : Eff Gateway Q :=
  Eff.tryCatch
    (let* (_, quantityPrecision) := getSymbolPrecision symbol in
     let rawQuantity := usdtAmount / currentPrice in
     Eff.ret (roundToPrecision rawQuantity quantityPrecision))
    (fun e => Eff.throw e).

Definition nonZero (amt : Q) : bool := negb (Qeq_bool amt 0).

Definition inExistingPosition (symbol : string) : Eff Gateway bool :=
  Eff.tryCatch
    (let* position := getPositionsV3 symbol in
     let* openOrders := getAllOpenOrders symbol in
     Eff.ret (existsb (fun pos => nonZero (positionAmt pos)) position
              || existsb (fun o => bool_decide (open_type o = MARKET)) openOrders))
    (fun _ => Eff.ret true).

(** The [for (const pos of position)] loop of [closePosition]: the first
    non-zero position is closed and the method returns. *)
Fixpoint closeFirstOpen (symbol : string) (position : list ExchangePosition)
  : Eff Gateway unit :=
  match position with
  | [] => Eff.ret tt
  | pos :: rest =>
      if nonZero (positionAmt pos)
      then
        let* (_, quantityPrecision) := getSymbolPrecision symbol in
        let roundedQty := roundToPrecision (Qabs (positionAmt pos)) quantityPrecision in
        let closePayload :=
          {| order_symbol := symbol;
             order_side := if Number.gtb (positionAmt pos) 0 then SELL else BUY;
             order_type := MARKET;
             order_quantity := Some roundedQty;
             order_stopPrice := None;
             order_positionSide := positionSide pos;
             order_closePosition := false |} in
        let* _ := submitNewOrder closePayload in
        Eff.ret tt
      else closeFirstOpen symbol rest
  end.

Definition closePosition (symbol : string) : Eff Gateway unit :=
  Eff.tryCatch
    (let* position := getPositionsV3 symbol in
     closeFirstOpen symbol position)
    (fun e => Eff.throw e).

Definition positionSideOf (side : OrderSide) : PositionSide :=
  match side with BUY => LONG | SELL => SHORT end.

Definition opposite (side : OrderSide) : OrderSide :=
  match side with BUY => SELL | SELL => BUY end.

Definition failure (msg : string) : OrderResult :=
  {| success := false; error := Some msg |}.

Definition placePositionWithStopLoss (symbol : string) (side : OrderSide)
    (usdtAmount stopPrice : Q) : Eff Gateway OrderResult :=
  let* g := Eff.get in
  if default false (positionLocks g !! symbol)
  then Eff.ret (failure "Position entry in progress")
  else
    Eff.tryFinally
      (Eff.tryCatch
         (setPositionLock symbol true ;;
          let currentPrice :=
            stopPrice / (1 + (match side with BUY => - (1 # 100) | SELL => 1 # 100 end)) in
          let* quantity := calculateQuantity symbol currentPrice usdtAmount in
          let* (pricePrecision, quantityPrecision) := getSymbolPrecision symbol in
          let roundedQty := roundToPrecision quantity quantityPrecision in
          let roundedStopPrice := roundToPrecision stopPrice pricePrecision in
          let* positionExists := inExistingPosition symbol in
          if positionExists
          then Eff.ret (failure "Position already exists")
          else
            let orderParams :=
              {| order_symbol := toUpperCase symbol;
                 order_side := side;
                 order_type := MARKET;
                 order_quantity := Some roundedQty;
                 order_stopPrice := None;
                 order_positionSide := positionSideOf side;
                 order_closePosition := false |} in
            let stopLossParams :=
              {| order_symbol := toUpperCase symbol;
                 order_side := opposite side;
                 order_type := STOP_MARKET;
                 order_quantity := None;
                 order_stopPrice := Some roundedStopPrice;
                 order_positionSide := positionSideOf side;
                 order_closePosition := true |} in
            let* orders := submitMultipleOrders [orderParams; stopLossParams] in
            match orders !! 1%nat with
            | None => Eff.throw (TypeError "orders[1] is undefined")
            | Some stopLossOrder =>
                if isOrderError stopLossOrder
                then
                  closePosition symbol ;;
                  Eff.ret (failure "Stop loss placement failed")
                else Eff.ret {| success := true; error := None |}
            end)
         (fun _ =>
            closePosition symbol ;;
            Eff.ret (failure "Error placing position or stop loss")))
      (setPositionLock symbol false).

Definition cancelAllOrder (symbol : string) : Eff Gateway unit :=
  Eff.tryCatch (cancelAllOpenOrders (toUpperCase symbol)) (fun e => Eff.throw e).

Definition placeTrailStopLoss (symbol : string) (forSide : OrderSide)
    (stopPrice : Q) : Eff Gateway bool :=
  Eff.tryCatch
    (let* openOrders := getAllOpenOrders symbol in
     let existingStopLoss :=
       find (fun o => bool_decide (open_type o = STOP_MARKET)
                      && Qeq_bool (open_stopPrice o) stopPrice) openOrders in
     match existingStopLoss with
     | Some _ => Eff.ret true
     | None =>
         let* (pricePrecision, _) := getSymbolPrecision symbol in
         let roundedStopPrice := roundToPrecision stopPrice pricePrecision in
         cancelAllOrder symbol ;;
         let stopLossParams :=
           {| order_symbol := toUpperCase symbol;
              order_side := opposite forSide;
              order_type := STOP_MARKET;
              order_quantity := None;
              order_stopPrice := Some roundedStopPrice;
              order_positionSide := positionSideOf forSide;
              order_closePosition := true |} in
         let* _ := submitNewOrder stopLossParams in
         Eff.ret true
     end)
    (fun e => Eff.throw e).

(** One entry of [updateData.updatedPositions]. *)
Record UpdatedPosition : Type := {
  updated_symbol : string;
  positionAmount : Q;
  entryPrice : Q;
}.

Definition clearedUpdates : PositionUpdates :=
  {| new_status := Some false;
     new_entry_price := Some None;
     new_triggers := Some [];
     new_stop_prices := Some [];
     new_trigger_side := Some None;
     new_lock_close_price := Some None;
     new_movement_threshold := Some None;
     new_is_placing_stop_loss_running := None |}.

Definition openedUpdates (entry : Q) : PositionUpdates :=
  {| new_status := Some true;
     new_entry_price := Some (Some entry);
     new_triggers := None; new_stop_prices := None;
     new_trigger_side := None; new_lock_close_price := None;
     new_movement_threshold := None;
     new_is_placing_stop_loss_running := None |}.

Definition handleAccountUpdate (accountName : string)
    (updatedPositions : list UpdatedPosition) : Eff AccountManager unit :=
  Eff.forOf updatedPositions (fun position =>
    if Qeq_bool (positionAmount position) 0
    then AccountManager.updatePosition accountName (updated_symbol position)
           clearedUpdates
    else AccountManager.updatePosition accountName (updated_symbol position)
           (openedUpdates (entryPrice position))).

End TradeManager.

(** ** The engine's per-account objects *)

(** What [checkMovementThreshold] and [checkTriggers] call on the
    [tradeManager] they are handed; [G] is whatever that object holds. *)
Record TradeManagerMethods (G : Type) : Type := {
  tm_placePositionWithStopLoss : string -> OrderSide -> Q -> Q -> Eff G OrderResult;
  tm_placeTrailStopLoss : string -> OrderSide -> Q -> Eff G bool;
  tm_closePosition : string -> Eff G unit;
}.
Arguments tm_placePositionWithStopLoss {G} _.
Arguments tm_placeTrailStopLoss {G} _.
Arguments tm_closePosition {G} _.

(** The class of [lib/trade-manager.ts]. *)
Definition tradeManager : TradeManagerMethods Gateway :=
  {| tm_placePositionWithStopLoss := TradeManager.placePositionWithStopLoss;
     tm_placeTrailStopLoss := TradeManager.placeTrailStopLoss;
     tm_closePosition := TradeManager.closePosition |}.

(** The objects one tick works on: the account store, the module-level
    [processingTriggers] table and the trade manager's own state. *)
Record World (G : Type) : Type := {
  accountManager : AccountManager;
  processingTriggers : gmap string bool;
  gateway : G;
}.
Arguments accountManager {G} _.
Arguments processingTriggers {G} _.
Arguments gateway {G} _.

Section Engine.
Context {G : Type}.
Variable tm : TradeManagerMethods G.
Variable pairSettings : gmap string Pair.

(** A method of the account manager, run on the world's store. *)
Definition onAccounts {A} (c : Eff AccountManager A) : Eff (World G) A :=
  fun w =>
    let '(r, am) := c (accountManager w) in
    (r, {| accountManager := am;
           processingTriggers := processingTriggers w;
           gateway := gateway w |}).

(** A method of the trade manager, run on the world's gateway. *)
Definition onGateway {A} (c : Eff G A) : Eff (World G) A :=
  fun w =>
    let '(r, g) := c (gateway w) in
    (r, {| accountManager := accountManager w;
           processingTriggers := processingTriggers w;
           gateway := g |}).

Definition setProcessing (lockKey : string) (b : bool) : Eff (World G) unit :=
  Eff.modify (fun w =>
    {| accountManager := accountManager w;
       processingTriggers := <[lockKey := b]> (processingTriggers w);
       gateway := gateway w |}).

(** *** Entry engine ([lib/movement-threshold.ts]) *)

(** The [if (response.success) { try { ... } catch { ... } }] block. *)
Definition setTriggers (accountName symbol : string) (currentPrice : Q)
    (direction : TriggerSide) : Eff (World G) unit :=
  Eff.tryCatch
    (let* w := Eff.get in
     let entryPrice :=
       Number.orElse
         (match AccountManager.getPositionData accountName symbol (accountManager w) with
          | Some p => entry_price p
          | None => None
          end)
         currentPrice in
     let* _ := onAccounts (calculateTriggers pairSettings entryPrice direction
                                             accountName symbol defaultCount) in
     Eff.ret tt)
    (fun _ => Eff.ret tt).

Definition checkMovementThreshold (accountName symbol : string) (currentPrice : Q)
  : Eff (World G) unit :=
  let* w := Eff.get in
  match AccountManager.getPositionData accountName symbol (accountManager w) with
  | None => Eff.ret tt
  | Some positionData =>
      match lock_close_price positionData with
      | None => Eff.ret tt
      | Some lockClosePrice =>
          if Number.truthy lockClosePrice && negb (status positionData)
          then
            match movement_threshold positionData with
            | None => Eff.ret tt
            | Some movementThreshold =>
                if negb (Number.truthy movementThreshold) then Eff.ret tt
                else
                  let upThreshold := lockClosePrice * (1 + movementThreshold / 100) in
                  let downThreshold := lockClosePrice * (1 - movementThreshold / 100) in
                  match pairSettings !! symbol with
                  | None => Eff.throw (TypeError "pairSettings[symbol] is undefined")
                  | Some pairConfig =>
                      let usdtAmount := usdt_amount pairConfig in
                      if Number.geb currentPrice upThreshold then
                        let* response :=
                          onGateway
                            (tm_placePositionWithStopLoss tm symbol BUY usdtAmount
                               (currentPrice * (1 - movementThreshold / 100))) in
                        if success response
                        then setTriggers accountName symbol currentPrice long
                        else Eff.ret tt
                      else if Number.leb currentPrice downThreshold then
                        let* response :=
                          onGateway
                            (tm_placePositionWithStopLoss tm symbol SELL usdtAmount
                               (currentPrice * (1 + movementThreshold / 100))) in
                        if success response
                        then setTriggers accountName symbol currentPrice short
                        else Eff.ret tt
                      else Eff.ret tt
                  end
            end
          else Eff.ret tt
      end
  end.

(** *** Trigger runner ([lib/check-triggers.ts]) *)

(** [`${accountName}-${symbol}`] *)
Definition lockKeyOf (accountName symbol : string) : string :=
  (accountName ++ "-" ++ symbol)%string.

Definition triggerCondition (isLong : bool) (price trigger : Q) : bool :=
  if isLong then Number.geb price trigger else Number.leb price trigger.

(** [xs[0] !== ys[0]] on arrays of numbers. *)
Definition headsDiffer (xs ys : list Q) : bool :=
  match head xs, head ys with
  | Some x, Some y => negb (Qeq_bool x y)
  | None, None => false
  | _, _ => true
  end.

Definition ladderUpdates (newTriggers newStopPrices : list Q) : PositionUpdates :=
  {| new_status := None; new_entry_price := None;
     new_triggers := Some newTriggers;
     new_stop_prices := Some newStopPrices;
     new_trigger_side := None; new_lock_close_price := None;
     new_movement_threshold := None;
     new_is_placing_stop_loss_running := None |}.

(** The [for (let retryCount = ...; retryCount < 3 && !placed; retryCount++)]
    loop with [turnsLeft] turns still allowed.  It answers [true] when the
    function returned from inside the loop, [false] when the loop ran out
    with [placed] still false. *)
Fixpoint retryLoop (turnsLeft : nat) (accountName symbol : string)
    (isLong : bool) (stopPrice : Q) (triggers stopPrices : list Q)
  : Eff (World G) bool :=
  match turnsLeft with
  | O => Eff.ret false
  | S turnsLeft' =>
      let* placed :=
        onGateway (tm_placeTrailStopLoss tm symbol (if isLong then BUY else SELL)
                                         stopPrice) in
      if placed
      then
        let newTriggers := drop 1 triggers in
        let newStopPrices := drop 1 stopPrices in
        onAccounts (AccountManager.updatePosition accountName symbol
                      (ladderUpdates newTriggers newStopPrices)) ;;
        setProcessing (lockKeyOf accountName symbol) false ;;
        Eff.ret true
      else retryLoop turnsLeft' accountName symbol isLong stopPrice
                     triggers stopPrices
  end.

Definition maxRetries : nat := 3.

Definition checkTriggers (accountName symbol : string) (currentPrice : Q)
  : Eff (World G) unit :=
  let* w := Eff.get in
  match AccountManager.getPositionData accountName symbol (accountManager w) with
  | None => Eff.ret tt
  | Some positionData =>
      if negb (status positionData)
         || (length (triggers positionData) =? 0)%nat
         || (length (stop_prices positionData) =? 0)%nat
      then Eff.ret tt
      else
        let lockKey := lockKeyOf accountName symbol in
        if default false (processingTriggers w !! lockKey) then Eff.ret tt
        else
          let triggersCopy := triggers positionData in
          let stopPricesCopy := stop_prices positionData in
          let isLong := bool_decide (trigger_side positionData = Some long) in
          match triggersCopy, stopPricesCopy with
          | trigger0 :: _, stopPrice :: _ =>
              if triggerCondition isLong currentPrice trigger0
              then
                Eff.tryFinally
                  (Eff.tryCatch
                     (setProcessing lockKey true ;;
                      let* w' := Eff.get in
                      let stale :=
                        match AccountManager.getPositionData accountName symbol
                                (accountManager w') with
                        | None => true
                        | Some currentPositionData =>
                            negb (status currentPositionData)
                            || headsDiffer (triggers currentPositionData) triggersCopy
                            || headsDiffer (stop_prices currentPositionData)
                                           stopPricesCopy
                        end in
                      if stale
                      then setProcessing lockKey false
                      else
                        let* returned :=
                          retryLoop maxRetries accountName symbol isLong stopPrice
                                    triggersCopy stopPricesCopy in
                        if returned then Eff.ret tt
                        else onGateway (tm_closePosition tm symbol))
                     (fun _ => Eff.ret tt))
                  (setProcessing lockKey false)
              else Eff.ret tt
          | _, _ => Eff.ret tt
          end
  end.

End Engine.

(** ** The detector and the entry engine on binary64

    [processCandles] ([src/unnamed/part_007]), [calculateTriggers]
    ([src/unnamed/part_003]) and [checkMovementThreshold]
    ([src/unnamed/part_004]) once more, with their arithmetic on doubles.
    The objects they call (the account manager, the trade manager and, for
    the entry engine, the ladder computation) are parameters acting on a
    state [S]. *)

Module Doubles.
Import PrimFloat.
Local Open Scope float_scope.

Record Pair : Type := {
  symbol : string;
  threshold : float;
  fees_exemption_percentage : float;
  num_previous_candles : Z;
  usdt_amount : float;
}.

Record Candle : Type := {
  openTime : Z;
  open : float;
  high : float;
  low : float;
  close : float;
  volume : float;
  closeTime : Z;
}.

(** The fields of a stored position that the ladder computation and the
    entry engine read. *)
Record Position : Type := {
  status : bool;
  entry_price : option float;
  lock_close_price : option float;
  movement_threshold : option float;
}.

(** The percentage move of a history row. *)
Definition rowDiff (row : Candle) : float :=
  abs ((close row - open row) / open row) * 100.

(** The percentage move of the candle being judged. *)
Definition currentDiffOf (currentCandle : Candle) : float :=
  (abs (close currentCandle - open currentCandle) / open currentCandle) * 100.

Section ProcessCandles.
Context {S : Type}.
Variable tokens : list string.
Variable pairs : list Pair.
Variable symbolCandles : gmap string (list Candle).

(** [accountManager.updatePosition(token, symbol,
    { lock_close_price, movement_threshold })] *)
Variable updatePosition : string -> string -> float -> float -> Eff S unit.

Definition processCandles (symbol_ : string) (currentCandle : Candle)
  : Eff S bool :=
  match symbolCandles !! symbol_ with
  | None | Some [] => Eff.throw (NoCandlesFound symbol_)
  | Some candles =>
      let diffs := map rowDiff candles in
      match find (fun p => String.eqb (symbol p) symbol_) pairs with
      | None => Eff.throw (NoConfigurationFound symbol_)
      | Some pairConfig =>
          let averageDiff := Binary64.mean diffs in
          let dynamicThreshold := threshold pairConfig * averageDiff in
          let currentDiff := currentDiffOf currentCandle in
          let pastDiffsSum :=
            Binary64.sum (Detector.slice (- num_previous_candles pairConfig) diffs) in
          if (dynamicThreshold <? currentDiff) && (pastDiffsSum <? currentDiff)
          then
            Eff.forOf tokens (fun token =>
              updatePosition token symbol_ (close currentCandle)
                             (dynamicThreshold / 2)) ;;
            Eff.ret true
          else Eff.ret false
      end
  end.
End ProcessCandles.

Section CalculateTriggers.
Context {S : Type}.

(** [accountManager.getPositionData(accountName, symbol)] *)
Variable getPositionData : string -> string -> S -> option Position.
Variable pairSettings : gmap string Pair.

(** [accountManager.updatePosition(accountName, symbol,
    { triggers, stop_prices: stopPrices, trigger_side: direction })] *)
Variable updatePosition :
  string -> string -> list float -> list float -> TriggerSide -> Eff S unit.

Definition calculateTriggers (entryPrice : float) (direction : TriggerSide)
    (accountName symbol : string) (count : nat)
  : Eff S (list float * list float) :=
  let* s := Eff.get in
  match getPositionData accountName symbol s with
  | None => Eff.throw (NoPositionData accountName symbol)
  | Some positionData =>
      match movement_threshold positionData with
      | None => Eff.throw (NoPositionData accountName symbol)
      | Some movementThreshold =>
          if negb (Binary64.truthy movementThreshold)
          then Eff.throw (NoPositionData accountName symbol)
          else
            match pairSettings !! symbol with
            | None => Eff.throw (TypeError "pairSettings[symbol] is undefined")
            | Some pairConfig =>
                let feesExemptionPercentage := fees_exemption_percentage pairConfig in
                let initialStopPrice :=
                  Binary64.initialStopPrice entryPrice movementThreshold
                                            feesExemptionPercentage direction in
                let '(triggers, stopPrices) :=
                  Binary64.loop entryPrice movementThreshold feesExemptionPercentage
                                direction count 1 initialStopPrice [] [] in
                updatePosition accountName symbol triggers stopPrices direction ;;
                Eff.ret (triggers, stopPrices)
            end
      end
  end.
End CalculateTriggers.

Section CheckMovementThreshold.
Context {S : Type}.

(** [accountManager.getPositionData(accountName, symbol)] *)
Variable getPositionData : string -> string -> S -> option Position.
Variable pairSettings : gmap string Pair.

(** [tradeManager.placePositionWithStopLoss(symbol, side, usdtAmount,
    stopLossPrice)] *)
Variable placePositionWithStopLoss :
  string -> OrderSide -> float -> float -> Eff S OrderResult.

(** [calculateTriggers(accountManager, entryPrice, direction, accountName,
    symbol)] *)
Variable calculateTriggers :
  float -> TriggerSide -> string -> string -> Eff S (list float * list float).

(** The [if (response.success) { try { ... } catch { ... } }] block. *)
Definition setTriggers (accountName symbol : string) (currentPrice : float)
    (direction : TriggerSide) : Eff S unit :=
  Eff.tryCatch
    (let* s := Eff.get in
     let entryPrice :=
       Binary64.orElse
         (match getPositionData accountName symbol s with
          | Some p => entry_price p
          | None => None
          end)
         currentPrice in
     let* _ := calculateTriggers entryPrice direction accountName symbol in
     Eff.ret tt)
    (fun _ => Eff.ret tt).

Definition checkMovementThreshold (accountName symbol : string)
    (currentPrice : float) : Eff S unit :=
  let* s := Eff.get in
  match getPositionData accountName symbol s with
  | None => Eff.ret tt
  | Some positionData =>
      match lock_close_price positionData with
      | None => Eff.ret tt
      | Some lockClosePrice =>
          if Binary64.truthy lockClosePrice && negb (status positionData)
          then
            match movement_threshold positionData with
            | None => Eff.ret tt
            | Some movementThreshold =>
                if negb (Binary64.truthy movementThreshold) then Eff.ret tt
                else
                  let upThreshold := lockClosePrice * (1 + movementThreshold / 100) in
                  let downThreshold := lockClosePrice * (1 - movementThreshold / 100) in
                  match pairSettings !! symbol with
                  | None => Eff.throw (TypeError "pairSettings[symbol] is undefined")
                  | Some pairConfig =>
                      let usdtAmount := usdt_amount pairConfig in
                      if upThreshold <=? currentPrice then
                        let* response :=
                          placePositionWithStopLoss symbol BUY usdtAmount
                            (currentPrice * (1 - movementThreshold / 100)) in
                        if success response
                        then setTriggers accountName symbol currentPrice long
                        else Eff.ret tt
                      else if currentPrice <=? downThreshold then
                        let* response :=
                          placePositionWithStopLoss symbol SELL usdtAmount
                            (currentPrice * (1 + movementThreshold / 100)) in
                        if success response
                        then setTriggers accountName symbol currentPrice short
                        else Eff.ret tt
                      else Eff.ret tt
                  end
            end
          else Eff.ret tt
      end
  end.
End CheckMovementThreshold.

End Doubles.

(** * Specification vocabulary

    Statements are phrased with the definitions below: the quantities of the
    specification written out from its words, the shapes a position takes
    after an operation, and what is observed of a run. *)

(** ** Account store *)

(** The store after a successful [updatePosition]. *)
Definition stored (accountName symbol : string) (p : Position) (account : TokenData)
    (am : AccountManager) : AccountManager :=
  let data :=
    <[accountName := {| positions := <[symbol := p]> (positions account) |}]>
      (accountData am) in
  {| accountData := data; fileWrites := data :: fileWrites am |}.

(** A field after a merge: the patch's value when the patch has the field,
    the old value otherwise. *)
Definition merged {A} (old : A) (patch : option A) (new : A) : Prop :=
  match patch with
  | Some v => new = v
  | None => new = old
  end.

Definition patched (p : Position) (u : PositionUpdates) (p' : Position) : Prop :=
  merged (status p) (new_status u) (status p')
  /\ merged (entry_price p) (new_entry_price u) (entry_price p')
  /\ merged (triggers p) (new_triggers u) (triggers p')
  /\ merged (stop_prices p) (new_stop_prices u) (stop_prices p')
  /\ merged (trigger_side p) (new_trigger_side u) (trigger_side p')
  /\ merged (lock_close_price p) (new_lock_close_price u) (lock_close_price p')
  /\ merged (movement_threshold p) (new_movement_threshold u) (movement_threshold p')
  /\ merged (is_placing_stop_loss_running p) (new_is_placing_stop_loss_running u)
            (is_placing_stop_loss_running p').

(** ** Candle history *)

(** Entries strictly ordered by [openTime], oldest first. *)
Fixpoint chronological (candles : list Candle) : Prop :=
  match candles with
  | [] => True
  | c :: rest =>
      match rest with
      | [] => True
      | c' :: _ => (openTime c < openTime c')%Z
      end /\ chronological rest
  end.

(** The contract of [append] as the specification words it: append when the
    candle is newer than the last entry, otherwise replace the last entry;
    evict the oldest entry when the history is full. *)
Definition appendAsSpecified (candles : list Candle) (candle : Candle)
    (capacity : nat) : list Candle :=
  match last candles with
  | None => [candle]
  | Some newest =>
      if (openTime newest <? openTime candle)%Z
      then (if (length candles =? capacity)%nat then tail candles else candles)
           ++ [candle]
      else removelast candles ++ [candle]
  end.

(** ** Reconciliation from the user stream *)

(** The position a flat report leaves behind. *)
Definition clearedPosition (prior : Position) : Position :=
  {| status := false; entry_price := None; triggers := []; stop_prices := [];
     trigger_side := None; lock_close_price := None; movement_threshold := None;
     is_placing_stop_loss_running := is_placing_stop_loss_running prior |}.

Definition knows (accountName : string) (am : AccountManager)
    (report : TradeManager.UpdatedPosition) : Prop :=
  is_Some (AccountManager.getPositionData accountName
             (TradeManager.updated_symbol report) am).

(** ** Trigger ladder *)

(** The ladder as the specification writes it, with [m' = m/100] and
    [f' = f/100]: the [i]-th trigger and the running stop [S_i]. *)
Definition ladderTrigger (E m' : Q) (d : TriggerSide) (i : nat) : Q :=
  match d with
  | long => E * (1 + inject_Z (Z.of_nat i) * m')
  | short => E * (1 - inject_Z (Z.of_nat i) * m')
  end.

Fixpoint ladderStop (E m' f' : Q) (d : TriggerSide) (i : nat) : Q :=
  match i with
  | O =>
      match d with
      | long => E * (1 - m' - f')
      | short => E * (1 + m' + f')
      end
  | S k =>
      match d with
      | long => ladderStop E m' f' d k * (1 + m' + f')
      | short => ladderStop E m' f' d k * (1 - m' - f')
      end
  end.

(** [v] is [x] rounded to [p] decimal places: a multiple of [10^-p] at most
    half a unit of the last place away from [x]. *)
Definition roundedTo (p : nat) (x v : Q) : Prop :=
  (exists n : Z, v = n # Number.pow10 p)
  /\ Qabs (v - x) <= 1 # (2 * Number.pow10 p).


(** ** Movement detector *)

(** The detector's quantities as the specification defines them over a
    history [H]. *)
Definition specDiff (x : Candle) : Q := Qabs (close x - open x) / open x * 100.

Definition total (xs : list Q) : Q := fold_right Qplus 0 xs.

Definition lastEntries {A} (n : nat) (xs : list A) : list A :=
  drop (length xs - n) xs.

Definition averageDiff (H : list Candle) : Q :=
  total (map specDiff H) / inject_Z (Z.of_nat (length H)).

Definition dynamicThresholdOf (pairConfig : Pair) (H : list Candle) : Q :=
  threshold pairConfig * averageDiff H.

Definition pastSumOf (pairConfig : Pair) (H : list Candle) : Q :=
  total (lastEntries (Z.to_nat (num_previous_candles pairConfig)) (map specDiff H)).

(** The trigger condition for a candle [c] judged against a history [H]. *)
Definition triggerConditionOn (pairConfig : Pair) (H : list Candle) (c : Candle) : Prop :=
  dynamicThresholdOf pairConfig H < specDiff c /\ pastSumOf pairConfig H < specDiff c.

(** The same condition when, as the specification words it, the snapshot
    [H] already holds the judged candle as its last element. *)
Definition triggersAsSpecified (pairConfig : Pair) (H : list Candle) : Prop :=
  match last H with
  | Some c => triggerConditionOn pairConfig H c
  | None => False
  end.

(** The position after the detector has locked a price on it. *)
Definition withLock (p : Position) (lockPrice movement : Q) : Position :=
  {| status := status p; entry_price := entry_price p;
     triggers := triggers p; stop_prices := stop_prices p;
     trigger_side := trigger_side p;
     lock_close_price := Some lockPrice;
     movement_threshold := Some movement;
     is_placing_stop_loss_running := is_placing_stop_loss_running p |}.

(** The detector's own threshold, past sum and decision, as the code
    computes them from the stored history [H]. *)
Definition codeThreshold (H : list Candle) (pairConfig : Pair) : Q :=
  threshold pairConfig * Detector.mean (map Detector.rowDiff H).

Definition codePastSum (H : list Candle) (pairConfig : Pair) : Q :=
  Detector.sum (Detector.slice (- num_previous_candles pairConfig)
                               (map Detector.rowDiff H)).

Definition codeDecision (H : list Candle) (pairConfig : Pair) (c : Candle) : bool :=
  Number.gtb (Detector.currentDiffOf c) (codeThreshold H pairConfig)
  && Number.gtb (Detector.currentDiffOf c) (codePastSum H pairConfig).

(** ** What a trade manager is asked and what the exchange is sent *)

(** A call made on a trade manager, with its arguments. *)
Inductive Asked : Type :=
  | AskedEntry (symbol : string) (side : OrderSide) (usdtAmount stopPrice : Q)
  | AskedTrailStop (symbol : string) (forSide : OrderSide) (stopPrice : Q)
  | AskedClose (symbol : string).

(** The calls noted so far, oldest first, and the answers still to give. *)
Record Recorder : Type := {
  asked : list Asked;
  entryAnswer : OrderResult;
  trailAnswers : list (Outcome bool);
}.

Definition note (a : Asked) (r : Recorder) : Recorder :=
  {| asked := asked r ++ [a]; entryAnswer := entryAnswer r;
     trailAnswers := trailAnswers r |}.

(** A trade manager that only notes what it is asked and answers as told: the
    [DummyTradeManager] of the repository's test, with the answers made
    explicit (a placement answers [true] once the told answers run out). *)
Definition recordingTradeManager : TradeManagerMethods Recorder :=
  {| tm_placePositionWithStopLoss := fun symbol side usdtAmount stopPrice r =>
       (Returned (entryAnswer r), note (AskedEntry symbol side usdtAmount stopPrice) r);
     tm_placeTrailStopLoss := fun symbol forSide stopPrice r =>
       (match trailAnswers r with
        | answer :: _ => answer
        | [] => Returned true
        end,
        {| asked := asked r ++ [AskedTrailStop symbol forSide stopPrice];
           entryAnswer := entryAnswer r;
           trailAnswers := tail (trailAnswers r) |});
     tm_closePosition := fun symbol r => (Returned tt, note (AskedClose symbol) r) |}.

(** The market orders of a batch submission, in the order sent. *)
Definition marketQuantities (rqs : list Request) : list Q :=
  flat_map (fun rq =>
    match rq with
    | SubmitMultipleOrders orders =>
        flat_map (fun o =>
          match order_type o, order_quantity o with
          | MARKET, Some q => [q]
          | _, _ => []
          end) orders
    | _ => []
    end) rqs.

(** ** Outcomes and invariants *)

(** What an outcome can be when a method returns at all. *)
Definition returnsOnly {S A} (P : A -> Prop) (c : Eff S A) : Prop :=
  forall s a s', c s = (Returned a, s') -> P a.

(** P1 for one position and for a whole store. *)
Definition ladderAligned (p : Position) : Prop :=
  length (triggers p) = length (stop_prices p).

Definition storeAligned (am : AccountManager) : Prop :=
  forall a s p, AccountManager.getPositionData a s am = Some p -> ladderAligned p.

(** A patch that cannot break P1: it writes both arrays, of equal length, or
    neither. *)
Definition keepsAligned (u : PositionUpdates) : Prop :=
  match new_triggers u, new_stop_prices u with
  | Some ts, Some ss => length ts = length ss
  | None, None => True
  | _, _ => False
  end.

(** The state-changing operations of the engine on one account's objects. *)
Inductive Operation : Type :=
  | Initialize (accountName : string) (pairs : list Pair)
  | DetectorRun (symbolCandles : gmap string (list Candle)) (symbol : string)
                (candle : Candle)
  | ComputeLadder (entryPrice : Q) (direction : TriggerSide)
                  (accountName symbol : string) (count : nat)
  | EntryTick (accountName symbol : string) (currentPrice : Q)
  | TriggerTick (accountName symbol : string) (currentPrice : Q)
  | AccountUpdate (accountName : string)
                  (updatedPositions : list TradeManager.UpdatedPosition).

Section Operations.
Context {G : Type}.
Variable tm : TradeManagerMethods G.
Variable config : Config.

(** Run one operation; whether it returned or threw, the state it reached is
    the state the next operation starts from. *)
Definition perform (op : Operation) (w : World G) : World G :=
  match op with
  | Initialize accountName pairs =>
      snd (onAccounts (AccountManager.initializeAccountData accountName pairs) w)
  | DetectorRun symbolCandles symbol_ candle =>
      snd (onAccounts (Detector.processCandles config symbolCandles symbol_ candle) w)
  | ComputeLadder entryPrice direction accountName symbol_ count =>
      snd (onAccounts (calculateTriggers (pairSettingsOf config) entryPrice direction
                                         accountName symbol_ count) w)
  | EntryTick accountName symbol_ currentPrice =>
      snd (checkMovementThreshold tm (pairSettingsOf config) accountName symbol_
                                  currentPrice w)
  | TriggerTick accountName symbol_ currentPrice =>
      snd (checkTriggers tm accountName symbol_ currentPrice w)
  | AccountUpdate accountName updatedPositions =>
      snd (onAccounts (TradeManager.handleAccountUpdate accountName updatedPositions) w)
  end.

Definition performAll (ops : list Operation) (w : World G) : World G :=
  fold_left (fun w op => perform op w) ops w.

End Operations.

(** A property of the state that a method keeps, however it ends. *)
Definition preserves {S A} (I : S -> Prop) (c : Eff S A) : Prop :=
  forall s, I s -> I (snd (c s)).

(** P1 for the store of a world. *)
Definition worldAligned (G : Type) (w : World G) : Prop :=
  storeAligned (accountManager w).

(** * Vocabulary of the code-level properties

    What the properties of the last part are phrased with: sequences of
    calls, the shapes of orders, and the invariants of the gateway. *)

(** ** The account store as its callers use it *)

(** The public mutators of [AccountManager]. *)
Inductive StoreCall : Type :=
  | CallInitialize (accountName : string) (pairs : list Pair)
  | CallInitializeTokens (tokens : list string) (pairs : list Pair)
  | CallUpdatePosition (accountName symbol : string) (updates : PositionUpdates)
  | CallDeleteAccount (accountName : string)
  | CallDeletePosition (accountName symbol : string).

(** One call of a mutator. *)
Definition runCall (c : StoreCall) : Eff AccountManager unit :=
  match c with
  | CallInitialize accountName pairs =>
      AccountManager.initializeAccountData accountName pairs
  | CallInitializeTokens tokens pairs => TokenKeyed.initializeAccountData tokens pairs
  | CallUpdatePosition accountName symbol updates =>
      AccountManager.updatePosition accountName symbol updates
  | CallDeleteAccount accountName => AccountManager.deleteAccount accountName
  | CallDeletePosition accountName symbol =>
      AccountManager.deletePosition accountName symbol
  end.

(** The manager after a sequence of calls, each of which returned or threw. *)
Definition runCalls (cs : list StoreCall) (am : AccountManager) : AccountManager :=
  fold_left (fun am c => snd (runCall c am)) cs am.

(** The document last handed to [fs.writeFile], or the loaded one while
    nothing has been written. *)
Definition onFile (loaded : gmap string TokenData) (am : AccountManager)
  : gmap string TokenData :=
  default loaded (head (fileWrites am)).

(** The symbols of a list of pairs. *)
Definition symbolsOf (pairs : list Pair) : list string := map symbol pairs.

(** The position of [symbol] of [accountName] in a document. *)
Definition positionIn (data : gmap string TokenData) (accountName symbol : string)
  : option Position :=
  match data !! accountName with
  | Some td => positions td !! symbol
  | None => None
  end.

(** The file holds what memory holds. *)
Definition inSync (loaded : gmap string TokenData) (am : AccountManager) : Prop :=
  onFile loaded am = accountData am.

(** A list of pairs whose symbols are ordinary names. *)
Definition ordinaryPairs (pairs : list Pair) : bool :=
  forallb (fun p => ordinaryName (symbol p)) pairs.

(** A call whose account names, tokens and symbols are ordinary names. *)
Definition ordinaryCall (c : StoreCall) : bool :=
  match c with
  | CallInitialize accountName pairs => ordinaryName accountName && ordinaryPairs pairs
  | CallInitializeTokens tokens pairs =>
      forallb ordinaryName tokens && ordinaryPairs pairs
  | CallUpdatePosition accountName symbol _
  | CallDeletePosition accountName symbol =>
      ordinaryName accountName && ordinaryName symbol
  | CallDeleteAccount accountName => ordinaryName accountName
  end.

(** ** The feed over a series of closed candles *)

(** The feed after a series of closed candles, each handled by a run of the
    message handler of its own, whether that run returned or threw. *)
Definition afterClosedCandles (config : Config) (messages : list (string * Candle))
    (f : Feed) : Feed :=
  fold_left (fun f m => snd (onClosedCandle config (fst m) (snd m) f)) messages f.

(** The candles of one symbol among the messages, in arrival order. *)
Definition candlesFor (symbol_ : string) (messages : list (string * Candle))
  : list Candle :=
  map snd (List.filter (fun m => String.eqb (fst m) symbol_) messages).

(** Every configured token has a position for the symbol. *)
Definition tokensKnow (config : Config) (symbol_ : string) (am : AccountManager) : Prop :=
  Forall (fun a => is_Some (AccountManager.getPositionData a symbol_ am)) (tokens config).

(** ** Configuration lookups *)

(** [config.pairs.find((pair) => pair.symbol === symbol)], the lookup of the
    detector. *)
Definition findPair (symbol_ : string) (pairs : list Pair) : option Pair :=
  find (fun p => String.eqb (symbol p) symbol_) pairs.

(** Entries that never decrease, or never increase, along the array. *)
(** ** What the engines write *)

(** The patch [calculateTriggers] writes. *)
Definition ladderPatch (ts ss : list Q) (d : TriggerSide) : PositionUpdates :=
  {| new_status := None; new_entry_price := None;
     new_triggers := Some ts; new_stop_prices := Some ss;
     new_trigger_side := Some (Some d);
     new_lock_close_price := None; new_movement_threshold := None;
     new_is_placing_stop_loss_running := None |}.

(** Positions that differ at most in the ladder: [triggers], [stop_prices]
    and [trigger_side]. *)
Definition sameButLadder (p p' : Position) : Prop :=
  status p' = status p
  /\ entry_price p' = entry_price p
  /\ lock_close_price p' = lock_close_price p
  /\ movement_threshold p' = movement_threshold p
  /\ is_placing_stop_loss_running p' = is_placing_stop_loss_running p.

(** A patch that leaves everything but the ladder alone. *)
Definition ladderOnly (u : PositionUpdates) : Prop :=
  new_status u = None /\ new_entry_price u = None
  /\ new_lock_close_price u = None /\ new_movement_threshold u = None
  /\ new_is_placing_stop_loss_running u = None.

(** What has become of the position [o] read at [(a, s)] before a run that
    writes to [(accountName, symbol)] only, and only to the ladder. *)
Definition ladderWrittenAt (accountName symbol_ a s : string) (o : option Position)
    (am : AccountManager) : Prop :=
  match o with
  | Some p =>
      exists p', AccountManager.getPositionData a s am = Some p'
                 /\ sameButLadder p p'
                 /\ (~ (a = accountName /\ s = symbol_) -> p' = p)
  | None => AccountManager.getPositionData a s am = None
  end.

(** The store after the runner's single write. *)
Definition ladderAdvanced (accountName symbol_ : string) (p : Position)
    (am : AccountManager) : AccountManager :=
  snd (AccountManager.updatePosition accountName symbol_
         (ladderUpdates (drop 1 (triggers p)) (drop 1 (stop_prices p))) am).

(** The world with the runner's lock written. *)
Definition withProcessing {G} (key : string) (b : bool) (w : World G) : World G :=
  {| accountManager := accountManager w;
     processingTriggers := <[key := b]> (processingTriggers w);
     gateway := gateway w |}.

(** The separator of a lock key. *)
Definition hyphen : Ascii.ascii :=
  match "-"%string with
  | String c _ => c
  | EmptyString => Ascii.zero
  end.

(** Whether a hyphen occurs in a string. *)
Fixpoint containsHyphen (s : string) : bool :=
  match s with
  | EmptyString => false
  | String c rest => Ascii.eqb c hyphen || containsHyphen rest
  end.

(** ** Reconciliation *)

(** The position a report of an open position leaves behind. *)
Definition openedPosition (prior : Position) (entry : Q) : Position :=
  {| status := true; entry_price := Some entry;
     triggers := triggers prior; stop_prices := stop_prices prior;
     trigger_side := trigger_side prior;
     lock_close_price := lock_close_price prior;
     movement_threshold := movement_threshold prior;
     is_placing_stop_loss_running := is_placing_stop_loss_running prior |}.

(** ** The order methods *)

(** [this.positionLocks[symbol]] read as a condition. *)
Definition lockHeld (symbol : string) (g : Gateway) : bool :=
  default false (positionLocks g !! symbol).

(** Requests of one kind. *)
Definition isBatch (rq : Request) : bool :=
  match rq with SubmitMultipleOrders _ => true | _ => false end.

Definition isInfoRequest (rq : Request) : bool :=
  match rq with GetExchangeInfo => true | _ => false end.

(** What the two queries of [inExistingPosition] must show for it to answer
    [false]. *)
Definition flatPositions (ps : list ExchangePosition) : Prop :=
  existsb (fun pos => TradeManager.nonZero (positionAmt pos)) ps = false.

Definition noMarketOrder (os : list OpenOrder) : Prop :=
  existsb (fun o => bool_decide (open_type o = MARKET)) os = false.

(** The replies still to come contain, next to each other, a positions
    answer and an open-orders answer that show nothing. *)
Definition cleanCheckIn (answers : list Reply) : Prop :=
  exists consumed ps os rest,
    answers = consumed ++ Positions ps :: OpenOrders os :: rest
    /\ flatPositions ps /\ noMarketOrder os.

(** The market order [closePosition] sends for one exchange position. *)
Definition closingOrder (symbol : string) (pos : ExchangePosition)
    (quantityPrecision : nat) : OrderParams :=
  {| order_symbol := symbol;
     order_side := if Number.gtb (positionAmt pos) 0 then SELL else BUY;
     order_type := MARKET;
     order_quantity :=
       Some (TradeManager.roundToPrecision (Qabs (positionAmt pos)) quantityPrecision);
     order_stopPrice := None;
     order_positionSide := positionSide pos;
     order_closePosition := false |}.

(** The two orders of the entry batch. *)
Definition entryOrder (symbol : string) (side : OrderSide) (quantity : Q)
  : OrderParams :=
  {| order_symbol := toUpperCase symbol;
     order_side := side;
     order_type := MARKET;
     order_quantity := Some quantity;
     order_stopPrice := None;
     order_positionSide := TradeManager.positionSideOf side;
     order_closePosition := false |}.

Definition stopLossOrder (symbol : string) (side : OrderSide) (stopPrice : Q)
  : OrderParams :=
  {| order_symbol := toUpperCase symbol;
     order_side := TradeManager.opposite side;
     order_type := STOP_MARKET;
     order_quantity := None;
     order_stopPrice := Some stopPrice;
     order_positionSide := TradeManager.positionSideOf side;
     order_closePosition := true |}.

(** From a starting gateway [g]: the cache holds [info], the journal extends
    that of [g], and no exchange-information request was added. *)
Definition cachedAndSilent (info : list SymbolInfo) (g g' : Gateway) : Prop :=
  exchangeInfo g' = Some info
  /\ exists new, requests g' = requests g ++ new
                 /\ existsb isInfoRequest new = false.

(** From a starting gateway [g]: the replies left are a suffix of those of
    [g], the journal extends that of [g], and a batch has been sent only if
    the replies of [g] hold a clean check. *)
Definition batchOnlyWhenClean (g g' : Gateway) : Prop :=
  (exists consumed, replies g = consumed ++ replies g')
  /\ exists new, requests g' = requests g ++ new
                 /\ (existsb isBatch new = true -> cleanCheckIn (replies g)).

(** ** Collaborators that record what they are asked, on doubles *)

(** What [updatePosition] was asked to lock, oldest first. *)
Definition Locked : Type := string * string * PrimFloat.float * PrimFloat.float.

(** A store that only records the locks it is asked for. *)
Definition recordLock (token symbol_ : string) (lockPrice movement : PrimFloat.float)
  : Eff (list Locked) unit :=
  Eff.modify (fun asked => asked ++ [(token, symbol_, lockPrice, movement)]).

(** What [placePositionWithStopLoss] was asked on doubles: side, amount and
    protective stop. *)
Definition Entry : Type := OrderSide * PrimFloat.float * PrimFloat.float.

Definition recordEntry (response : OrderResult) (symbol_ : string) (side : OrderSide)
    (usdtAmount stopLossPrice : PrimFloat.float) : Eff (list Entry) OrderResult :=
  fun asked => (Returned response, asked ++ [(side, usdtAmount, stopLossPrice)]).

(** The ladder [updatePosition] was asked to store: triggers, stop prices
    and direction. *)
Definition StoredLadder : Type :=
  list PrimFloat.float * list PrimFloat.float * TriggerSide.

Definition recordLadder (accountName symbol_ : string)
    (triggers stopPrices : list PrimFloat.float) (direction : TriggerSide)
  : Eff (list StoredLadder) unit :=
  Eff.modify (fun asked => asked ++ [(triggers, stopPrices, direction)]).

(** * Scenario data

    The concrete stores, candles and exchange replies of the scenarios. *)

(** A one-minute candle opening at [t] that moves from [o] to [c]. *)
Definition candleAt (t : Z) (o c : Q) : Candle :=
  {| openTime := t; open := o; high := Qmax o c; low := Qmin o c; close := c;
     volume := 1; closeTime := (t + 59999)%Z |}.

(** An open long position part of the way up its ladder. *)
Definition midLadder : Position :=
  {| status := true; entry_price := Some 0.5;
     triggers := [0.515; 0.52; 0.525];
     stop_prices := [0.51099866; 0.51661965; 0.52230246];
     trigger_side := Some long; lock_close_price := Some 0.495;
     movement_threshold := Some 1; is_placing_stop_loss_running := false |}.

Definition storeWith (accountName symbol : string) (p : Position) : AccountManager :=
  {| accountData := {[ accountName := {| positions := {[ symbol := p ]} |} ]};
     fileWrites := [] |}.

(** The pair and configuration of the repository's test. *)
Definition xrp : Pair :=
  {| symbol := "XRPUSDT"; threshold := 1; fees_exemption_percentage := 0.1;
     num_previous_candles := 5; usdt_amount := 100 |}.

Definition testConfig : Config := {| tokens := ["main"]; pairs := [xrp] |}.

(** The position the test prepares before it computes the ladder. *)
Definition enteredLong : Position :=
  {| status := true; entry_price := Some 0.5; triggers := []; stop_prices := [];
     trigger_side := Some long; lock_close_price := None;
     movement_threshold := Some 1; is_placing_stop_loss_running := false |}.

(** A quiet candle followed by a jump. *)
Definition quiet : Candle := candleAt 0 100 100.5.
Definition jump : Candle := candleAt 60000 100 101.

Definition twoAccountConfig : Config := {| tokens := ["main"; "second"]; pairs := [xrp] |}.

(** Account [main] holds an open long, account [second] is idle. *)
Definition twoAccounts : AccountManager :=
  {| accountData :=
       {[ "main" := {| positions := {[ "XRPUSDT" := midLadder ]} |};
          "second" := {| positions := {[ "XRPUSDT" := AccountManager.initialPosition ]} |} ]};
     fileWrites := [] |}.

(** An armed position: a lock price and a movement threshold, no entry yet. *)
Definition armedAt (L m : Q) : Position :=
  {| status := false; entry_price := None; triggers := []; stop_prices := [];
     trigger_side := None; lock_close_price := Some L;
     movement_threshold := Some m; is_placing_stop_loss_running := false |}.

Definition recorderWorld (am : AccountManager) : World Recorder :=
  {| accountManager := am; processingTriggers := ∅;
     gateway := {| asked := []; entryAnswer := {| success := true; error := None |};
                   trailAnswers := [] |} |}.

(** A candle that did not move at all. *)
Definition flat : Candle := candleAt 0 100 100.

(** An exchange that knows the symbol, reports no position and no open
    order, and accepts both orders of the batch. *)
Definition xrpInfo : SymbolInfo :=
  {| info_symbol := "XRPUSDT"; pricePrecision := 4; quantityPrecision := 1 |}.

Definition acceptingReplies : list Reply :=
  [ExchangeInfo [xrpInfo]; Positions []; OpenOrders [];
   OrderAnswers [NewOrderResult 1; NewOrderResult 2]].

Definition gatewayWith (answers : list Reply) : Gateway :=
  {| positionLocks := ∅; exchangeInfo := None; replies := answers; requests := [] |}.

Definition liveWorld (am : AccountManager) (answers : list Reply) : World Gateway :=
  {| accountManager := am; processingTriggers := ∅; gateway := gatewayWith answers |}.

(** Replies that would let a second attempt succeed, after a first request
    that times out. *)
Definition timeoutThenFine : list Reply :=
  [Rejects "timeout"; OpenOrders []; ExchangeInfo [xrpInfo]; Cancelled; OrderPlaced 7].

Definition emptyStore : AccountManager := {| accountData := ∅; fileWrites := [] |}.

(** A session from an empty store: initialization, a detector run that arms,
    an entry tick that opens a long and computes the ladder, the account
    update that reports the fill, and a tick that crosses the first trigger. *)
Definition session : list Operation :=
  [Initialize "main" [xrp];
   DetectorRun {[ "XRPUSDT" := [quiet] ]} "XRPUSDT" jump;
   EntryTick "main" "XRPUSDT" 102;
   AccountUpdate "main" [{| TradeManager.updated_symbol := "XRPUSDT";
                            TradeManager.positionAmount := 1;
                            TradeManager.entryPrice := 102 |}];
   TriggerTick "main" "XRPUSDT" 102.3].

Definition sessionReplies : list Reply :=
  acceptingReplies ++ [OpenOrders []; Cancelled; OrderPlaced 3].

(** ** Further scenarios *)

(** A pair whose look-back is zero candles. *)
Definition wholeHistory : Pair :=
  {| symbol := "XRPUSDT"; threshold := 1; fees_exemption_percentage := 0.1;
     num_previous_candles := 0; usdt_amount := 100 |}.

Definition wholeHistoryConfig : Config := {| tokens := ["main"]; pairs := [wholeHistory] |}.

(** A configuration that names an account the store does not hold, between
    two that it holds. *)
Definition ghostConfig : Config :=
  {| tokens := ["main"; "ghost"; "second"]; pairs := [xrp] |}.

(** The feed at start-up when the initial fetch brought nothing, and the feed
    with one candle of history and an initialised account. *)
Definition emptyFeed : Feed :=
  {| feedAccounts := emptyStore; symbolCandles := initialSymbolCandles testConfig |}.

Definition quietFeed : Feed :=
  {| feedAccounts := storeWith "main" "XRPUSDT" AccountManager.initialPosition;
     symbolCandles := {[ "XRPUSDT" := [quiet] ]} |}.

(** Reports of an account update: a fill, a flat position, and a symbol the
    store does not hold. *)
Definition fillReport : TradeManager.UpdatedPosition :=
  {| TradeManager.updated_symbol := "XRPUSDT"; TradeManager.positionAmount := 1;
     TradeManager.entryPrice := 102 |}.

Definition flatReport : TradeManager.UpdatedPosition :=
  {| TradeManager.updated_symbol := "XRPUSDT"; TradeManager.positionAmount := 0;
     TradeManager.entryPrice := 0 |}.

Definition strayReport : TradeManager.UpdatedPosition :=
  {| TradeManager.updated_symbol := "BTCUSDT"; TradeManager.positionAmount := 1;
     TradeManager.entryPrice := 50000 |}.

(** A gateway that has the exchange information already. *)
Definition cachedGateway (answers : list Reply) : Gateway :=
  {| positionLocks := ∅; exchangeInfo := Some [xrpInfo]; replies := answers;
     requests := [] |}.

Definition openLong : ExchangePosition := {| positionAmt := 1; positionSide := LONG |}.

(** A clean check, an accepted entry with a rejected stop, then the position
    the entry opened and the answer to its closing order. *)
Definition rejectedStopReplies : list Reply :=
  [Positions []; OpenOrders [];
   OrderAnswers [NewOrderResult 1; NewOrderError (-2021)];
   Positions [openLong]; OrderPlaced 9].

(** The old stops are cancelled, the new stop times out. *)
Definition cancelledThenTimeout : list Reply :=
  [OpenOrders []; Cancelled; Rejects "timeout"].

(** Replies that let a stop replacement go through. *)
Definition placingReplies : list Reply :=
  [OpenOrders []; ExchangeInfo [xrpInfo]; Cancelled; OrderPlaced 7].

(** ** Scenarios on doubles *)

(** Entry price 0.5, movement threshold 0.25 and fees exemption 0.5: each is
    a double. *)
Definition tieEntry : PrimFloat.float := Binary64.decimal 5 1.
Definition tieThreshold : PrimFloat.float := Binary64.decimal 25 2.
Definition tieFees : PrimFloat.float := Binary64.decimal 5 1.

Definition candle64 (o c : PrimFloat.float) : Doubles.Candle :=
  {| Doubles.openTime := 0; Doubles.open := o; Doubles.high := c;
     Doubles.low := o; Doubles.close := c; Doubles.volume := Binary64.ofZ 0;
     Doubles.closeTime := 0 |}.

Definition xrp64 : Doubles.Pair :=
  {| Doubles.symbol := "XRPUSDT"; Doubles.threshold := Binary64.ofZ 1;
     Doubles.fees_exemption_percentage := Binary64.decimal 1 1;
     Doubles.num_previous_candles := 1; Doubles.usdt_amount := Binary64.ofZ 10 |}.

(** One stored candle from 0.4802 to 0.49, judged candle from 0.49 to 0.5:
    both moved by one forty-ninth of their open. *)
Definition evenHistory64 : gmap string (list Doubles.Candle) :=
  {[ "XRPUSDT" := [candle64 (Binary64.decimal 4802 4) (Binary64.decimal 49 2)] ]}.
Definition evenCandle64 : Doubles.Candle :=
  candle64 (Binary64.decimal 49 2) (Binary64.decimal 5 1).

Definition armed64 : Doubles.Position :=
  {| Doubles.status := false; Doubles.entry_price := None;
     Doubles.lock_close_price := Some (Binary64.decimal 11 1);
     Doubles.movement_threshold := Some (Binary64.ofZ 1) |}.

Definition accepted : OrderResult := {| success := true; error := None |}.

(** The position of scenario S1: entered at 0.5 with movement threshold 1. *)
Definition entered64 : Doubles.Position :=
  {| Doubles.status := true; Doubles.entry_price := Some (Binary64.decimal 5 1);
     Doubles.lock_close_price := None;
     Doubles.movement_threshold := Some (Binary64.ofZ 1) |}.

(** * Properties *)

(** ** The account store *)

Section AccountStore.
Implicit Types (am : AccountManager) (p : Position) (u : PositionUpdates).

Lemma getPositionData_Some accountName symbol am p :
  AccountManager.getPositionData accountName symbol am = Some p <->
  exists account,
    accountData am !! accountName = Some account /\
    positions account !! symbol = Some p.
Proof.
  unfold AccountManager.getPositionData, AccountManager.getAccountData.
  destruct (accountData am !! accountName) as [account|]; split.
  - intros H. exists account. auto.
  - intros (account' & Ha & Hp). congruence.
  - discriminate.
  - intros (account' & Ha & _). discriminate.
Qed.

Lemma updatePosition_missing accountName symbol u am :
  AccountManager.getPositionData accountName symbol am = None ->
  exists e, AccountManager.updatePosition accountName symbol u am = (Thrown e, am).
Proof.
  unfold AccountManager.getPositionData, AccountManager.getAccountData,
    AccountManager.updatePosition, Eff.bind, Eff.get, Eff.throw.
  destruct (accountData am !! accountName) as [account|]; [|eauto].
  intros ->. eauto.
Qed.

Lemma updatePosition_present accountName symbol u am account p :
  accountData am !! accountName = Some account ->
  positions account !! symbol = Some p ->
  AccountManager.updatePosition accountName symbol u am
  = (Returned tt, stored accountName symbol (spread p u) account am).
Proof.
  intros Ha Hp.
  unfold AccountManager.updatePosition, Eff.bind, Eff.get. cbn.
  rewrite Ha, Hp. reflexivity.
Qed.

Lemma getPositionData_stored accountName symbol p account am a s :
  accountData am !! accountName = Some account ->
  AccountManager.getPositionData a s (stored accountName symbol p account am)
  = if decide (a = accountName /\ s = symbol) then Some p
    else AccountManager.getPositionData a s am.
Proof.
  intros Ha.
  unfold AccountManager.getPositionData, AccountManager.getAccountData, stored.
  cbn. destruct (decide (a = accountName)) as [->|Hne].
  - rewrite lookup_insert_eq. cbn.
    destruct (decide (s = symbol)) as [->|Hs].
    + rewrite lookup_insert_eq. rewrite decide_True; auto.
    + rewrite lookup_insert_ne by auto. rewrite Ha.
      rewrite decide_False; [reflexivity | intros [_ ?]; auto].
  - rewrite lookup_insert_ne by auto.
    rewrite decide_False; [reflexivity | intros [? _]; auto].
Qed.

Lemma merged_default {A} (old : A) (patch : option A) :
  merged old patch (default old patch).
Proof. destruct patch; reflexivity. Qed.

Lemma spread_patched p u : patched p u (spread p u).
Proof. repeat split; apply merged_default. Qed.

End AccountStore.

(** For an account name and a symbol that are ordinary names,
    [updatePosition] throws when the stored account data does not hold them
    and leaves the manager exactly as it was (in-memory data and file writes
    alike); when both exist it returns, the position read back has exactly
    the patch's fields replaced and every other field retained, every other
    position reads as before, and the document is written through once. *)
Lemma updatePosition_atomic_or_merged
    (accountName symbol : string) (updates : PositionUpdates) (am : AccountManager) :
  ordinaryName accountName = true ->
  ordinaryName symbol = true ->
  match AccountManager.getPositionData accountName symbol am with
  | None =>
      exists e,
        AccountManager.updatePosition accountName symbol updates am = (Thrown e, am)
  | Some position =>
      exists am' position',
        AccountManager.updatePosition accountName symbol updates am = (Returned tt, am')
        /\ AccountManager.getPositionData accountName symbol am' = Some position'
        /\ patched position updates position'
        /\ (forall a s, ~ (a = accountName /\ s = symbol) ->
              AccountManager.getPositionData a s am'
              = AccountManager.getPositionData a s am)
        /\ fileWrites am' = accountData am' :: fileWrites am
  end.
Proof.
  intros _ _.
  destruct (AccountManager.getPositionData accountName symbol am) as [position|] eqn:Hget.
  - apply getPositionData_Some in Hget as (account & Ha & Hp).
    exists (stored accountName symbol (spread position updates) account am),
           (spread position updates).
    split; [apply updatePosition_present; assumption|].
    split; [rewrite getPositionData_stored by assumption; rewrite decide_True; auto|].
    split; [apply spread_patched|].
    split; [|reflexivity].
    intros a s Hne. rewrite getPositionData_stored by assumption.
    rewrite decide_False; auto.
  - apply updatePosition_missing. assumption.
Qed.

(** ** The candle history *)

Lemma chronological_tail candles :
  chronological candles -> chronological (tail candles).
Proof. destruct candles as [|c rest]; cbn; [auto | intros [_ H]; exact H]. Qed.

Lemma chronological_snoc candles candle :
  chronological candles ->
  (forall newest, last candles = Some newest ->
                  (openTime newest < openTime candle)%Z) ->
  chronological (candles ++ [candle]).
Proof.
  induction candles as [|c rest IH]; intros Hchr Hlast; [cbn; auto|].
  destruct rest as [|c' rest'].
  - cbn. split; [|auto]. apply Hlast. reflexivity.
  - destruct Hchr as [Hlt Hrest]. split; [exact Hlt|].
    apply IH; [exact Hrest|].
    intros newest Hn. apply Hlast. rewrite last_cons_cons. exact Hn.
Qed.

Lemma last_tail_two {A} (x y : A) (rest : list A) :
  last (tail (x :: y :: rest)) = last (x :: y :: rest).
Proof. cbn [tail]. rewrite last_cons_cons. reflexivity. Qed.

(** C4, as the code has it.  [addCandleToQueue] always puts the candle at the
    end, after dropping the oldest entry when the history has reached
    [maxLength]; it never replaces the last entry.  So a history of at most
    20 entries has at most 20 after the call, and a chronological history
    stays chronological when the incoming candle opens after its last
    entry. *)
Theorem addCandleToQueue_appends (candles : list Candle) (candle : Candle) :
  addCandleToQueue candles candle defaultMaxLength
  = (if (defaultMaxLength <=? length candles)%nat then tail candles else candles)
    ++ [candle]
  /\ last (addCandleToQueue candles candle defaultMaxLength) = Some candle
  /\ ((length candles <= defaultMaxLength)%nat ->
      (length (addCandleToQueue candles candle defaultMaxLength)
       <= defaultMaxLength)%nat)
  /\ (chronological candles ->
      (forall newest, last candles = Some newest ->
                      (openTime newest < openTime candle)%Z) ->
      chronological (addCandleToQueue candles candle defaultMaxLength)).
Proof.
  unfold addCandleToQueue, defaultMaxLength.
  split; [reflexivity|].
  split; [apply last_snoc|].
  split.
  - intros Hlen. rewrite length_app. cbn [length].
    destruct (20 <=? length candles)%nat eqn:Hfull.
    + apply Nat.leb_le in Hfull.
      destruct candles as [|c rest]; cbn [tail length] in *; lia.
    + apply Nat.leb_gt in Hfull. lia.
  - intros Hchr Hlast.
    destruct (20 <=? length candles)%nat eqn:Hfull.
    + apply chronological_snoc; [apply chronological_tail; exact Hchr|].
      intros newest Hn. apply Hlast.
      destruct candles as [|c [|c' rest]]; [exact Hn | discriminate Hfull |].
      rewrite last_tail_two in Hn. exact Hn.
    + apply chronological_snoc; assumption.
Qed.

(** C4, the claim as worded fails: a second report of the candle that is
    already last in the history is appended, not written over the last
    entry, and the history is then no longer strictly ordered. *)
Lemma addCandleToQueue_keeps_late_update :
  let history := [candleAt 60000 100 101] in
  let late := candleAt 60000 100 102 in
  chronological history
  /\ addCandleToQueue history late defaultMaxLength
     = [candleAt 60000 100 101; candleAt 60000 100 102]
  /\ appendAsSpecified history late defaultMaxLength = [candleAt 60000 100 102]
  /\ ~ chronological (addCandleToQueue history late defaultMaxLength).
Proof.
  cbn. repeat split; auto.
  intros [Hlt _]. lia.
Qed.

Lemma addCandleToQueue_appends_witness :
  let history := [candleAt 0 100 101; candleAt 60000 101 102] in
  let next := candleAt 120000 102 103 in
  (length (addCandleToQueue history next defaultMaxLength) <= defaultMaxLength)%nat
  /\ chronological (addCandleToQueue history next defaultMaxLength).
Proof.
  intros history next.
  destruct (addCandleToQueue_appends history next) as (_ & _ & Hlen & Hchr).
  split.
  - apply Hlen. unfold defaultMaxLength. cbn. lia.
  - apply Hchr.
    + cbn. repeat split; lia.
    + intros newest Hn. cbn in Hn. injection Hn as <-. cbn. lia.
Defined.

(** ** The account store and the names every object inherits *)

Section InheritedNames.
Implicit Types (am : AccountManager) (p : Position) (u : PositionUpdates).

Lemma member_own {V} (object : gmap string V) (key : string) (value : V) :
  object !! key = Some value -> ObjectStore.member object key = ObjectStore.Own value.
Proof. intros H. unfold ObjectStore.member. rewrite H. reflexivity. Qed.

Lemma member_ordinary {V} (object : gmap string V) (key : string) :
  ordinaryName key = true -> object !! key = None ->
  ObjectStore.member object key = ObjectStore.Undefined.
Proof.
  unfold ordinaryName, ObjectStore.member. intros Hk ->.
  apply negb_true_iff in Hk. cbn [existsb] in Hk.
  apply orb_false_iff in Hk as [Hp Hm]. rewrite Hm, Hp. reflexivity.
Qed.

Lemma member_method {V} (object : gmap string V) (key : string) :
  key ∈ objectPrototypeMethods -> object !! key = None ->
  ObjectStore.member object key = ObjectStore.Method.
Proof.
  unfold ObjectStore.member. intros Hk ->.
  assert (Hex : existsb (String.eqb key) objectPrototypeMethods = true).
  { apply existsb_exists. exists key. split.
    - apply list_elem_of_In. exact Hk.
    - apply String.eqb_refl. }
  rewrite Hex. reflexivity.
Qed.

Lemma spreadObject_empty u : ObjectStore.spreadObject ObjectStore.emptyObject u = u.
Proof.
  destruct u as [[] [] [] [] [] [] [] []]; reflexivity.
Qed.

Lemma spreadObject_asObject p u :
  ObjectStore.spreadObject (ObjectStore.asObject p) u = ObjectStore.asObject (spread p u).
Proof.
  destruct u as [[] [] [] [] [] [] [] []]; reflexivity.
Qed.

Lemma documentObjects_lookup (data : gmap string TokenData) (accountName : string) :
  documentObjects data !! accountName
  = (fun account => ObjectStore.asObject <$> positions account) <$> data !! accountName.
Proof. unfold documentObjects. apply lookup_fmap. Qed.

(** On ordinary names the two models of [updatePosition] agree. *)
Lemma updatePosition_on_ordinary_names accountName symbol u am :
  ordinaryName accountName = true ->
  ordinaryName symbol = true ->
  ObjectStore.updatePosition accountName symbol u (managerObjects am)
  = Some (fst (AccountManager.updatePosition accountName symbol u am),
          managerObjects (snd (AccountManager.updatePosition accountName symbol u am))).
Proof.
  intros Ha Hs.
  unfold ObjectStore.updatePosition, AccountManager.updatePosition, Eff.bind, Eff.get.
  cbn [managerObjects ObjectStore.accountData].
  destruct (accountData am !! accountName) as [account|] eqn:Hacc.
  - rewrite (member_own _ _ (ObjectStore.asObject <$> positions account))
      by (rewrite documentObjects_lookup, Hacc; reflexivity).
    destruct (positions account !! symbol) as [p|] eqn:Hp.
    + rewrite (member_own _ _ (ObjectStore.asObject p))
        by (rewrite lookup_fmap, Hp; reflexivity).
      cbn. unfold ObjectStore.assigned, managerObjects. cbn.
      rewrite spreadObject_asObject.
      unfold documentObjects. rewrite fmap_insert. cbn [positions].
      rewrite fmap_insert. reflexivity.
    + rewrite member_ordinary by (try exact Hs; rewrite lookup_fmap, Hp; reflexivity).
      reflexivity.
  - rewrite member_ordinary
      by (try exact Ha; rewrite documentObjects_lookup, Hacc; reflexivity).
    reflexivity.
Qed.
End InheritedNames.

(** C10, the code at a failing input.  The guards of [updatePosition] test
    [this.accountData[accountName].positions[symbol]] for truthiness, and for
    a symbol that names a method every object inherits ([constructor],
    [toString], ...) the lookup gives that function.  For such a symbol that
    the account holds no position for, [updatePosition] does not throw: it
    stores the patch alone as the position of that symbol and writes the
    document. *)
Theorem updatePosition_takes_an_inherited_method_for_a_position
    (accountName symbol : string) (updates : PositionUpdates)
    (m : ObjectStore.Manager) (positions : gmap string ObjectStore.PositionObject) :
  ObjectStore.accountData m !! accountName = Some positions ->
  positions !! symbol = None ->
  symbol ∈ objectPrototypeMethods ->
  let data := <[accountName := <[symbol := updates]> positions]>
                (ObjectStore.accountData m) in
  ObjectStore.updatePosition accountName symbol updates m
  = Some (Returned tt,
          {| ObjectStore.accountData := data;
             ObjectStore.fileWrites := data :: ObjectStore.fileWrites m |}).
Proof.
  intros Ha Hp Hs data. unfold ObjectStore.updatePosition.
  rewrite (member_own _ _ _ Ha), (member_method _ _ Hs Hp).
  unfold ObjectStore.assigned. rewrite spreadObject_empty. reflexivity.
Qed.

(** Account [main] holds a position for XRPUSDT only; [updatePosition] for
    the symbol [constructor] returns and leaves a second entry. *)
Lemma updatePosition_takes_an_inherited_method_for_a_position_witness :
  AccountManager.getPositionData "main" "constructor"
    (storeWith "main" "XRPUSDT" midLadder) = None
  /\ exists m',
       ObjectStore.updatePosition "main" "constructor" TradeManager.clearedUpdates
         (managerObjects (storeWith "main" "XRPUSDT" midLadder))
       = Some (Returned tt, m')
       /\ ObjectStore.accountData m' !! "main"
          = Some {[ "XRPUSDT" := ObjectStore.asObject midLadder;
                    "constructor" := TradeManager.clearedUpdates ]}
       /\ ObjectStore.fileWrites m' = [ObjectStore.accountData m'].
Proof.
  split; [vm_compute; reflexivity|].
  eexists. split.
  - apply (updatePosition_takes_an_inherited_method_for_a_position
             "main" "constructor" TradeManager.clearedUpdates
             (managerObjects (storeWith "main" "XRPUSDT" midLadder))
             {[ "XRPUSDT" := ObjectStore.asObject midLadder ]}).
    + vm_compute. reflexivity.
    + vm_compute. reflexivity.
    + unfold objectPrototypeMethods. apply list_elem_of_here.
  - split; [|reflexivity]. vm_compute. reflexivity.
Defined.

(** ** Reconciliation from the user stream *)

Lemma forOf_app {S A} (xs ys : list A) (body : A -> Eff S unit) (s : S) :
  Eff.forOf (xs ++ ys) body s
  = match Eff.forOf xs body s with
    | (Returned _, s') => Eff.forOf ys body s'
    | (Thrown e, s') => (Thrown e, s')
    end.
Proof.
  revert s. induction xs as [|x xs IH]; intros s; [reflexivity|].
  cbn. unfold Eff.bind. destruct (body x s) as [[[]|e] s']; [apply IH | reflexivity].
Qed.

Lemma handleAccountUpdate_one accountName report am prior :
  AccountManager.getPositionData accountName (TradeManager.updated_symbol report) am
  = Some prior ->
  exists am',
    TradeManager.handleAccountUpdate accountName [report] am = (Returned tt, am')
    /\ AccountManager.getPositionData accountName (TradeManager.updated_symbol report) am'
       = Some (if Qeq_bool (TradeManager.positionAmount report) 0
               then clearedPosition prior
               else spread prior (TradeManager.openedUpdates
                                    (TradeManager.entryPrice report)))
    /\ (forall a s, ~ (a = accountName /\ s = TradeManager.updated_symbol report) ->
          AccountManager.getPositionData a s am'
          = AccountManager.getPositionData a s am).
Proof.
  intros Hget. apply getPositionData_Some in Hget as (account & Ha & Hp).
  unfold TradeManager.handleAccountUpdate. cbn [Eff.forOf]. unfold Eff.bind.
  destruct (Qeq_bool (TradeManager.positionAmount report) 0);
    rewrite (updatePosition_present _ _ _ _ _ _ Ha Hp); cbn;
    eexists; (split; [reflexivity|]); split;
    try (rewrite getPositionData_stored by assumption;
         rewrite decide_True; auto; reflexivity);
    intros a s Hne; rewrite getPositionData_stored by assumption;
    rewrite decide_False; auto.
Qed.

Lemma handleAccountUpdate_all accountName reports am :
  Forall (knows accountName am) reports ->
  exists am',
    TradeManager.handleAccountUpdate accountName reports am = (Returned tt, am')
    /\ (forall a s,
          (a = accountName -> Forall (fun r => TradeManager.updated_symbol r <> s) reports) ->
          AccountManager.getPositionData a s am'
          = AccountManager.getPositionData a s am)
    /\ (forall s p, AccountManager.getPositionData accountName s am = Some p ->
          exists p', AccountManager.getPositionData accountName s am' = Some p'
                     /\ is_placing_stop_loss_running p'
                        = is_placing_stop_loss_running p).
Proof.
  revert am. induction reports as [|r rest IH]; intros am Hall.
  - exists am. cbn. split; [reflexivity|]. split; [reflexivity | eauto].
  - apply Forall_cons in Hall as [[prior Hr] Hrest].
    destruct (handleAccountUpdate_one accountName r am prior Hr)
      as (am1 & Hrun1 & Hat1 & Hframe1).
    assert (Hflag1 : forall s p,
               AccountManager.getPositionData accountName s am = Some p ->
               exists p', AccountManager.getPositionData accountName s am1 = Some p'
                          /\ is_placing_stop_loss_running p'
                             = is_placing_stop_loss_running p).
    { intros s p Hs.
      destruct (decide (s = TradeManager.updated_symbol r)) as [->|Hne].
      - rewrite Hat1. rewrite Hr in Hs. injection Hs as <-.
        eexists. split; [reflexivity|].
        destruct (Qeq_bool _ 0); reflexivity.
      - exists p. split; [|reflexivity].
        rewrite Hframe1; [exact Hs | intros [_ ?]; auto]. }
    destruct (IH am1) as (am' & Hrun & Hframe & Hflag).
    { eapply Forall_impl; [exact Hrest|]. intros r' [p' Hp'].
      destruct (Hflag1 _ _ Hp') as (p'' & Hp'' & _). exists p''. exact Hp''. }
    exists am'. split; [|split].
    + change (r :: rest) with ([r] ++ rest).
      unfold TradeManager.handleAccountUpdate in *.
      rewrite forOf_app. rewrite Hrun1. exact Hrun.
    + intros a s Hs. rewrite Hframe.
      * apply Hframe1. intros [-> ->].
        specialize (Hs eq_refl). apply Forall_cons in Hs as [Hs _]. auto.
      * intros ->. specialize (Hs eq_refl). apply Forall_cons in Hs as [_ Hs]. exact Hs.
    + intros s p Hs. destruct (Hflag1 _ _ Hs) as (p1 & Hp1 & Hf1).
      destruct (Hflag _ _ Hp1) as (p' & Hp' & Hf'). exists p'. split; [exact Hp'|].
      congruence.
Qed.

(** When an account update carries, among reports for positions the
    store knows, a report with [positionAmount = 0] that is the last report
    for its symbol, the handler returns and that position is cleared:
    [status] false, [entry_price], [lock_close_price], [movement_threshold]
    and [trigger_side] null, [triggers] and [stop_prices] empty, whatever the
    position held before. *)
Lemma flat_report_clears_position
    (accountName : string) (earlier later : list TradeManager.UpdatedPosition)
    (report : TradeManager.UpdatedPosition) (am : AccountManager) (prior : Position) :
  Forall (knows accountName am) (earlier ++ report :: later) ->
  AccountManager.getPositionData accountName (TradeManager.updated_symbol report) am
  = Some prior ->
  TradeManager.positionAmount report == 0 ->
  Forall (fun r => TradeManager.updated_symbol r <> TradeManager.updated_symbol report)
         later ->
  exists am',
    TradeManager.handleAccountUpdate accountName (earlier ++ report :: later) am
    = (Returned tt, am')
    /\ AccountManager.getPositionData accountName (TradeManager.updated_symbol report) am'
       = Some (clearedPosition prior).
Proof.
  intros Hall Hprior Hzero Hlater.
  apply Forall_app in Hall as [Hearlier Hrest].
  apply Forall_cons in Hrest as [_ Hlater_known].
  destruct (handleAccountUpdate_all accountName earlier am Hearlier)
    as (am1 & Hrun1 & _ & Hflag1).
  destruct (Hflag1 _ _ Hprior) as (p1 & Hp1 & Hf1).
  destruct (handleAccountUpdate_one accountName report am1 p1 Hp1)
    as (am2 & Hrun2 & Hat2 & Hframe2).
  apply Qeq_bool_iff in Hzero. rewrite Hzero in Hat2.
  destruct (handleAccountUpdate_all accountName later am2) as (am3 & Hrun3 & Hframe3 & _).
  { eapply Forall_impl; [exact Hlater_known|]. intros r [p Hp].
    destruct (Hflag1 _ _ Hp) as (p' & Hp' & _).
    destruct (decide (TradeManager.updated_symbol r = TradeManager.updated_symbol report))
      as [Heq|Hne].
    - unfold knows. rewrite Heq, Hat2. eauto.
    - unfold knows. rewrite Hframe2; [eauto | intros [_ ?]; auto]. }
  exists am3. split.
  - unfold TradeManager.handleAccountUpdate in *.
    rewrite forOf_app, Hrun1.
    change (report :: later) with ([report] ++ later).
    rewrite forOf_app, Hrun2. exact Hrun3.
  - rewrite Hframe3 by (intros _; exact Hlater).
    rewrite Hat2. unfold clearedPosition. rewrite Hf1. reflexivity.
Qed.

Lemma flat_report_clears_position_witness :
  let report := {| TradeManager.updated_symbol := "XRPUSDT";
                   TradeManager.positionAmount := 0;
                   TradeManager.entryPrice := 0 |} in
  exists am',
    TradeManager.handleAccountUpdate "main" [report] (storeWith "main" "XRPUSDT" midLadder)
    = (Returned tt, am')
    /\ AccountManager.getPositionData "main" "XRPUSDT" am'
       = Some AccountManager.initialPosition.
Proof.
  intros report.
  apply (flat_report_clears_position "main" [] [] report
           (storeWith "main" "XRPUSDT" midLadder) midLadder).
  - repeat constructor. exists midLadder. vm_compute. reflexivity.
  - vm_compute. reflexivity.
  - reflexivity.
  - constructor.
Defined.

(** C8, the code at a failing input.  A report with [positionAmount = 0]
    that is handled alone clears its position.  When a report for a symbol
    the account holds no position for comes before it in the same account
    update, the handler throws at that report and drops the rest of the
    message: the flat report is not applied and the store, with the position
    it should have cleared, stays as it was. *)
Theorem flat_report_behind_an_unknown_symbol_is_dropped
    (accountName : string) (unknown report : TradeManager.UpdatedPosition)
    (between later : list TradeManager.UpdatedPosition)
    (am : AccountManager) (prior : Position) :
  AccountManager.getPositionData accountName (TradeManager.updated_symbol unknown) am
  = None ->
  AccountManager.getPositionData accountName (TradeManager.updated_symbol report) am
  = Some prior ->
  TradeManager.positionAmount report == 0 ->
  (exists am1,
     TradeManager.handleAccountUpdate accountName [report] am = (Returned tt, am1)
     /\ AccountManager.getPositionData accountName (TradeManager.updated_symbol report)
          am1
        = Some (clearedPosition prior))
  /\ exists e,
       TradeManager.handleAccountUpdate accountName
         (unknown :: between ++ report :: later) am
       = (Thrown e, am).
Proof.
  intros Hunknown Hprior Hzero. split.
  - destruct (handleAccountUpdate_one accountName report am prior Hprior)
      as (am1 & Hrun & Hat & _).
    apply Qeq_bool_iff in Hzero. rewrite Hzero in Hat.
    exists am1. split; [exact Hrun | exact Hat].
  - unfold TradeManager.handleAccountUpdate. cbn [Eff.forOf]. unfold Eff.bind at 1.
    destruct (Qeq_bool (TradeManager.positionAmount unknown) 0).
    + destruct (updatePosition_missing accountName (TradeManager.updated_symbol unknown)
                  TradeManager.clearedUpdates am Hunknown) as [e ->]. eauto.
    + destruct (updatePosition_missing accountName (TradeManager.updated_symbol unknown)
                  (TradeManager.openedUpdates (TradeManager.entryPrice unknown))
                  am Hunknown) as [e ->]. eauto.
Qed.

(** A report for BTCUSDT, which [main] does not hold, followed by the flat
    report for its open XRPUSDT position: the position stays open with its
    ladder. *)
Lemma flat_report_behind_an_unknown_symbol_is_dropped_witness :
  (exists e,
     TradeManager.handleAccountUpdate "main" [strayReport; flatReport]
       (storeWith "main" "XRPUSDT" midLadder)
     = (Thrown e, storeWith "main" "XRPUSDT" midLadder))
  /\ AccountManager.getPositionData "main" "XRPUSDT"
       (storeWith "main" "XRPUSDT" midLadder)
     = Some midLadder
  /\ midLadder <> clearedPosition midLadder.
Proof.
  destruct (flat_report_behind_an_unknown_symbol_is_dropped "main" strayReport
              flatReport [] [] (storeWith "main" "XRPUSDT" midLadder) midLadder)
    as [_ Hdropped].
  - vm_compute. reflexivity.
  - vm_compute. reflexivity.
  - reflexivity.
  - split; [exact Hdropped|]. split; [vm_compute; reflexivity | discriminate].
Defined.

(** ** The trigger ladder *)

Lemma toFixed_proper (x y : Q) (p : nat) :
  x == y -> Number.toFixed x p = Number.toFixed y p.
Proof.
  intros Hxy. unfold Number.toFixed, Number.nearestScaled.
  assert (Hb : Qle_bool 0 x = Qle_bool 0 y).
  { destruct (Qle_bool 0 x) eqn:Hx, (Qle_bool 0 y) eqn:Hy; try reflexivity.
    - apply Qle_bool_iff in Hx. rewrite Hxy in Hx. apply Qle_bool_iff in Hx. congruence.
    - apply Qle_bool_iff in Hy. rewrite <- Hxy in Hy. apply Qle_bool_iff in Hy. congruence. }
  rewrite Hb.
  assert (H1 : Qfloor (x * inject_Z (Z.pos (Number.pow10 p)) + (1 # 2))
               = Qfloor (y * inject_Z (Z.pos (Number.pow10 p)) + (1 # 2)))
    by (apply Qfloor_comp; rewrite Hxy; reflexivity).
  assert (H2 : Qfloor (- x * inject_Z (Z.pos (Number.pow10 p)) + (1 # 2))
               = Qfloor (- y * inject_Z (Z.pos (Number.pow10 p)) + (1 # 2)))
    by (apply Qfloor_comp; rewrite Hxy; reflexivity).
  rewrite H1, H2. reflexivity.
Qed.

Lemma nearestScaled_close (x : Q) (p : nat) :
  Qabs ((Number.nearestScaled x p # Number.pow10 p) - x) <= 1 # (2 * Number.pow10 p).
Proof.
  unfold Number.nearestScaled.
  set (d := Number.pow10 p).
  set (y := x * inject_Z (Z.pos d) + (1 # 2)).
  pose proof (Qfloor_le y) as Hlo.
  pose proof (Qlt_floor y) as Hhi.
  assert (Hd : 0 < inject_Z (Z.pos d)) by (unfold Qlt; cbn; lia).
  rewrite (Qmake_Qdiv (Qfloor y) d).
  assert (Hhalf : (1 # (2 * d)) == (1 # 2) / inject_Z (Z.pos d)).
  { rewrite (Qmake_Qdiv 1 (2 * d)). rewrite (Qmake_Qdiv 1 2).
    change (Z.pos (2 * d)) with (2 * Z.pos d)%Z. rewrite inject_Z_mult.
    field. intro Hz. rewrite Hz in Hd. apply (Qlt_irrefl _ Hd). }
  rewrite Hhalf.
  rewrite inject_Z_plus in Hhi. change (inject_Z 1) with 1 in Hhi.
  assert (Heq : inject_Z (Qfloor y) / inject_Z (Z.pos d) - x
                == (inject_Z (Qfloor y) - x * inject_Z (Z.pos d)) / inject_Z (Z.pos d)).
  { field. intro Hz. rewrite Hz in Hd. apply (Qlt_irrefl _ Hd). }
  rewrite Heq. unfold Qdiv. rewrite Qabs_Qmult.
  rewrite (Qabs_pos (/ inject_Z (Z.pos d)))
    by (apply Qlt_le_weak, Qinv_lt_0_compat; exact Hd).
  apply Qmult_le_compat_r;
    [|apply Qlt_le_weak, Qinv_lt_0_compat; exact Hd].
  apply Qabs_Qle_condition. unfold y in *. split; lra.
Qed.

(** [toFixed] rounds to the requested number of decimals. *)
Lemma toFixed_rounds (x : Q) (p : nat) : roundedTo p x (Number.toFixed x p).
Proof.
  unfold roundedTo, Number.toFixed.
  destruct (Qle_bool 0 x); (split; [eexists; reflexivity|]).
  - apply nearestScaled_close.
  - pose proof (nearestScaled_close (- x) p) as H.
    assert (Heq : ((- Number.nearestScaled (- x) p)%Z # Number.pow10 p) - x
                  == - ((Number.nearestScaled (- x) p # Number.pow10 p) - - x)).
    { unfold Qeq, Qminus, Qplus, Qopp. cbn. lia. }
    rewrite Heq, Qabs_opp. exact H.
Qed.

Section LadderLoop.
Variables (E m f : Q) (d : TriggerSide).

(** What the loop has appended after [n] turns started at counter [i] with
    running stop [cur]. *)
Lemma loop_unrolled (n : nat) (i : Z) (cur : Q) (ts ss : list Q) :
  Ladder.loop E m f d n i cur ts ss
  = (ts ++ map (fun k => Number.toFixed (Ladder.triggerPrice E m d (i + Z.of_nat k)) 8)
               (seq 0 n),
     ss ++ map (fun k => Number.toFixed
                           (Nat.iter (S k) (Ladder.stopPrice m f d) cur) 8)
               (seq 0 n)).
Proof.
  revert i cur ts ss. induction n as [|n IH]; intros i cur ts ss.
  - cbn. rewrite !app_nil_r. reflexivity.
  - cbn [Ladder.loop]. rewrite IH. cbn [seq map].
    rewrite <- !seq_shift, !map_map, <- !app_assoc. cbn [app].
    rewrite Z.add_0_r. f_equal.
    + do 2 f_equal. apply map_ext. intros k.
      replace (i + 1 + Z.of_nat k)%Z with (i + Z.of_nat (S k))%Z by lia.
      reflexivity.
    + do 2 f_equal. apply map_ext. intros k.
      rewrite <- Nat.iter_succ_r. reflexivity.
Qed.

Lemma triggerPrice_spec (i : nat) :
  Ladder.triggerPrice E m d (Z.of_nat i) == ladderTrigger E (m / 100) d i.
Proof. unfold Ladder.triggerPrice, ladderTrigger. destruct d; field. Qed.

Lemma stopPrice_spec (i : nat) :
  Nat.iter i (Ladder.stopPrice m f d) (Ladder.initialStopPrice E m f d)
  == ladderStop E (m / 100) (f / 100) d i.
Proof.
  induction i as [|i IH].
  - cbn. unfold Ladder.initialStopPrice. destruct d; reflexivity.
  - cbn [Nat.iter ladderStop]. unfold Ladder.stopPrice at 1.
    destruct d; (apply Qmult_comp; [exact IH | reflexivity]).
Qed.

Lemma loop_entries (n i : nat) :
  (1 <= i <= n)%nat ->
  let '(ts, ss) := Ladder.loop E m f d n 1 (Ladder.initialStopPrice E m f d) [] [] in
  length ts = n /\ length ss = n
  /\ ts !! (i - 1)%nat = Some (Number.toFixed (ladderTrigger E (m / 100) d i) 8)
  /\ ss !! (i - 1)%nat
     = Some (Number.toFixed (ladderStop E (m / 100) (f / 100) d i) 8).
Proof.
  intros Hi. rewrite loop_unrolled. cbn [app].
  rewrite !length_map, !length_seq. split; [reflexivity|]. split; [reflexivity|].
  rewrite !list_lookup_fmap, !lookup_seq_lt by lia.
  cbn -[Nat.iter Number.toFixed Z.of_nat Z.add].
  replace (S (i - 1)) with i by lia.
  replace (1 + Z.of_nat (i - 1))%Z with (Z.of_nat i) by lia.
  split; f_equal; apply toFixed_proper;
    [apply triggerPrice_spec | apply stopPrice_spec].
Qed.

Lemma loop_lengths (n : nat) (i : Z) (cur : Q) (ts ss : list Q) :
  length ts = length ss ->
  length (fst (Ladder.loop E m f d n i cur ts ss))
  = length (snd (Ladder.loop E m f d n i cur ts ss)).
Proof.
  intros H. rewrite loop_unrolled. cbn.
  rewrite !length_app, !length_map, H. reflexivity.
Qed.

End LadderLoop.



Section LadderOnDoubles.
Import PrimFloat.
Local Open Scope float_scope.
Variables (E m f : float) (d : TriggerSide).

Lemma binary64_loop_unrolled (n : nat) (i cur : float) (ts ss : list float) :
  Binary64.loop E m f d n i cur ts ss
  = (ts ++ map (fun k => Binary64.toFixed
                           (Binary64.triggerPrice E m d (Nat.iter k (fun j => j + 1) i)) 8)
               (seq 0 n),
     ss ++ map (fun k => Binary64.toFixed
                           (Nat.iter (S k) (Binary64.stopPrice m f d) cur) 8)
               (seq 0 n)).
Proof.
  revert i cur ts ss. induction n as [|n IH]; intros i cur ts ss.
  - cbn. rewrite !app_nil_r. reflexivity.
  - cbn [Binary64.loop]. rewrite IH. rewrite <- !app_assoc.
    cbn [seq map app]. rewrite <- seq_shift, !map_map.
    f_equal; f_equal; f_equal; apply map_ext; intros k.
    + rewrite <- (Nat.iter_succ_r k (fun j => j + 1) i). reflexivity.
    + rewrite <- (Nat.iter_succ_r (S k) (Binary64.stopPrice m f d) cur). reflexivity.
Qed.
End LadderOnDoubles.

(** Up to the default count the turn counter is the double of the integer
    turn number. *)
Lemma loopCounter_default :
  Forall (fun k => Binary64.loopCounter k = Binary64.ofZ (Z.of_nat k + 1))
         (seq 0 defaultCount).
Proof. vm_compute. repeat constructor. Qed.

(** C1, as the code has it.  On doubles, for a position whose movement
    threshold [m] is neither null, zero nor [NaN] and a pair whose fees
    exemption is [f], the ladder computation hands [triggers] and
    [stop_prices] of length [N] each, with the direction, to
    [updatePosition] and returns them.  The trigger of turn [i] is
    [toFixed(8)] of [E * (1 + (i * m) / 100)] (long;
    [E * (1 - (i * m) / 100)] short) and the stop of turn [i] is
    [toFixed(8)] of [S_i], where [S_0 = E * (1 - m/100 - f/100)] and
    [S_i = S_(i-1) * (1 + m/100 + f/100)] (long; the signs flipped for
    short), every operation being the double operation in this order; the
    running stop is iterated unrounded, only the stored values are rounded.
    For [E = 0.5], [m = 1.0], [f = 0.1], [N = 5], long, the seed is the
    double of 0.4945, the stored triggers are the doubles of 0.505, 0.51,
    0.515, 0.52, 0.525 and the stored stops those of 0.4999395, 0.50543883,
    0.51099866, 0.51661965, 0.52230246. *)
Theorem calculateTriggers_on_doubles
    {S : Type} (getPositionData : string -> string -> S -> option Doubles.Position)
    (pairSettings : gmap string Doubles.Pair)
    (updatePosition : string -> string -> list PrimFloat.float ->
                      list PrimFloat.float -> TriggerSide -> Eff S unit)
    (E : PrimFloat.float) (d : TriggerSide) (accountName symbol_ : string)
    (N : nat) (s : S) (positionData : Doubles.Position) (m : PrimFloat.float)
    (pairConfig : Doubles.Pair) :
  getPositionData accountName symbol_ s = Some positionData ->
  Doubles.movement_threshold positionData = Some m ->
  Binary64.truthy m = true ->
  pairSettings !! symbol_ = Some pairConfig ->
  let f := Doubles.fees_exemption_percentage pairConfig in
  (exists triggers stopPrices,
     Doubles.calculateTriggers getPositionData pairSettings updatePosition
                               E d accountName symbol_ N s
     = (updatePosition accountName symbol_ triggers stopPrices d ;;
        Eff.ret (triggers, stopPrices)) s
     /\ length triggers = N /\ length stopPrices = N
     /\ (forall k, (k < N)%nat ->
           triggers !! k
           = Some (Binary64.toFixed
                     (Binary64.triggerPrice E m d (Binary64.loopCounter k)) 8)
           /\ stopPrices !! k
              = Some (Binary64.toFixed
                        (Binary64.stopPrice m f d (Binary64.runningStop E m f d k)) 8)))
  /\ Binary64.initialStopPrice (Binary64.decimal 5 1) (Binary64.decimal 1 0)
                               (Binary64.decimal 1 1) long
     = Binary64.decimal 4945 4
  /\ Binary64.ladder (Binary64.decimal 5 1) (Binary64.decimal 1 0)
                     (Binary64.decimal 1 1) long 5
     = ([Binary64.decimal 505 3; Binary64.decimal 51 2; Binary64.decimal 515 3;
         Binary64.decimal 52 2; Binary64.decimal 525 3],
        [Binary64.decimal 4999395 7; Binary64.decimal 50543883 8;
         Binary64.decimal 51099866 8; Binary64.decimal 51661965 8;
         Binary64.decimal 52230246 8]).
Proof.
  intros Hget Hm Hmt Hpair f.
  split; [|split; vm_compute; reflexivity].
  unfold Doubles.calculateTriggers, Eff.bind at 1, Eff.get.
  rewrite Hget, Hm, Hmt, Hpair. cbn [negb]. fold f.
  rewrite binary64_loop_unrolled. cbn [app].
  eexists _, _. split; [reflexivity|].
  rewrite !length_map, !length_seq.
  split; [reflexivity|]. split; [reflexivity|].
  intros k Hk. rewrite !list_lookup_fmap.
  rewrite !lookup_seq_lt by exact Hk. cbn. split; reflexivity.
Qed.

(** Scenario S1: entry at 0.5, movement threshold 1, fees exemption 0.1,
    five turns, long. *)
Lemma calculateTriggers_on_doubles_witness :
  exists triggers stopPrices,
    Doubles.calculateTriggers (fun _ _ _ => Some entered64) {[ "XRPUSDT" := xrp64 ]}
                              recordLadder (Binary64.decimal 5 1) long
                              "main" "XRPUSDT" 5 []
    = (Returned (triggers, stopPrices), [(triggers, stopPrices, long)])
    /\ length triggers = 5%nat /\ length stopPrices = 5%nat
    /\ triggers !! 0%nat = Some (Binary64.decimal 505 3)
    /\ stopPrices !! 0%nat = Some (Binary64.decimal 4999395 7)
    /\ triggers !! 4%nat = Some (Binary64.decimal 525 3)
    /\ stopPrices !! 4%nat = Some (Binary64.decimal 52230246 8).
Proof.
  destruct (calculateTriggers_on_doubles
              (fun _ _ _ => Some entered64) {[ "XRPUSDT" := xrp64 ]} recordLadder
              (Binary64.decimal 5 1) long "main" "XRPUSDT" 5 []
              entered64 (Binary64.ofZ 1) xrp64
              eq_refl eq_refl ltac:(vm_compute; reflexivity)
              ltac:(vm_compute; reflexivity))
    as [(triggers & stopPrices & Hrun & Hlt & Hls & Hentries) _].
  exists triggers, stopPrices.
  split; [rewrite Hrun; reflexivity|].
  split; [exact Hlt|]. split; [exact Hls|].
  destruct (Hentries 0%nat ltac:(lia)) as [Ht0 Hs0].
  destruct (Hentries 4%nat ltac:(lia)) as [Ht4 Hs4].
  rewrite Ht0, Hs0, Ht4, Hs4.
  repeat split; vm_compute; reflexivity.
Defined.

(** C1, the claim as worded fails: the stored value is not always the exact
    product rounded to 8 decimals.  With [E = 0.5], [m = 0.25] and [f = 0.5],
    all three doubles, the first long stop is exactly 0.499971875, which
    rounds to 0.49997188; the engine's product falls just below the tie and
    0.49997187 is stored. *)
Theorem ladder_tie_is_rounded_down :
  snd (Binary64.ladder tieEntry tieThreshold tieFees long 1)
  = [Binary64.decimal 49997187 8]
  /\ Number.toFixed (ladderStop (1 # 2) ((1 # 4) / 100) ((1 # 2) / 100) long 1) 8
     == 49997188 # 100000000
  /\ Binary64.decimal 49997187 8 <> Binary64.decimal 49997188 8.
Proof.
  split; [vm_compute; reflexivity|]. split; [vm_compute; reflexivity|].
  intros H. apply (f_equal FloatOps.Prim2SF) in H. vm_compute in H. discriminate.
Qed.

(** ** The movement detector *)

Lemma gtb_iff (x y : Q) : Number.gtb x y = true <-> y < x.
Proof.
  unfold Number.gtb. rewrite negb_true_iff. split.
  - intros H. apply Qnot_le_lt. intros Hle. apply Qle_bool_iff in Hle. congruence.
  - intros H. destruct (Qle_bool x y) eqn:Hb; [|reflexivity].
    apply Qle_bool_iff in Hb. exfalso. apply (Qlt_not_le _ _ H Hb).
Qed.

Lemma fold_left_Qplus (xs : list Q) (a : Q) :
  fold_left Qplus xs a == a + total xs.
Proof.
  revert a. induction xs as [|x xs IH]; intros a; unfold total; cbn [fold_left fold_right].
  - ring.
  - rewrite IH. unfold total. ring.
Qed.

Lemma sum_total (xs : list Q) : Detector.sum xs == total xs.
Proof.
  destruct xs as [|x xs]; [reflexivity|]. cbn [Detector.sum]. apply fold_left_Qplus.
Qed.

Lemma total_proper (xs ys : list Q) :
  Forall2 Qeq xs ys -> total xs == total ys.
Proof.
  induction 1 as [|x y xs ys Hxy _ IH]; unfold total; cbn [fold_right]; [reflexivity|].
  fold (total xs). fold (total ys). rewrite Hxy, IH. reflexivity.
Qed.

Lemma rowDiff_specDiff (x : Candle) :
  0 < open x -> Detector.rowDiff x == specDiff x.
Proof.
  intros Hpos. unfold Detector.rowDiff, specDiff, Qdiv.
  rewrite Qabs_Qmult.
  rewrite (Qabs_pos (/ open x)) by (apply Qlt_le_weak, Qinv_lt_0_compat; exact Hpos).
  reflexivity.
Qed.

Lemma diffs_agree (H : list Candle) :
  Forall (fun x => 0 < open x) H ->
  Forall2 Qeq (map Detector.rowDiff H) (map specDiff H).
Proof.
  induction 1 as [|x H Hx _ IH]; cbn; constructor; auto using rowDiff_specDiff.
Qed.

Lemma slice_lastEntries {A} (n : Z) (xs : list A) :
  (1 <= n)%Z -> Detector.slice (- n) xs = lastEntries (Z.to_nat n) xs.
Proof.
  intros Hn. unfold Detector.slice, lastEntries.
  destruct (- n <? 0)%Z eqn:Hneg; [|apply Z.ltb_ge in Hneg; lia].
  f_equal. lia.
Qed.

Section DetectorFacts.
Variable config : Config.
Variable symbolCandles : gmap string (list Candle).
Variables (symbol_ : string) (H : list Candle) (pairConfig : Pair).
Hypothesis history : symbolCandles !! symbol_ = Some H.
Hypothesis nonEmpty : H <> [].
Hypothesis configured :
  find (fun p => String.eqb (symbol p) symbol_) (pairs config) = Some pairConfig.

Lemma processCandles_unfolded (c : Candle) (am : AccountManager) :
  Detector.processCandles config symbolCandles symbol_ c am
  = if codeDecision H pairConfig c
    then (Eff.forOf (tokens config) (fun token =>
            AccountManager.updatePosition token symbol_
              (Detector.lockUpdates c (codeThreshold H pairConfig))) ;;
          Eff.ret true) am
    else (Returned false, am).
Proof.
  unfold Detector.processCandles, codeDecision, codePastSum, codeThreshold.
  rewrite history. clear history.
  destruct H as [|h0 rest]; [contradiction|].
  rewrite configured.
  match goal with |- context [if ?b then _ else _] => destruct b end; reflexivity.
Qed.

Lemma codeThreshold_spec :
  Forall (fun x => 0 < open x) H -> codeThreshold H pairConfig == dynamicThresholdOf pairConfig H.
Proof.
  intros Hpos. unfold codeThreshold, dynamicThresholdOf, averageDiff, Detector.mean.
  rewrite sum_total, (total_proper _ _ (diffs_agree H Hpos)), length_map.
  reflexivity.
Qed.

Lemma codePastSum_spec :
  Forall (fun x => 0 < open x) H -> (1 <= num_previous_candles pairConfig)%Z ->
  codePastSum H pairConfig == pastSumOf pairConfig H.
Proof.
  intros Hpos Hn. unfold codePastSum, pastSumOf.
  rewrite sum_total, !slice_lastEntries by exact Hn.
  apply total_proper. unfold lastEntries. rewrite !length_map.
  apply Forall2_drop, diffs_agree, Hpos.
Qed.

Lemma codeDecision_spec (c : Candle) :
  Forall (fun x => 0 < open x) H -> (1 <= num_previous_candles pairConfig)%Z ->
  codeDecision H pairConfig c = true <-> triggerConditionOn pairConfig H c.
Proof.
  intros Hpos Hn. unfold codeDecision, triggerConditionOn.
  rewrite andb_true_iff, !gtb_iff.
  change (Detector.currentDiffOf c) with (specDiff c).
  rewrite (codeThreshold_spec Hpos), (codePastSum_spec Hpos Hn). reflexivity.
Qed.

End DetectorFacts.

Lemma spread_idem (p : Position) (u : PositionUpdates) :
  spread (spread p u) u = spread p u.
Proof.
  destruct u as [a b c d e f g h]; unfold spread; cbn.
  destruct a, b, c, d, e, f, g, h; reflexivity.
Qed.

Lemma spread_lockUpdates (p : Position) (c : Candle) (dyn : Q) :
  spread p (Detector.lockUpdates c dyn) = withLock p (close c) (dyn / 2).
Proof. reflexivity. Qed.

Lemma forOf_cons {S A} (x : A) (xs : list A) (body : A -> Eff S unit) (s : S) :
  Eff.forOf (x :: xs) body s
  = match body x s with
    | (Returned _, s') => Eff.forOf xs body s'
    | (Thrown e, s') => (Thrown e, s')
    end.
Proof. reflexivity. Qed.

(** The same patch written to the position of [symbol_] of each account in
    turn, as the detector does. *)
Lemma patchAll_effect (accounts : list string) (symbol_ : string)
    (u : PositionUpdates) (am am' : AccountManager) :
  Eff.forOf accounts (fun a => AccountManager.updatePosition a symbol_ u) am
  = (Returned tt, am') ->
  (forall a, a ∈ accounts ->
     exists p, AccountManager.getPositionData a symbol_ am = Some p
               /\ AccountManager.getPositionData a symbol_ am' = Some (spread p u))
  /\ (forall a s, ~ (a ∈ accounts /\ s = symbol_) ->
        AccountManager.getPositionData a s am'
        = AccountManager.getPositionData a s am).
Proof.
  revert am. induction accounts as [|t rest IH]; intros am Hrun.
  - cbn in Hrun. injection Hrun as <-. split; [|reflexivity].
    intros a Ha. apply elem_of_nil in Ha. contradiction.
  - rewrite forOf_cons in Hrun.
    destruct (AccountManager.getPositionData t symbol_ am) as [p|] eqn:Hget.
    2:{ destruct (updatePosition_missing t symbol_ u am Hget) as [e He].
        rewrite He in Hrun. discriminate. }
    pose proof Hget as Hget'.
    apply getPositionData_Some in Hget' as (account & Ha & Hp).
    rewrite (updatePosition_present _ _ _ _ _ _ Ha Hp) in Hrun.
    set (am1 := stored t symbol_ (spread p u) account am) in *.
    assert (Hat1 : forall a s, AccountManager.getPositionData a s am1
                     = if decide (a = t /\ s = symbol_) then Some (spread p u)
                       else AccountManager.getPositionData a s am)
      by (intros; apply getPositionData_stored; assumption).
    destruct (IH am1 Hrun) as [Hin Hout]. split.
    + intros a Hmem.
      destruct (decide (a ∈ rest)) as [Hr|Hr].
      * destruct (Hin a Hr) as (p1 & Hp1 & Hp1').
        rewrite Hat1 in Hp1. destruct (decide (a = t /\ symbol_ = symbol_)) as [[-> _]|Hne].
        -- injection Hp1 as <-. exists p. rewrite spread_idem in Hp1'. auto.
        -- exists p1. auto.
      * apply elem_of_cons in Hmem as [->|Hmem]; [|contradiction].
        exists p. split; [exact Hget|].
        rewrite Hout by (intros [? _]; contradiction).
        rewrite Hat1, decide_True by auto. reflexivity.
    + intros a s Hne. rewrite Hout.
      * rewrite Hat1, decide_False; [reflexivity|].
        intros [-> ->]. apply Hne. split; [apply list_elem_of_here | reflexivity].
      * intros [Hr ->]. apply Hne. split; [apply list_elem_of_further; exact Hr | reflexivity].
Qed.

Lemma patchAll_returns (accounts : list string) (symbol_ : string)
    (u : PositionUpdates) (am : AccountManager) :
  Forall (fun a => is_Some (AccountManager.getPositionData a symbol_ am)) accounts ->
  exists am',
    Eff.forOf accounts (fun a => AccountManager.updatePosition a symbol_ u) am
    = (Returned tt, am').
Proof.
  revert am. induction accounts as [|t rest IH]; intros am Hall.
  - exists am. reflexivity.
  - apply Forall_cons in Hall as [[p Hget] Hrest].
    pose proof Hget as Hget'.
    apply getPositionData_Some in Hget' as (account & Ha & Hp).
    rewrite forOf_cons, (updatePosition_present _ _ _ _ _ _ Ha Hp).
    apply IH. eapply Forall_impl; [exact Hrest|]. intros a [q Hq]. cbn beta.
    rewrite getPositionData_stored by assumption.
    destruct (decide (a = t /\ symbol_ = symbol_)); eauto.
Qed.

Section DetectorOnDoubles.
Import PrimFloat.
Local Open Scope float_scope.
Context {S : Type}.
Variables (tokens : list string) (pairs : list Doubles.Pair)
          (symbolCandles : gmap string (list Doubles.Candle))
          (updatePosition : string -> string -> float -> float -> Eff S unit).

(** C5, as the code has it.  The detector judges the closed candle [c]
    against the history [H] stored when it runs: [H] is non-empty and is the
    history before [c] is appended, so [c] is in general not part of it.
    With [num_previous_candles >= 1] it triggers exactly when
    [current_diff > dynamic_threshold] and [current_diff > past_sum], every
    value and both comparisons being those of doubles, computed in the
    order of the code: the diff of a stored row [x] is
    [|(x.close - x.open) / x.open| * 100], [current_diff] is
    [|c.close - c.open| / c.open * 100], [average_diff] is the sum of the
    diffs of [H], added from the left, divided by their count,
    [dynamic_threshold = threshold * average_diff], and [past_sum] is the
    sum, added from the left, of the last [num_previous_candles] diffs of
    [H].  Not triggering is returning [false]; triggering is locking the
    close and half the dynamic threshold for every configured account in
    turn and then returning [true] (or throwing where an account cannot be
    locked). *)
Theorem processCandles_decides_on_doubles
    (symbol_ : string) (c : Doubles.Candle) (H : list Doubles.Candle)
    (pairConfig : Doubles.Pair) (s : S) :
  symbolCandles !! symbol_ = Some H ->
  H <> [] ->
  find (fun p => String.eqb (Doubles.symbol p) symbol_) pairs = Some pairConfig ->
  (1 <= Doubles.num_previous_candles pairConfig)%Z ->
  let diffs := map Doubles.rowDiff H in
  let averageDiff := Binary64.sum diffs / Binary64.count diffs in
  let dynamicThreshold := Doubles.threshold pairConfig * averageDiff in
  let currentDiff :=
    abs (Doubles.close c - Doubles.open c) / Doubles.open c * 100 in
  let pastSum :=
    Binary64.sum (lastEntries (Z.to_nat (Doubles.num_previous_candles pairConfig)) diffs) in
  let triggers := (dynamicThreshold <? currentDiff) && (pastSum <? currentDiff) in
  let run :=
    Doubles.processCandles tokens pairs symbolCandles updatePosition symbol_ c s in
  (fst run = Returned false <-> triggers = false)
  /\ (fst run = Returned true -> triggers = true)
  /\ (triggers = true ->
      run = (Eff.forOf tokens (fun token =>
               updatePosition token symbol_ (Doubles.close c) (dynamicThreshold / 2)) ;;
             Eff.ret true) s).
Proof.
  intros HH Hne Hpair Hn diffs averageDiff dynamicThreshold currentDiff pastSum
         triggers run.
  assert (Hrun : run = if triggers
                       then (Eff.forOf tokens (fun token =>
                               updatePosition token symbol_ (Doubles.close c)
                                              (dynamicThreshold / 2)) ;;
                             Eff.ret true) s
                       else (Returned false, s)).
  { unfold run, Doubles.processCandles. rewrite HH.
    destruct H as [|row rest]; [contradiction|].
    rewrite Hpair. rewrite slice_lastEntries by exact Hn.
    unfold triggers, pastSum, currentDiff, dynamicThreshold, averageDiff, diffs,
      Binary64.mean, Doubles.currentDiffOf.
    match goal with |- context [if ?b then _ else _] => destruct b end;
      reflexivity. }
  rewrite Hrun. destruct triggers.
  - split; [|split; [reflexivity | reflexivity]].
    split; [|discriminate].
    unfold Eff.bind.
    destruct (Eff.forOf tokens _ s) as [[[]|e] s']; cbn; discriminate.
  - split; [split; reflexivity|]. split; [|discriminate].
    cbn. discriminate.
Qed.
End DetectorOnDoubles.

(** One stored candle from 0.4802 to 0.49 and a judged candle from 0.49 to
    0.5: the detector triggers and locks 0.5. *)
Lemma processCandles_decides_on_doubles_witness :
  Doubles.processCandles ["main"] [xrp64] evenHistory64 recordLock
                         "XRPUSDT" evenCandle64 []
  = (Returned true,
     [("main", "XRPUSDT", Binary64.decimal 5 1,
       PrimFloat.div (Doubles.rowDiff (candle64 (Binary64.decimal 4802 4) (Binary64.decimal 49 2)))
                     (Binary64.ofZ 2))]).
Proof.
  pose proof (processCandles_decides_on_doubles ["main"] [xrp64] evenHistory64
                recordLock "XRPUSDT" evenCandle64
                [candle64 (Binary64.decimal 4802 4) (Binary64.decimal 49 2)] xrp64 []
                eq_refl ltac:(discriminate) eq_refl ltac:(vm_compute; discriminate))
    as (_ & _ & Hrun).
  rewrite Hrun by (vm_compute; reflexivity).
  vm_compute. reflexivity.
Defined.

(** Both candles moved by exactly one forty-ninth of their open, so in exact
    arithmetic the judged move does not exceed the average; on doubles the
    two quotients differ in their last bits and the detector triggers. *)
Example even_move_triggers_on_doubles_only :
  fst (Doubles.processCandles ["main"] [xrp64] evenHistory64 recordLock
                              "XRPUSDT" evenCandle64 [])
  = Returned true
  /\ codeDecision
       [{| openTime := 0; open := 4802 # 10000; high := 49 # 100; low := 4802 # 10000;
           close := 49 # 100; volume := 0; closeTime := 0 |}]
       xrp
       {| openTime := 0; open := 49 # 100; high := 1 # 2; low := 49 # 100;
          close := 1 # 2; volume := 0; closeTime := 0 |}
     = false.
Proof. split; vm_compute; reflexivity. Qed.

(** C2, as the code has it.  When the detector triggers on [c] for a symbol,
    the position of that symbol of every configured account, whatever its
    status, gets [lock_close_price = c.close] and
    [movement_threshold = dynamic_threshold / 2]; its status and all its
    other fields stay as they were, and no other position changes. *)
Theorem processCandles_locks_every_account
    (config : Config) (symbolCandles : gmap string (list Candle))
    (symbol_ : string) (c : Candle) (am am' : AccountManager) :
  Detector.processCandles config symbolCandles symbol_ c am = (Returned true, am') ->
  exists H pairConfig,
    symbolCandles !! symbol_ = Some H
    /\ find (fun p => String.eqb (symbol p) symbol_) (pairs config) = Some pairConfig
    /\ (forall a, a ∈ tokens config ->
          exists p,
            AccountManager.getPositionData a symbol_ am = Some p
            /\ AccountManager.getPositionData a symbol_ am'
               = Some (withLock p (close c) (codeThreshold H pairConfig / 2)))
    /\ (forall a s, ~ (a ∈ tokens config /\ s = symbol_) ->
          AccountManager.getPositionData a s am'
          = AccountManager.getPositionData a s am).
Proof.
  intros Hrun.
  destruct (symbolCandles !! symbol_) as [H|] eqn:Hhist;
    [|unfold Detector.processCandles in Hrun; rewrite Hhist in Hrun; discriminate].
  destruct (decide (H = [])) as [->|Hne];
    [unfold Detector.processCandles in Hrun; rewrite Hhist in Hrun; discriminate|].
  destruct (find (fun p => String.eqb (symbol p) symbol_) (pairs config))
    as [pairConfig|] eqn:Hcfg.
  2:{ unfold Detector.processCandles in Hrun. rewrite Hhist, Hcfg in Hrun.
      destruct H; discriminate. }
  exists H, pairConfig. split; [reflexivity|]. split; [reflexivity|].
  rewrite (processCandles_unfolded config symbolCandles symbol_ H pairConfig
             Hhist Hne Hcfg) in Hrun.
  destruct (codeDecision H pairConfig c); [|discriminate].
  unfold Eff.bind in Hrun.
  destruct (Eff.forOf (tokens config) _ am) as [[[]|e] am1] eqn:Hloop;
    [|discriminate].
  cbn in Hrun. injection Hrun as <-.
  destruct (patchAll_effect _ _ _ _ _ Hloop) as [Hin Hout]. split; [|exact Hout].
  intros a Ha. destruct (Hin a Ha) as (p & Hp & Hp'). exists p.
  rewrite spread_lockUpdates in Hp'. auto.
Qed.

(** C2, the claim as worded fails: the detector fires while [main] holds an
    open position, and that position does not stay as it was: its lock price
    and movement threshold are overwritten like those of the idle account. *)
Lemma processCandles_relocks_open_position :
  exists am' after,
    Detector.processCandles twoAccountConfig {[ "XRPUSDT" := [quiet] ]} "XRPUSDT" jump
                            twoAccounts
    = (Returned true, am')
    /\ AccountManager.getPositionData "main" "XRPUSDT" twoAccounts = Some midLadder
    /\ status midLadder = true
    /\ AccountManager.getPositionData "main" "XRPUSDT" am' = Some after
    /\ after <> midLadder
    /\ lock_close_price after = Some (close jump)
    /\ lock_close_price midLadder = Some 0.495.
Proof.
  eexists. eexists.
  split; [vm_compute; reflexivity|].
  split; [vm_compute; reflexivity|].
  split; [reflexivity|].
  split; [vm_compute; reflexivity|].
  split; [discriminate|].
  split; reflexivity.
Qed.

Lemma processCandles_locks_every_account_witness :
  exists am' p,
    Detector.processCandles twoAccountConfig {[ "XRPUSDT" := [quiet] ]} "XRPUSDT" jump
                            twoAccounts
    = (Returned true, am')
    /\ AccountManager.getPositionData "second" "XRPUSDT" am' = Some p
    /\ status p = false
    /\ lock_close_price p = Some (close jump).
Proof.
  destruct (Detector.processCandles twoAccountConfig {[ "XRPUSDT" := [quiet] ]}
              "XRPUSDT" jump twoAccounts) as [r am'] eqn:Hrun.
  assert (Hr : r = Returned true).
  { vm_compute in Hrun. injection Hrun as <- _. reflexivity. }
  subst r.
  destruct (processCandles_locks_every_account _ _ _ _ _ _ Hrun)
    as (H & pairConfig & _ & _ & Hin & _).
  destruct (Hin "second") as (p & Hp & Hp').
  { vm_compute. apply list_elem_of_further, list_elem_of_here. }
  exists am'. eexists. split; [reflexivity|]. split; [exact Hp'|].
  vm_compute in Hp. injection Hp as <-. split; reflexivity.
Defined.

(** C5, the claim as worded fails: on a closed candle the feed handler runs
    the detector first and appends afterwards.  Here the detector triggers,
    while the condition evaluated on the snapshot that includes the candle
    as its last element is false (the candle's own move is then part of
    [past_sum]). *)
Lemma detector_runs_before_append :
  let feed := {| feedAccounts := storeWith "main" "XRPUSDT" AccountManager.initialPosition;
                 symbolCandles := {[ "XRPUSDT" := [quiet] ]} |} in
  exists feed',
    onClosedCandle testConfig "XRPUSDT" jump feed = (Returned true, feed')
    /\ symbolCandles feed' !! "XRPUSDT" = Some [quiet; jump]
    /\ last [quiet; jump] = Some jump
    /\ ~ triggersAsSpecified xrp [quiet; jump].
Proof.
  eexists.
  split; [vm_compute; reflexivity|].
  split; [vm_compute; reflexivity|].
  split; [reflexivity|].
  unfold triggersAsSpecified. cbn [last]. intros [_ Hpast].
  vm_compute in Hpast. discriminate Hpast.
Qed.

(** ** The entry engine *)

Lemma geb_iff (x y : Q) : Number.geb x y = true <-> y <= x.
Proof. unfold Number.geb. apply Qle_bool_iff. Qed.

Lemma leb_iff (x y : Q) : Number.leb x y = true <-> x <= y.
Proof. unfold Number.leb. apply Qle_bool_iff. Qed.

Section EntryFacts.
Context {G : Type}.
Variable tm : TradeManagerMethods G.
Variable pairSettings : gmap string Pair.

Lemma onAccounts_gateway {A} (c : Eff AccountManager A) (w : World G) :
  gateway (snd (onAccounts c w)) = gateway w.
Proof. unfold onAccounts. destruct (c (accountManager w)). reflexivity. Qed.

Lemma setTriggers_gateway accountName symbol_ price d (w : World G) :
  gateway (snd (setTriggers pairSettings accountName symbol_ price d w)) = gateway w.
Proof.
  unfold setTriggers, Eff.tryCatch, Eff.bind at 1, Eff.get. unfold Eff.bind.
  match goal with |- context [onAccounts ?c w] =>
    pose proof (onAccounts_gateway c w) as Hg; destruct (onAccounts c w) as [[r|e] w']
  end; exact Hg.
Qed.

End EntryFacts.

Section EntryOnDoubles.
Import PrimFloat.
Local Open Scope float_scope.
Context {S : Type}.
Variables (getPositionData : string -> string -> S -> option Doubles.Position)
          (pairSettings : gmap string Doubles.Pair)
          (placePositionWithStopLoss :
             string -> OrderSide -> float -> float -> Eff S OrderResult)
          (calculateTriggers :
             float -> TriggerSide -> string -> string -> Eff S (list float * list float)).

(** The entries requested so far, oldest first. *)
Variable requested : S -> list Entry.

Hypothesis placing_is_recorded :
  forall symbol_ side usdtAmount stopLossPrice s,
    requested (snd (placePositionWithStopLoss symbol_ side usdtAmount stopLossPrice s))
    = requested s ++ [(side, usdtAmount, stopLossPrice)].
Hypothesis ladder_requests_nothing :
  forall entryPrice direction accountName symbol_ s,
    requested (snd (calculateTriggers entryPrice direction accountName symbol_ s))
    = requested s.

Lemma setTriggers_requests_nothing accountName symbol_ currentPrice direction s :
  requested (snd (Doubles.setTriggers getPositionData calculateTriggers
                    accountName symbol_ currentPrice direction s))
  = requested s.
Proof.
  unfold Doubles.setTriggers, Eff.tryCatch, Eff.bind, Eff.get. cbn.
  match goal with
  | |- context [calculateTriggers ?e ?d ?a ?sy s] =>
      pose proof (ladder_requests_nothing e d a sy s) as Hl;
      destruct (calculateTriggers e d a sy s) as [[r|err] s']
  end; cbn in *; exact Hl.
Qed.

(** C6, as the code has it.  For a position that is not open and whose lock
    price [L] and movement threshold [m] are neither null, zero nor [NaN], a
    tick at [current_price] makes the entry engine request exactly one entry
    or none, every value and comparison being those of doubles: with
    [up = L * (1 + m / 100)] and [down = L * (1 - m / 100)], a BUY with
    protective stop [current_price * (1 - m / 100)] when
    [current_price >= up]; otherwise a SELL with protective stop
    [current_price * (1 + m / 100)] when [current_price <= down]; otherwise
    nothing.  The amount handed over is the pair's [usdt_amount]. *)
Theorem checkMovementThreshold_requests_on_doubles
    (accountName symbol_ : string) (currentPrice L m : float)
    (positionData : Doubles.Position) (pairConfig : Doubles.Pair) (s : S) :
  getPositionData accountName symbol_ s = Some positionData ->
  Doubles.status positionData = false ->
  Doubles.lock_close_price positionData = Some L ->
  Doubles.movement_threshold positionData = Some m ->
  Binary64.truthy L = true ->
  Binary64.truthy m = true ->
  pairSettings !! symbol_ = Some pairConfig ->
  let upThreshold := L * (1 + m / 100) in
  let downThreshold := L * (1 - m / 100) in
  requested (snd (Doubles.checkMovementThreshold getPositionData pairSettings
                    placePositionWithStopLoss calculateTriggers
                    accountName symbol_ currentPrice s))
  = requested s ++
    (if upThreshold <=? currentPrice
     then [(BUY, Doubles.usdt_amount pairConfig, currentPrice * (1 - m / 100))]
     else if currentPrice <=? downThreshold
     then [(SELL, Doubles.usdt_amount pairConfig, currentPrice * (1 + m / 100))]
     else []).
Proof.
  intros Hdata Hstatus HL Hm HLt Hmt Hpair upThreshold downThreshold.
  unfold Doubles.checkMovementThreshold, Eff.bind at 1, Eff.get.
  rewrite Hdata, HL, HLt, Hstatus, Hm, Hmt. cbn [negb andb]. rewrite Hpair.
  fold upThreshold downThreshold.
  assert (Hplace : forall side stop direction,
    requested (snd ((let* response :=
                       placePositionWithStopLoss symbol_ side
                         (Doubles.usdt_amount pairConfig) stop in
                     if success response
                     then Doubles.setTriggers getPositionData calculateTriggers
                            accountName symbol_ currentPrice direction
                     else Eff.ret tt) s))
    = requested s ++ [(side, Doubles.usdt_amount pairConfig, stop)]).
  { intros side stop direction. unfold Eff.bind.
    pose proof (placing_is_recorded symbol_ side (Doubles.usdt_amount pairConfig)
                                    stop s) as Hp.
    destruct (placePositionWithStopLoss symbol_ side _ stop s) as [[response|e] s'];
      cbn in *; [|exact Hp].
    destruct (success response); [|exact Hp].
    rewrite setTriggers_requests_nothing. exact Hp. }
  destruct (upThreshold <=? currentPrice); [apply Hplace|].
  destruct (currentPrice <=? downThreshold); [apply Hplace|].
  cbn. rewrite app_nil_r. reflexivity.
Qed.
End EntryOnDoubles.

(** Lock 1.1, threshold 1, tick at 1.111: on doubles [1.1 * (1 + 1 / 100)]
    is just above 1.111, and nothing is requested. *)
Lemma checkMovementThreshold_requests_on_doubles_witness :
  snd (Doubles.checkMovementThreshold (fun _ _ _ => Some armed64)
         {[ "XRPUSDT" := xrp64 ]} (recordEntry accepted)
         (fun _ _ _ _ => Eff.ret ([], []))
         "main" "XRPUSDT" (Binary64.decimal 1111 3) [])
  = [].
Proof.
  rewrite (checkMovementThreshold_requests_on_doubles
             (fun _ _ _ => Some armed64) {[ "XRPUSDT" := xrp64 ]}
             (recordEntry accepted) (fun _ _ _ _ => Eff.ret ([], []))
             (fun asked => asked)
             ltac:(intros; reflexivity) ltac:(intros; reflexivity)
             "main" "XRPUSDT" (Binary64.decimal 1111 3) (Binary64.decimal 11 1) (Binary64.ofZ 1)
             armed64 xrp64 []
             eq_refl eq_refl eq_refl eq_refl
             ltac:(vm_compute; reflexivity) ltac:(vm_compute; reflexivity)
             ltac:(vm_compute; reflexivity)).
  vm_compute. reflexivity.
Defined.

(** C6, the claim as worded fails for a threshold that is not null but zero.
    A history of flat candles makes the detector arm at the close of 101
    with a movement threshold of [0]; the tick at 102 is above
    [L (1 + m/100) = 101], yet the entry engine asks for nothing. *)
Lemma zero_threshold_asks_nothing :
  exists am p L m,
    Detector.processCandles testConfig {[ "XRPUSDT" := [flat] ]} "XRPUSDT" jump
      (storeWith "main" "XRPUSDT" AccountManager.initialPosition)
    = (Returned true, am)
    /\ AccountManager.getPositionData "main" "XRPUSDT" am = Some p
    /\ status p = false
    /\ lock_close_price p = Some L
    /\ movement_threshold p = Some m
    /\ m == 0
    /\ L * (1 + m / 100) <= 102
    /\ asked (gateway (snd (checkMovementThreshold recordingTradeManager
                              (pairSettingsOf testConfig) "main" "XRPUSDT" 102
                              (recorderWorld am))))
       = [].
Proof.
  eexists. eexists. eexists. eexists.
  split; [vm_compute; reflexivity|].
  split; [vm_compute; reflexivity|].
  split; [reflexivity|].
  split; [reflexivity|].
  split; [reflexivity|].
  split; [reflexivity|].
  split; [vm_compute; discriminate|].
  vm_compute. reflexivity.
Qed.

(** ** The order gateway *)

(** The price [placePositionWithStopLoss] works back from the stop it is
    handed is the tick price only for a movement threshold of 1 percent. *)
Lemma recovered_price_BUY (currentPrice m : Q) :
  ~ currentPrice == 0 ->
  (currentPrice * (1 - m / 100) / (1 + - (1 # 100)) == currentPrice <-> m == 1).
Proof.
  intros Hnz. split.
  - intros H.
    assert (H1 : currentPrice * (1 - m / 100) == currentPrice * (99 # 100)).
    { rewrite <- H at 2. field. }
    apply Qmult_inj_l in H1; [|exact Hnz].
    assert (Hdiv : m / 100 == m * (1 # 100)) by reflexivity. lra.
  - intros ->. field.
Qed.

(** C7, the code at a failing input.  Lock 0.5, movement threshold 2, tick at
    0.51, [usdt_amount] 100, quantity precision 1: the claim gives
    [100 / 0.51] rounded, 196.1; the market order that is submitted carries
    198.1, because the quantity is computed from [stopPrice / 0.99], the
    tick price only when the threshold is 1. *)
Theorem entry_quantity_assumes_one_percent :
  let w := liveWorld (storeWith "main" "XRPUSDT" (armedAt 0.5 2)) acceptingReplies in
  let w' := snd (checkMovementThreshold tradeManager (pairSettingsOf testConfig)
                   "main" "XRPUSDT" 0.51 w) in
  0.5 * (1 + 2 / 100) <= 0.51
  /\ (exists q, marketQuantities (requests (gateway w')) = [q] /\ q == 198.1)
  /\ TradeManager.roundToPrecision (100 / 0.51) 1 == 196.1.
Proof.
  split; [vm_compute; discriminate|].
  split; [|vm_compute; reflexivity].
  eexists. split; [vm_compute; reflexivity|]. reflexivity.
Qed.

(** With a movement threshold of 1 the same tick is sized as claimed. *)
Lemma entry_quantity_at_one_percent :
  let w := liveWorld (storeWith "main" "XRPUSDT" (armedAt 0.5 1)) acceptingReplies in
  let w' := snd (checkMovementThreshold tradeManager (pairSettingsOf testConfig)
                   "main" "XRPUSDT" 0.51 w) in
  exists q, marketQuantities (requests (gateway w')) = [q]
            /\ q == TradeManager.roundToPrecision (100 / 0.51) 1.
Proof.
  eexists. split; [vm_compute; reflexivity|]. vm_compute. reflexivity.
Qed.

(** ** The trigger runner *)

Lemma headsDiffer_same (xs : list Q) : headsDiffer xs xs = false.
Proof.
  destruct xs as [|x xs]; [reflexivity|]. cbn.
  rewrite (proj2 (Qeq_bool_iff x x) (Qeq_refl x)). reflexivity.
Qed.

(** The first call of a placement is rejected: the method throws. *)
Lemma placeTrailStopLoss_rejected symbol_ forSide stopPrice (g : Gateway) what rest :
  replies g = Rejects what :: rest ->
  TradeManager.placeTrailStopLoss symbol_ forSide stopPrice g
  = (Thrown (TransportError what),
     {| positionLocks := positionLocks g; exchangeInfo := exchangeInfo g;
        replies := rest; requests := requests g ++ [GetAllOpenOrders symbol_] |}).
Proof.
  intros Hr.
  unfold TradeManager.placeTrailStopLoss, Eff.tryCatch, Eff.bind,
    TradeManager.getAllOpenOrders, Eff.bind, TradeManager.call.
  rewrite Hr. reflexivity.
Qed.

(** C3, the code on a transport failure.  An open position's first trigger
    is crossed and the first request of the placement is rejected.  The
    runner returns after that single request: the later replies are left
    unread (no second or third attempt, no closing market order), the ladder
    is as it was and the lock is released. *)
Theorem transport_failure_is_not_retried
    (accountName symbol_ : string) (currentPrice : Q)
    (w : World Gateway) (p : Position) (trigger0 stop0 : Q) (ts ss : list Q)
    (what : string) (rest : list Reply) :
  AccountManager.getPositionData accountName symbol_ (accountManager w) = Some p ->
  status p = true ->
  triggers p = trigger0 :: ts ->
  stop_prices p = stop0 :: ss ->
  processingTriggers w !! lockKeyOf accountName symbol_ = None ->
  triggerCondition (bool_decide (trigger_side p = Some long)) currentPrice trigger0
  = true ->
  replies (gateway w) = Rejects what :: rest ->
  let '(outcome, w') := checkTriggers tradeManager accountName symbol_ currentPrice w in
  outcome = Returned tt
  /\ requests (gateway w') = requests (gateway w) ++ [GetAllOpenOrders symbol_]
  /\ replies (gateway w') = rest
  /\ accountManager w' = accountManager w
  /\ processingTriggers w' !! lockKeyOf accountName symbol_ = Some false.
Proof.
  intros Hget Hstatus Htr Hst Hfree Hcross Hrej.
  unfold checkTriggers, Eff.bind at 1, Eff.get.
  rewrite Hget, Hstatus, Htr, Hst, Hfree. cbn [negb length Nat.eqb orb default].
  rewrite Hcross.
  unfold Eff.tryFinally, Eff.tryCatch, Eff.bind at 1, setProcessing, Eff.modify.
  unfold Eff.bind at 1, Eff.get. cbn [accountManager].
  rewrite Hget, Hstatus, Htr, Hst, !headsDiffer_same. cbn [negb orb].
  unfold maxRetries. cbn [retryLoop]. unfold Eff.bind at 1, Eff.bind at 1, onGateway.
  cbn [gateway tm_placeTrailStopLoss tradeManager].
  rewrite (placeTrailStopLoss_rejected _ _ _ _ what rest Hrej).
  cbn. rewrite lookup_insert_eq. auto.
Qed.

Lemma transport_failure_is_not_retried_witness :
  let w := liveWorld (storeWith "main" "XRPUSDT" midLadder) timeoutThenFine in
  let '(outcome, w') := checkTriggers tradeManager "main" "XRPUSDT" 0.516 w in
  outcome = Returned tt
  /\ requests (gateway w') = [GetAllOpenOrders "XRPUSDT"]
  /\ replies (gateway w')
     = [OpenOrders []; ExchangeInfo [xrpInfo]; Cancelled; OrderPlaced 7]
  /\ AccountManager.getPositionData "main" "XRPUSDT" (accountManager w') = Some midLadder.
Proof.
  intros w.
  assert (Hget : AccountManager.getPositionData "main" "XRPUSDT" (accountManager w)
                 = Some midLadder) by (vm_compute; reflexivity).
  assert (Hfree : processingTriggers w !! lockKeyOf "main" "XRPUSDT" = None)
    by (vm_compute; reflexivity).
  assert (Hcross : triggerCondition (bool_decide (trigger_side midLadder = Some long))
                                    0.516 0.515 = true)
    by (vm_compute; reflexivity).
  pose proof (transport_failure_is_not_retried "main" "XRPUSDT" 0.516 w midLadder
                0.515 0.51099866 [0.52; 0.525] [0.51661965; 0.52230246]
                "timeout" [OpenOrders []; ExchangeInfo [xrpInfo]; Cancelled; OrderPlaced 7]
                Hget eq_refl eq_refl eq_refl Hfree Hcross eq_refl)
    as H.
  destruct (checkTriggers tradeManager "main" "XRPUSDT" 0.516 w) as [outcome w'].
  destruct H as (Hout & Hreq & Hrep & Ham & _).
  rewrite Ham. repeat split; assumption.
Defined.

Lemma returnsOnly_ret {S A} (P : A -> Prop) (a : A) :
  P a -> returnsOnly (S := S) P (Eff.ret a).
Proof. intros HP s a' s' [= <- _]. exact HP. Qed.

Lemma returnsOnly_throw {S A} (P : A -> Prop) (e : Error) :
  returnsOnly (S := S) P (Eff.throw e).
Proof. intros s a s' Heq. discriminate Heq. Qed.

Lemma returnsOnly_bind {S A B} (P : B -> Prop) (c : Eff S A) (k : A -> Eff S B) :
  (forall a, returnsOnly P (k a)) -> returnsOnly P (Eff.bind c k).
Proof.
  intros Hk s b s' Hrun. unfold Eff.bind in Hrun.
  destruct (c s) as [[a|e] s1]; [|discriminate]. exact (Hk a s1 b s' Hrun).
Qed.

Lemma returnsOnly_tryCatch {S A} (P : A -> Prop) (body : Eff S A)
    (handler : Error -> Eff S A) :
  returnsOnly P body -> (forall e, returnsOnly P (handler e)) ->
  returnsOnly P (Eff.tryCatch body handler).
Proof.
  intros Hb Hh s a s' Hrun. unfold Eff.tryCatch in Hrun.
  destruct (body s) as [[a0|e] s1] eqn:Hbody.
  - injection Hrun as <- <-. exact (Hb s a0 s1 Hbody).
  - exact (Hh e s1 a s' Hrun).
Qed.

(** [TradeManager.placeTrailStopLoss] never answers [false]: it returns
    [true] or throws, so the runner's retry loop cannot take a second turn. *)
Lemma placeTrailStopLoss_true_or_throws symbol_ forSide stopPrice :
  returnsOnly (fun placed => placed = true)
              (TradeManager.placeTrailStopLoss symbol_ forSide stopPrice).
Proof.
  unfold TradeManager.placeTrailStopLoss.
  apply returnsOnly_tryCatch; [|intros e; apply returnsOnly_throw].
  apply returnsOnly_bind. intros openOrders.
  destruct (find _ openOrders); [apply returnsOnly_ret; reflexivity|].
  apply returnsOnly_bind. intros [pp qp].
  apply returnsOnly_bind. intros _.
  apply returnsOnly_bind. intros _.
  apply returnsOnly_ret. reflexivity.
Qed.

(** So with the engine's own trade manager the bound of the loop is
    immaterial: any number of allowed turns behaves as a single turn, and
    the loop never runs out with [placed] false, which is the only way to
    the closing market order. *)
Lemma retryLoop_single_turn turns accountName symbol_ isLong stopPrice ts ss
    (w : World Gateway) :
  retryLoop tradeManager (S turns) accountName symbol_ isLong stopPrice ts ss w
  = retryLoop tradeManager 1 accountName symbol_ isLong stopPrice ts ss w
  /\ fst (retryLoop tradeManager (S turns) accountName symbol_ isLong stopPrice ts ss w)
     <> Returned false.
Proof.
  cbn [retryLoop]. unfold Eff.bind, onGateway.
  cbn [tm_placeTrailStopLoss tradeManager].
  destruct (TradeManager.placeTrailStopLoss symbol_ (if isLong then BUY else SELL)
              stopPrice (gateway w)) as [[[|]|e] g'] eqn:Hcall.
  - split; [reflexivity|].
    destruct (onAccounts _ _) as [[[]|e] w1]; cbn; intros Heq; discriminate Heq.
  - pose proof (placeTrailStopLoss_true_or_throws _ _ _ _ _ _ Hcall) as Hfalse.
    discriminate Hfalse.
  - split; [reflexivity | intros Heq; discriminate Heq].
Qed.

(** Against a trade manager that does answer [false], the loop takes its
    three turns and then closes the position; the ladder is left alone. *)
Example three_refusals_then_close :
  let w := {| accountManager := storeWith "main" "XRPUSDT" midLadder;
              processingTriggers := ∅;
              gateway := {| asked := [];
                            entryAnswer := {| success := true; error := None |};
                            trailAnswers := [Returned false; Returned false;
                                             Returned false; Returned true] |} |} in
  let w' := snd (checkTriggers recordingTradeManager "main" "XRPUSDT" 0.516 w) in
  asked (gateway w')
  = [AskedTrailStop "XRPUSDT" BUY 0.51099866; AskedTrailStop "XRPUSDT" BUY 0.51099866;
     AskedTrailStop "XRPUSDT" BUY 0.51099866; AskedClose "XRPUSDT"]
  /\ AccountManager.getPositionData "main" "XRPUSDT" (accountManager w') = Some midLadder.
Proof. vm_compute. split; reflexivity. Qed.

(** A placement that succeeds on the second turn moves the ladder up by one
    aligned pair. *)
Example second_turn_advances :
  let w := {| accountManager := storeWith "main" "XRPUSDT" midLadder;
              processingTriggers := ∅;
              gateway := {| asked := [];
                            entryAnswer := {| success := true; error := None |};
                            trailAnswers := [Returned false; Returned true] |} |} in
  let w' := snd (checkTriggers recordingTradeManager "main" "XRPUSDT" 0.516 w) in
  asked (gateway w')
  = [AskedTrailStop "XRPUSDT" BUY 0.51099866; AskedTrailStop "XRPUSDT" BUY 0.51099866]
  /\ option_map triggers
       (AccountManager.getPositionData "main" "XRPUSDT" (accountManager w'))
     = Some [0.52; 0.525]
  /\ option_map stop_prices
       (AccountManager.getPositionData "main" "XRPUSDT" (accountManager w'))
     = Some [0.51661965; 0.52230246].
Proof. vm_compute. repeat split; reflexivity. Qed.

(** Scenario S2, the repository's test: the ladder of S1 is swept by a
    rising price against a trade manager that always places the stop; each
    tick leaves only triggers above the price, and the last tick leaves
    none. *)
Example trigger_sweep :
  let prices := [0.5; 0.502; 0.504; 0.506; 0.508; 0.51; 0.512; 0.514; 0.516;
                 0.518; 0.52; 0.522; 0.524; 0.526] in
  let start :=
    recorderWorld
      (snd (calculateTriggers (pairSettingsOf testConfig) 0.5 long "main" "XRPUSDT" 5
              (storeWith "main" "XRPUSDT" enteredLong))) in
  let remaining (w : World Recorder) :=
    match AccountManager.getPositionData "main" "XRPUSDT" (accountManager w) with
    | Some p => triggers p
    | None => []
    end in
  let sweep (n : nat) :=
    fold_left (fun w price =>
                 snd (checkTriggers recordingTradeManager "main" "XRPUSDT" price w))
              (take n prices) start in
  length (remaining start) = 5%nat
  /\ remaining (sweep 14%nat) = []
  /\ forallb (fun n =>
       forallb (fun trigger =>
                  Number.gtb trigger (nth (n - 1) prices 0))
               (remaining (sweep n)))
       (seq 1 14) = true.
Proof. vm_compute. repeat split; reflexivity. Qed.

(** P6 for any trade manager: the ladder of a position is written by the
    runner only when a call of [placeTrailStopLoss] has returned [true]. *)
Section AdvanceOnlyAfterSuccess.
Context {G : Type}.
Variable tm : TradeManagerMethods G.

Lemma onGateway_store {A} (c : Eff G A) (w : World G) :
  accountManager (snd (onGateway c w)) = accountManager w.
Proof. unfold onGateway. destruct (c (gateway w)). reflexivity. Qed.

Lemma retryLoop_store turns accountName symbol_ isLong stopPrice ts ss (w : World G) :
  accountManager (snd (retryLoop tm turns accountName symbol_ isLong stopPrice ts ss w))
  = accountManager w
  \/ exists g g',
       tm_placeTrailStopLoss tm symbol_ (if isLong then BUY else SELL) stopPrice g
       = (Returned true, g').
Proof.
  revert w. induction turns as [|turns IH]; intros w; [left; reflexivity|].
  cbn [retryLoop]. unfold Eff.bind at 1, onGateway.
  destruct (tm_placeTrailStopLoss tm symbol_ (if isLong then BUY else SELL) stopPrice
              (gateway w)) as [[[|]|e] g'] eqn:Hcall.
  - right. eauto.
  - match goal with |- context [retryLoop _ _ _ _ _ _ _ _ ?w1] =>
      destruct (IH w1) as [Heq|Hok]; [left; rewrite Heq; reflexivity | right; exact Hok]
    end.
  - left. reflexivity.
Qed.

Lemma checkTriggers_writes_only_after_success accountName symbol_ currentPrice
    (w : World G) :
  accountManager (snd (checkTriggers tm accountName symbol_ currentPrice w))
  = accountManager w
  \/ exists forSide stopPrice g g',
       tm_placeTrailStopLoss tm symbol_ forSide stopPrice g = (Returned true, g').
Proof.
  unfold checkTriggers, Eff.bind at 1, Eff.get.
  destruct (AccountManager.getPositionData accountName symbol_ (accountManager w))
    as [p|]; [|left; reflexivity].
  destruct (negb (status p) || _ || _); [left; reflexivity|].
  destruct (default false _); [left; reflexivity|].
  destruct (triggers p) as [|trigger0 ts]; [left; reflexivity|].
  destruct (stop_prices p) as [|stop0 ss]; [left; reflexivity|].
  destruct (triggerCondition _ _ _); [|left; reflexivity].
  unfold Eff.tryFinally, Eff.tryCatch, Eff.bind at 1, setProcessing, Eff.modify.
  unfold Eff.bind at 1, Eff.get.
  match goal with |- context [if ?b then _ else _] => destruct b end;
    [left; reflexivity|].
  unfold Eff.bind at 1.
  match goal with |- context [retryLoop tm ?n ?a ?s ?l ?sp ?t1 ?t2 ?w1] =>
    pose proof (retryLoop_store n a s l sp t1 t2 w1) as Hloop;
    destruct (retryLoop tm n a s l sp t1 t2 w1) as [[[|]|e] w2]
  end; cbn [snd accountManager] in Hloop |- *.
  - destruct Hloop as [Heq|Hok]; [left; exact Heq | right; eauto].
  - match goal with |- context [onGateway ?c w2] =>
      pose proof (onGateway_store c w2) as Hg; destruct (onGateway c w2) as [[u|e] w3]
    end; unfold Eff.ret; cbn [snd accountManager] in Hg |- *;
      (destruct Hloop as [Heq|Hok]; [left; congruence | right; eauto]).
  - destruct Hloop as [Heq|Hok]; [left; exact Heq | right; eauto].
Qed.

End AdvanceOnlyAfterSuccess.

(** ** The ladder invariant *)

Section Preservation.
Context {S : Type} (I : S -> Prop).

Lemma preserves_ret {A} (a : A) : preserves I (Eff.ret a).
Proof. intros s Hs. exact Hs. Qed.

Lemma preserves_throw {A} (e : Error) : preserves I (Eff.throw (A := A) e).
Proof. intros s Hs. exact Hs. Qed.

Lemma preserves_get : preserves I Eff.get.
Proof. intros s Hs. exact Hs. Qed.

Lemma preserves_bind {A B} (c : Eff S A) (k : A -> Eff S B) :
  preserves I c -> (forall a, preserves I (k a)) -> preserves I (Eff.bind c k).
Proof.
  intros Hc Hk s Hs. unfold Eff.bind. specialize (Hc s Hs).
  destruct (c s) as [[a|e] s1]; [apply Hk; exact Hc | exact Hc].
Qed.

Lemma preserves_tryCatch {A} (body : Eff S A) (handler : Error -> Eff S A) :
  preserves I body -> (forall e, preserves I (handler e)) ->
  preserves I (Eff.tryCatch body handler).
Proof.
  intros Hb Hh s Hs. unfold Eff.tryCatch. specialize (Hb s Hs).
  destruct (body s) as [[a|e] s1]; [exact Hb | apply Hh; exact Hb].
Qed.

Lemma preserves_tryFinally {A} (body : Eff S A) (fin : Eff S unit) :
  preserves I body -> preserves I fin -> preserves I (Eff.tryFinally body fin).
Proof.
  intros Hb Hf s Hs. unfold Eff.tryFinally. specialize (Hb s Hs).
  destruct (body s) as [r s1]. specialize (Hf s1 Hb).
  destruct (fin s1) as [[u|e] s2]; exact Hf.
Qed.

Lemma preserves_forOf {A} (xs : list A) (body : A -> Eff S unit) :
  (forall x, preserves I (body x)) -> preserves I (Eff.forOf xs body).
Proof.
  intros Hb. induction xs as [|x xs IH]; [apply preserves_ret|].
  cbn [Eff.forOf]. apply preserves_bind; [apply Hb | intros _; exact IH].
Qed.

End Preservation.

Lemma spread_aligned (p : Position) (u : PositionUpdates) :
  ladderAligned p -> keepsAligned u -> ladderAligned (spread p u).
Proof.
  unfold ladderAligned, keepsAligned, spread. cbn.
  destruct (new_triggers u), (new_stop_prices u); cbn; tauto.
Qed.

Lemma updatePosition_aligned (accountName symbol_ : string) (u : PositionUpdates) :
  keepsAligned u ->
  preserves storeAligned (AccountManager.updatePosition accountName symbol_ u).
Proof.
  intros Hu am Ham.
  destruct (AccountManager.getPositionData accountName symbol_ am) as [p|] eqn:Hget.
  - pose proof (Ham _ _ _ Hget) as Hp.
    apply getPositionData_Some in Hget as (account & Ha & Hpos).
    rewrite (updatePosition_present _ _ _ _ _ _ Ha Hpos). cbn [snd].
    intros a s q Hq. rewrite getPositionData_stored in Hq by assumption.
    destruct (decide (a = accountName /\ s = symbol_)).
    + injection Hq as <-. apply spread_aligned; assumption.
    + exact (Ham _ _ _ Hq).
  - destruct (updatePosition_missing accountName symbol_ u am Hget) as [e ->].
    exact Ham.
Qed.

Lemma initializePairs_aligned (pairs : list Pair) (ps : gmap string Position) (b : bool) :
  (forall s p, ps !! s = Some p -> ladderAligned p) ->
  forall s p, fst (AccountManager.initializePairs pairs (ps, b)) !! s = Some p ->
              ladderAligned p.
Proof.
  revert ps b. induction pairs as [|pr rest IH]; intros ps b Hps; [exact Hps|].
  cbn [AccountManager.initializePairs].
  destruct (ps !! symbol pr) eqn:Hhas; apply IH; [exact Hps|].
  intros s p Hp. destruct (decide (s = symbol pr)) as [->|Hne].
  - rewrite lookup_insert_eq in Hp. injection Hp as <-. reflexivity.
  - rewrite lookup_insert_ne in Hp by auto. exact (Hps _ _ Hp).
Qed.

Lemma initializeAccountData_aligned (accountName : string) (pairs : list Pair) :
  preserves storeAligned (AccountManager.initializeAccountData accountName pairs).
Proof.
  intros am Ham.
  unfold AccountManager.initializeAccountData, Eff.bind at 1, Eff.get.
  set (start := match accountData am !! accountName with
                | Some td => (td, false)
                | None => ({| positions := ∅ |}, true)
                end).
  assert (Hstart : forall s p, positions (fst start) !! s = Some p -> ladderAligned p).
  { subst start. destruct (accountData am !! accountName) as [td|] eqn:Ha; cbn.
    - intros s p Hp. apply (Ham accountName s p).
      apply getPositionData_Some. eauto.
    - intros s p Hp. rewrite lookup_empty in Hp. discriminate. }
  destruct start as [account initialized]. cbn [fst] in Hstart.
  pose proof (initializePairs_aligned pairs (positions account) initialized Hstart)
    as Hps.
  destruct (AccountManager.initializePairs pairs (positions account, initialized))
    as [ps initialized'].
  cbn [fst] in Hps.
  assert (Hfinal : forall fw, storeAligned
            {| accountData := <[accountName := {| positions := ps |}]> (accountData am);
               fileWrites := fw |}).
  { intros fw a s p Hp. apply getPositionData_Some in Hp as (td & Ha & Hpos).
    cbn in Ha. destruct (decide (a = accountName)) as [->|Hne].
    - rewrite lookup_insert_eq in Ha. injection Ha as <-. exact (Hps _ _ Hpos).
    - rewrite lookup_insert_ne in Ha by auto.
      apply (Ham a s p). apply getPositionData_Some. eauto. }
  unfold Eff.bind, AccountManager.setAccountData, AccountManager.saveAccountData,
    Eff.modify, Eff.ret.
  destruct initialized'; cbn; apply Hfinal.
Qed.

Lemma processCandles_aligned config symbolCandles symbol_ candle :
  preserves storeAligned (Detector.processCandles config symbolCandles symbol_ candle).
Proof.
  unfold Detector.processCandles.
  destruct (symbolCandles !! symbol_) as [[|h0 rest]|];
    try apply preserves_throw.
  destruct (find _ (pairs config)); [|apply preserves_throw].
  match goal with |- context [if ?b then _ else _] => destruct b end;
    [|apply preserves_ret].
  apply preserves_bind; [|intros _; apply preserves_ret].
  apply preserves_forOf. intros token. apply updatePosition_aligned. exact I.
Qed.

Lemma calculateTriggers_aligned pairSettings entryPrice direction accountName symbol_ count :
  preserves storeAligned
            (calculateTriggers pairSettings entryPrice direction accountName symbol_ count).
Proof.
  intros am Ham. unfold calculateTriggers, Eff.bind at 1, Eff.get.
  destruct (AccountManager.getPositionData accountName symbol_ am) as [p|];
    [|exact Ham].
  destruct (movement_threshold p) as [m|]; [|exact Ham].
  destruct (negb (Number.truthy m)); [exact Ham|].
  destruct (pairSettings !! symbol_) as [pairConfig|]; [|exact Ham].
  pose proof (loop_lengths entryPrice m (fees_exemption_percentage pairConfig)
                direction count 1
                (Ladder.initialStopPrice entryPrice m
                   (fees_exemption_percentage pairConfig) direction)
                [] [] eq_refl) as Hlen.
  destruct (Ladder.loop _ _ _ _ _ _ _ _ _) as [ts ss]. cbn [fst snd] in Hlen.
  revert am Ham.
  change (preserves storeAligned
            (AccountManager.updatePosition accountName symbol_
               {| new_status := None; new_entry_price := None;
                  new_triggers := Some ts; new_stop_prices := Some ss;
                  new_trigger_side := Some (Some direction);
                  new_lock_close_price := None; new_movement_threshold := None;
                  new_is_placing_stop_loss_running := None |} ;;
             Eff.ret (ts, ss))).
  apply preserves_bind; [|intros _; apply preserves_ret].
  apply updatePosition_aligned. exact Hlen.
Qed.

Lemma handleAccountUpdate_aligned accountName updatedPositions :
  preserves storeAligned (TradeManager.handleAccountUpdate accountName updatedPositions).
Proof.
  unfold TradeManager.handleAccountUpdate. apply preserves_forOf. intros position.
  destruct (Qeq_bool (TradeManager.positionAmount position) 0);
    apply updatePosition_aligned; [reflexivity | exact I].
Qed.

Section WorldPreservation.
Context {G : Type}.
Variable tm : TradeManagerMethods G.

Lemma onAccounts_aligned {A} (c : Eff AccountManager A) :
  preserves storeAligned c -> preserves (worldAligned G) (onAccounts c).
Proof.
  intros Hc w Hw. unfold onAccounts, worldAligned in *. specialize (Hc _ Hw).
  destruct (c (accountManager w)). exact Hc.
Qed.

Lemma onGateway_aligned {A} (c : Eff G A) : preserves (worldAligned G) (onGateway c).
Proof.
  intros w Hw. unfold onGateway, worldAligned in *.
  destruct (c (gateway w)). exact Hw.
Qed.

Lemma setProcessing_aligned lockKey b :
  preserves (worldAligned G) (setProcessing (G := G) lockKey b).
Proof. intros w Hw. exact Hw. Qed.

Lemma setTriggers_aligned pairSettings accountName symbol_ currentPrice direction :
  preserves (worldAligned G)
            (setTriggers pairSettings accountName symbol_ currentPrice direction).
Proof.
  unfold setTriggers.
  apply preserves_tryCatch; [|intros e; apply preserves_ret].
  apply preserves_bind; [apply preserves_get|]. intros w.
  apply preserves_bind; [|intros _; apply preserves_ret].
  apply onAccounts_aligned, calculateTriggers_aligned.
Qed.

Lemma checkMovementThreshold_aligned pairSettings accountName symbol_ currentPrice :
  preserves (worldAligned G)
            (checkMovementThreshold tm pairSettings accountName symbol_ currentPrice).
Proof.
  unfold checkMovementThreshold.
  apply preserves_bind; [apply preserves_get|]. intros w.
  destruct (AccountManager.getPositionData _ _ _) as [p|]; [|apply preserves_ret].
  destruct (lock_close_price p) as [L|]; [|apply preserves_ret].
  destruct (Number.truthy L && negb (status p)); [|apply preserves_ret].
  destruct (movement_threshold p) as [m|]; [|apply preserves_ret].
  destruct (negb (Number.truthy m)); [apply preserves_ret|].
  destruct (pairSettings !! symbol_) as [pairConfig|]; [|apply preserves_throw].
  destruct (Number.geb _ _); [|destruct (Number.leb _ _); [|apply preserves_ret]];
    (apply preserves_bind; [apply onGateway_aligned|]);
    intros response; destruct (success response);
    try apply preserves_ret; apply setTriggers_aligned.
Qed.

Lemma retryLoop_aligned turns accountName symbol_ isLong stopPrice ts ss :
  length (drop 1 ts) = length (drop 1 ss) ->
  preserves (worldAligned G) (retryLoop tm turns accountName symbol_ isLong stopPrice ts ss).
Proof.
  intros Hlen. induction turns as [|turns IH]; [apply preserves_ret|].
  cbn [retryLoop]. apply preserves_bind; [apply onGateway_aligned|].
  intros [|]; [|exact IH].
  apply preserves_bind;
    [apply onAccounts_aligned, updatePosition_aligned; exact Hlen|].
  intros _. apply preserves_bind; [apply setProcessing_aligned|].
  intros _. apply preserves_ret.
Qed.

Lemma checkTriggers_aligned accountName symbol_ currentPrice :
  preserves (worldAligned G) (checkTriggers tm accountName symbol_ currentPrice).
Proof.
  intros w Hw. unfold checkTriggers, Eff.bind at 1, Eff.get.
  destruct (AccountManager.getPositionData accountName symbol_ (accountManager w))
    as [p|] eqn:Hget; [|exact Hw].
  pose proof (Hw _ _ _ Hget) as Hp. unfold ladderAligned in Hp.
  destruct (negb (status p) || _ || _); [exact Hw|].
  destruct (default false _); [exact Hw|].
  destruct (triggers p) as [|trigger0 ts] eqn:Hts; [exact Hw|].
  destruct (stop_prices p) as [|stop0 ss] eqn:Hss; [exact Hw|].
  destruct (triggerCondition _ _ _); [|exact Hw].
  revert w Hw Hget.
  match goal with |- forall w, _ -> _ -> worldAligned G (snd (?c w)) =>
    enough (Hc : preserves (worldAligned G) c) by (intros w Hw _; apply Hc; exact Hw)
  end.
  apply preserves_tryFinally; [|apply setProcessing_aligned].
  apply preserves_tryCatch; [|intros e; apply preserves_ret].
  apply preserves_bind; [apply setProcessing_aligned|]. intros _.
  apply preserves_bind; [apply preserves_get|]. intros w'.
  match goal with |- context [if ?b then _ else _] => destruct b end;
    [apply setProcessing_aligned|].
  apply preserves_bind.
  - apply retryLoop_aligned. rewrite !length_drop.
    cbn [length] in Hp |- *. lia.
  - intros [|]; [apply preserves_ret | apply onGateway_aligned].
Qed.

Lemma perform_aligned config (op : Operation) :
  forall w, worldAligned G w -> worldAligned G (perform tm config op w).
Proof.
  destruct op; cbn [perform].
  - apply onAccounts_aligned, initializeAccountData_aligned.
  - apply onAccounts_aligned, processCandles_aligned.
  - apply onAccounts_aligned, calculateTriggers_aligned.
  - apply checkMovementThreshold_aligned.
  - apply checkTriggers_aligned.
  - apply onAccounts_aligned, handleAccountUpdate_aligned.
Qed.

End WorldPreservation.

(** C9.  [len(triggers) == len(stop_prices)] holds for every position after
    every sequence of state-changing operations (position initialization,
    the detector's arming, the ladder computation, entry and trigger ticks,
    account-update reconciliation) run, with any trade manager, from a
    store in which it holds; the operations may return or throw. *)
Theorem ladder_arrays_stay_aligned
    {G : Type} (tm : TradeManagerMethods G) (config : Config)
    (ops : list Operation) (w : World G) :
  storeAligned (accountManager w) ->
  forall accountName symbol_ p,
    AccountManager.getPositionData accountName symbol_
      (accountManager (performAll tm config ops w)) = Some p ->
    length (triggers p) = length (stop_prices p).
Proof.
  revert w. induction ops as [|op ops IH]; intros w Hw; [exact Hw|].
  cbn [performAll fold_left]. apply (IH (perform tm config op w)).
  apply (perform_aligned tm config op w Hw).
Qed.

Lemma emptyStore_aligned : storeAligned emptyStore.
Proof.
  intros a s p Hp. apply getPositionData_Some in Hp as (td & Ha & _).
  cbn in Ha. rewrite lookup_empty in Ha. discriminate.
Qed.

Lemma ladder_arrays_stay_aligned_witness :
  exists p,
    AccountManager.getPositionData "main" "XRPUSDT"
      (accountManager (performAll tradeManager testConfig session
                                  (liveWorld emptyStore sessionReplies)))
    = Some p
    /\ status p = true
    /\ length (triggers p) = 19%nat
    /\ length (triggers p) = length (stop_prices p).
Proof.
  eexists. split; [vm_compute; reflexivity|].
  split; [reflexivity|]. split; [reflexivity|].
  apply (ladder_arrays_stay_aligned tradeManager testConfig session
           (liveWorld emptyStore sessionReplies) emptyStore_aligned
           "main" "XRPUSDT").
  vm_compute. reflexivity.
Defined.

(** * Properties read off the code

    Edge cases, invariants and compositions of the embedded functions
    beyond the numbered claims of the specification. *)

(** ** The account store: initialization and deletion *)

Lemma tokenData_eta (td : TokenData) : {| positions := positions td |} = td.
Proof. destruct td. reflexivity. Qed.

Lemma accountManager_eta (am : AccountManager) :
  {| accountData := accountData am; fileWrites := fileWrites am |} = am.
Proof. destruct am. reflexivity. Qed.

Lemma initializePairs_lookup (pairs : list Pair) (ps : gmap string Position) (b : bool)
    (s : string) :
  fst (AccountManager.initializePairs pairs (ps, b)) !! s
  = match ps !! s with
    | Some p => Some p
    | None => if decide (s ∈ symbolsOf pairs) then Some AccountManager.initialPosition
              else None
    end.
Proof.
  revert ps b. induction pairs as [|pr rest IH]; intros ps b.
  - cbn. destruct (ps !! s); [reflexivity|].
    rewrite decide_False; [reflexivity | apply not_elem_of_nil].
  - cbn [AccountManager.initializePairs].
    destruct (ps !! symbol pr) as [q|] eqn:Hq; rewrite IH.
    + destruct (ps !! s) as [p|] eqn:Hs; [reflexivity|].
      unfold symbolsOf. cbn [map].
      destruct (decide (s ∈ map symbol rest)) as [Hin|Hnin].
      * rewrite decide_True; [reflexivity | apply list_elem_of_further; exact Hin].
      * rewrite decide_False; [reflexivity|].
        intros Hc. apply elem_of_cons in Hc as [->|Hc]; [congruence | contradiction].
    + unfold symbolsOf. cbn [map].
      destruct (decide (s = symbol pr)) as [->|Hne].
      * rewrite lookup_insert_eq, Hq.
        rewrite decide_True; [reflexivity | apply list_elem_of_here].
      * rewrite lookup_insert_ne by auto.
        destruct (ps !! s) as [p|]; [reflexivity|].
        destruct (decide (s ∈ map symbol rest)) as [Hin|Hnin].
        -- rewrite decide_True; [reflexivity | apply list_elem_of_further; exact Hin].
        -- rewrite decide_False; [reflexivity|].
           intros Hc. apply elem_of_cons in Hc as [->|Hc]; [congruence | contradiction].
Qed.

(** Nothing is created exactly when the flag stays as it was; the positions
    are then the very same map. *)
Lemma initializePairs_unchanged (pairs : list Pair) (ps : gmap string Position) :
  Forall (fun s => is_Some (ps !! s)) (symbolsOf pairs) ->
  forall b, AccountManager.initializePairs pairs (ps, b) = (ps, b).
Proof.
  induction pairs as [|pr rest IH]; intros Hall b; [reflexivity|].
  unfold symbolsOf in Hall. cbn [map] in Hall.
  apply Forall_cons in Hall as [[q Hq] Hrest].
  cbn [AccountManager.initializePairs]. rewrite Hq. apply IH. exact Hrest.
Qed.

Lemma initializePairs_flag (pairs : list Pair) (ps : gmap string Position) (b : bool) :
  snd (AccountManager.initializePairs pairs (ps, b)) = false ->
  b = false /\ fst (AccountManager.initializePairs pairs (ps, b)) = ps.
Proof.
  revert ps b. induction pairs as [|pr rest IH]; intros ps b; [cbn; auto|].
  cbn [AccountManager.initializePairs].
  destruct (ps !! symbol pr) as [q|] eqn:Hq; intros Hf.
  - apply IH. exact Hf.
  - apply IH in Hf as [Hf _]. discriminate Hf.
Qed.

Lemma initializeAccountData_run (accountName : string) (pairs : list Pair)
    (am : AccountManager) :
  let start := match accountData am !! accountName with
               | Some td => (positions td, false)
               | None => (∅, true)
               end in
  let result := AccountManager.initializePairs pairs start in
  let data := <[accountName := {| positions := fst result |}]> (accountData am) in
  AccountManager.initializeAccountData accountName pairs am
  = (Returned tt,
     {| accountData := data;
        fileWrites := if snd result then data :: fileWrites am else fileWrites am |}).
Proof.
  unfold AccountManager.initializeAccountData, Eff.bind at 1, Eff.get.
  destruct (accountData am !! accountName) as [td|];
    cbn -[AccountManager.initializePairs];
    match goal with |- context [AccountManager.initializePairs ?p ?a] =>
      destruct (AccountManager.initializePairs p a) as [ps [|]]
    end; reflexivity.
Qed.

Lemma initializeAccountData_lookup (accountName : string) (pairs : list Pair)
    (am : AccountManager) (a s : string) :
  AccountManager.getPositionData a s
    (snd (AccountManager.initializeAccountData accountName pairs am))
  = match AccountManager.getPositionData a s am with
    | Some p => Some p
    | None =>
        if decide (a = accountName /\ s ∈ symbolsOf pairs)
        then Some AccountManager.initialPosition
        else None
    end.
Proof.
  rewrite initializeAccountData_run.
  unfold AccountManager.getPositionData, AccountManager.getAccountData.
  cbn [snd accountData].
  destruct (decide (a = accountName)) as [->|Hne].
  - rewrite lookup_insert_eq. cbn [positions].
    destruct (accountData am !! accountName) as [td|] eqn:Ha.
    + rewrite initializePairs_lookup.
      destruct (positions td !! s); [reflexivity|].
      destruct (decide (s ∈ symbolsOf pairs)).
      * rewrite decide_True by auto. reflexivity.
      * rewrite decide_False; [reflexivity | intros [_ ?]; contradiction].
    + rewrite initializePairs_lookup, lookup_empty.
      destruct (decide (s ∈ symbolsOf pairs)).
      * rewrite decide_True by auto. reflexivity.
      * rewrite decide_False; [reflexivity | intros [_ ?]; contradiction].
  - rewrite lookup_insert_ne by auto.
    destruct (accountData am !! a) as [td|];
      [|rewrite decide_False; [reflexivity | intros [? _]; contradiction]].
    destruct (positions td !! s); [reflexivity|].
    rewrite decide_False; [reflexivity | intros [? _]; contradiction].
Qed.

Lemma initializeAccountData_written (accountName : string) (pairs : list Pair)
    (am : AccountManager) :
  let am' := snd (AccountManager.initializeAccountData accountName pairs am) in
  am' = am \/ fileWrites am' = accountData am' :: fileWrites am.
Proof.
  rewrite initializeAccountData_run. cbn [snd accountData fileWrites].
  destruct (accountData am !! accountName) as [td|] eqn:Ha.
  - destruct (snd (AccountManager.initializePairs pairs (positions td, false)))
      eqn:Hflag; [right; reflexivity|].
    left. apply initializePairs_flag in Hflag as [_ ->].
    rewrite tokenData_eta, insert_id by exact Ha. apply accountManager_eta.
  - destruct (snd (AccountManager.initializePairs pairs (∅, true))) eqn:Hflag;
      [right; reflexivity|].
    apply initializePairs_flag in Hflag as [Hf _]. discriminate Hf.
Qed.

Lemma initializeAccountData_returns (accountName : string) (pairs : list Pair)
    (am : AccountManager) :
  AccountManager.initializeAccountData accountName pairs am
  = (Returned tt, snd (AccountManager.initializeAccountData accountName pairs am)).
Proof. rewrite initializeAccountData_run. reflexivity. Qed.

(** X1.  For an account name and pair symbols that are ordinary names,
    [AccountManager.initializeAccountData] returns.  Afterwards every
    position that existed is exactly as it was, the position of every given
    pair that the account lacked is the initial one, and no other position
    has appeared.  Either nothing was missing, and then the manager is
    untouched and nothing is written, or the new document is written once. *)
Theorem initializeAccountData_creates_only_missing
    (accountName : string) (pairs : list Pair) (am : AccountManager) :
  ordinaryName accountName = true ->
  ordinaryPairs pairs = true ->
  exists am',
    AccountManager.initializeAccountData accountName pairs am = (Returned tt, am')
    /\ (forall a s,
          AccountManager.getPositionData a s am'
          = match AccountManager.getPositionData a s am with
            | Some p => Some p
            | None =>
                if decide (a = accountName /\ s ∈ symbolsOf pairs)
                then Some AccountManager.initialPosition
                else None
            end)
    /\ (am' = am \/ fileWrites am' = accountData am' :: fileWrites am).
Proof.
  intros _ _.
  exists (snd (AccountManager.initializeAccountData accountName pairs am)).
  split; [apply initializeAccountData_returns|]. split.
  - intros a s. apply initializeAccountData_lookup.
  - apply initializeAccountData_written.
Qed.

(** Start-up of account [main] with the pair of the test, on an empty
    store. *)
Lemma initializeAccountData_creates_only_missing_witness :
  exists am',
    AccountManager.initializeAccountData "main" [xrp] emptyStore = (Returned tt, am')
    /\ AccountManager.getPositionData "main" "XRPUSDT" am'
       = Some AccountManager.initialPosition
    /\ fileWrites am' = [accountData am'].
Proof.
  destruct (initializeAccountData_creates_only_missing "main" [xrp] emptyStore)
    as (am' & Hrun & Hget & Hwritten).
  - vm_compute. reflexivity.
  - vm_compute. reflexivity.
  - exists am'. split; [exact Hrun|]. split.
    + rewrite Hget. vm_compute. reflexivity.
    + vm_compute in Hrun. injection Hrun as <-. reflexivity.
Defined.

(** X2.  For an account name and pair symbols that are ordinary names,
    initializing an account a second time with the same pairs changes
    nothing and writes nothing: the call returns with the manager it was
    given. *)
Theorem initializeAccountData_idempotent
    (accountName : string) (pairs : list Pair) (am : AccountManager) :
  ordinaryName accountName = true ->
  ordinaryPairs pairs = true ->
  let am1 := snd (AccountManager.initializeAccountData accountName pairs am) in
  AccountManager.initializeAccountData accountName pairs am1 = (Returned tt, am1).
Proof.
  intros _ _ am1.
  pose proof (initializeAccountData_lookup accountName pairs am) as Hget.
  fold am1 in Hget.
  rewrite initializeAccountData_run.
  assert (Hacc : exists td, accountData am1 !! accountName = Some td).
  { unfold am1. rewrite initializeAccountData_run.
    cbn [snd accountData]. rewrite lookup_insert_eq. eauto. }
  destruct Hacc as [td Ha]. rewrite Ha.
  assert (Hall : Forall (fun s => is_Some (positions td !! s)) (symbolsOf pairs)).
  { apply Forall_forall. intros s Hs.
    specialize (Hget accountName s).
    unfold AccountManager.getPositionData, AccountManager.getAccountData in Hget.
    rewrite Ha in Hget. rewrite Hget.
    destruct (accountData am !! accountName) as [td0|].
    - destruct (positions td0 !! s); [eauto|].
      rewrite decide_True by auto. eauto.
    - rewrite decide_True by auto. eauto. }
  rewrite (initializePairs_unchanged pairs (positions td) Hall false). cbn [fst snd].
  rewrite tokenData_eta, insert_id by exact Ha.
  rewrite accountManager_eta. reflexivity.
Qed.

Lemma initializeAccountData_idempotent_witness :
  let am1 := snd (AccountManager.initializeAccountData "main" [xrp] emptyStore) in
  AccountManager.initializeAccountData "main" [xrp] am1 = (Returned tt, am1).
Proof.
  apply (initializeAccountData_idempotent "main" [xrp] emptyStore).
  - vm_compute. reflexivity.
  - vm_compute. reflexivity.
Defined.

Lemma deleteAccount_effect (accountName : string) (am : AccountManager) :
  match AccountManager.getAccountData accountName am with
  | None =>
      AccountManager.deleteAccount accountName am
      = (Thrown (AccountDoesNotExist accountName), am)
  | Some _ =>
      exists am',
        AccountManager.deleteAccount accountName am = (Returned tt, am')
        /\ AccountManager.getAccountData accountName am' = None
        /\ (forall a, a <> accountName ->
              AccountManager.getAccountData a am' = AccountManager.getAccountData a am)
        /\ fileWrites am' = accountData am' :: fileWrites am
        /\ (forall s u,
              AccountManager.updatePosition accountName s u am'
              = (Thrown (AccountDoesNotExist accountName), am'))
  end.
Proof.
  unfold AccountManager.getAccountData, AccountManager.deleteAccount,
    Eff.bind, Eff.get, Eff.throw.
  destruct (accountData am !! accountName) as [td|] eqn:Ha; [|reflexivity].
  eexists. split; [reflexivity|]. cbn [accountData fileWrites].
  split; [apply lookup_delete_eq|].
  split; [intros a Hne; apply lookup_delete_ne; auto|].
  split; [reflexivity|].
  intros s u. unfold AccountManager.updatePosition, Eff.bind, Eff.get.
  cbn [accountData]. rewrite lookup_delete_eq. reflexivity.
Qed.

Lemma deletePosition_missing (accountName symbol_ : string) (am : AccountManager) :
  AccountManager.getPositionData accountName symbol_ am = None ->
  AccountManager.deletePosition accountName symbol_ am
  = (Thrown (SymbolDoesNotExist symbol_ accountName), am).
Proof.
  unfold AccountManager.getPositionData, AccountManager.deletePosition,
    Eff.bind, Eff.get, Eff.throw.
  unfold AccountManager.getAccountData.
  destruct (accountData am !! accountName) as [td|] eqn:Ha; [|reflexivity].
  intros ->. reflexivity.
Qed.

Lemma deletePosition_present (accountName symbol_ : string) (am : AccountManager)
    (p : Position) :
  AccountManager.getPositionData accountName symbol_ am = Some p ->
  exists am',
    AccountManager.deletePosition accountName symbol_ am = (Returned tt, am')
    /\ AccountManager.getPositionData accountName symbol_ am' = None
    /\ (forall a s, ~ (a = accountName /\ s = symbol_) ->
          AccountManager.getPositionData a s am'
          = AccountManager.getPositionData a s am)
    /\ is_Some (AccountManager.getAccountData accountName am')
    /\ fileWrites am' = accountData am' :: fileWrites am.
Proof.
  unfold AccountManager.getPositionData, AccountManager.deletePosition,
    Eff.bind, Eff.get, Eff.throw.
  unfold AccountManager.getAccountData.
  destruct (accountData am !! accountName) as [td|] eqn:Ha; [|discriminate].
  intros Hp. rewrite Hp.
  eexists. split; [reflexivity|]. cbn [accountData fileWrites].
  split; [rewrite lookup_insert_eq; cbn; apply lookup_delete_eq|].
  split.
  - intros a s Hne. destruct (decide (a = accountName)) as [->|Ha'].
    + rewrite lookup_insert_eq, Ha. cbn [positions].
      apply lookup_delete_ne. intros ->. apply Hne. auto.
    + rewrite lookup_insert_ne by auto. reflexivity.
  - split; [rewrite lookup_insert_eq; eauto | reflexivity].
Qed.

(** X3.  For an account name and a symbol that are ordinary names,
    [AccountManager.deletePosition] throws, leaving the manager as it was,
    when the account or the position is missing.  Otherwise it removes
    that one position, keeps every other position and the account itself
    (also when no position is left in it), and writes the new document. *)
Theorem deletePosition_removes_position
    (accountName symbol_ : string) (am : AccountManager) :
  ordinaryName accountName = true ->
  ordinaryName symbol_ = true ->
  match AccountManager.getPositionData accountName symbol_ am with
  | None =>
      AccountManager.deletePosition accountName symbol_ am
      = (Thrown (SymbolDoesNotExist symbol_ accountName), am)
  | Some _ =>
      exists am',
        AccountManager.deletePosition accountName symbol_ am = (Returned tt, am')
        /\ AccountManager.getPositionData accountName symbol_ am' = None
        /\ (forall a s, ~ (a = accountName /\ s = symbol_) ->
              AccountManager.getPositionData a s am'
              = AccountManager.getPositionData a s am)
        /\ is_Some (AccountManager.getAccountData accountName am')
        /\ fileWrites am' = accountData am' :: fileWrites am
  end.
Proof.
  intros _ _.
  destruct (AccountManager.getPositionData accountName symbol_ am) as [p|] eqn:Hget.
  - exact (deletePosition_present accountName symbol_ am p Hget).
  - exact (deletePosition_missing accountName symbol_ am Hget).
Qed.

(** The one position of [main] is deleted; a symbol it does not hold is
    refused. *)
Lemma deletePosition_removes_position_witness :
  (exists am',
     AccountManager.deletePosition "main" "XRPUSDT" (storeWith "main" "XRPUSDT" midLadder)
     = (Returned tt, am')
     /\ AccountManager.getPositionData "main" "XRPUSDT" am' = None
     /\ is_Some (AccountManager.getAccountData "main" am'))
  /\ AccountManager.deletePosition "main" "BTCUSDT" (storeWith "main" "XRPUSDT" midLadder)
     = (Thrown (SymbolDoesNotExist "BTCUSDT" "main"),
        storeWith "main" "XRPUSDT" midLadder).
Proof.
  split.
  - pose proof (deletePosition_removes_position "main" "XRPUSDT"
                  (storeWith "main" "XRPUSDT" midLadder) eq_refl eq_refl) as Hd.
    destruct (AccountManager.getPositionData "main" "XRPUSDT"
                (storeWith "main" "XRPUSDT" midLadder)) as [p|] eqn:Hget;
      [|vm_compute in Hget; discriminate Hget].
    destruct Hd as (am' & Hrun & Hgone & _ & Hacc & _).
    exists am'. auto.
  - pose proof (deletePosition_removes_position "main" "BTCUSDT"
                  (storeWith "main" "XRPUSDT" midLadder) eq_refl eq_refl) as Hd.
    destruct (AccountManager.getPositionData "main" "BTCUSDT"
                (storeWith "main" "XRPUSDT" midLadder)) as [p|] eqn:Hget;
      [vm_compute in Hget; discriminate Hget|].
    exact Hd.
Defined.

(** X4.  Deleting a position and initializing the account again resets that
    position, and only that one, to the initial position: for an account
    that held a position for every given pair, all other positions are what
    they were before the deletion. *)
Theorem deletePosition_then_initialize_resets
    (accountName symbol_ : string) (pairs : list Pair) (am : AccountManager)
    (p : Position) :
  AccountManager.getPositionData accountName symbol_ am = Some p ->
  symbol_ ∈ symbolsOf pairs ->
  Forall (fun s => is_Some (AccountManager.getPositionData accountName s am))
         (symbolsOf pairs) ->
  exists am1 am2,
    AccountManager.deletePosition accountName symbol_ am = (Returned tt, am1)
    /\ AccountManager.initializeAccountData accountName pairs am1 = (Returned tt, am2)
    /\ AccountManager.getPositionData accountName symbol_ am2
       = Some AccountManager.initialPosition
    /\ (forall a s, ~ (a = accountName /\ s = symbol_) ->
          AccountManager.getPositionData a s am2
          = AccountManager.getPositionData a s am).
Proof.
  intros Hget Hin Hall.
  destruct (deletePosition_present accountName symbol_ am p Hget)
    as (am1 & Hrun1 & Hgone & Hframe1 & _ & _).
  pose proof (initializeAccountData_returns accountName pairs am1) as Hrun2.
  pose proof (initializeAccountData_lookup accountName pairs am1) as Hget2.
  set (am2 := snd (AccountManager.initializeAccountData accountName pairs am1)) in *.
  exists am1, am2. split; [exact Hrun1|]. split; [exact Hrun2|]. split.
  - rewrite Hget2, Hgone. rewrite decide_True by auto. reflexivity.
  - intros a s Hne. rewrite Hget2, (Hframe1 a s Hne).
    destruct (AccountManager.getPositionData a s am) as [q|] eqn:Hq; [reflexivity|].
    destruct (decide (a = accountName /\ s ∈ symbolsOf pairs)) as [[-> Hs]|]; [|reflexivity].
    apply (proj1 (Forall_forall _ _) Hall) in Hs. rewrite Hq in Hs.
    destruct Hs as [? Hs]. discriminate Hs.
Qed.

Lemma deletePosition_then_initialize_resets_witness :
  exists am1 am2,
    AccountManager.deletePosition "main" "XRPUSDT" (storeWith "main" "XRPUSDT" midLadder)
    = (Returned tt, am1)
    /\ AccountManager.initializeAccountData "main" [xrp] am1 = (Returned tt, am2)
    /\ AccountManager.getPositionData "main" "XRPUSDT" am2
       = Some AccountManager.initialPosition.
Proof.
  destruct (deletePosition_then_initialize_resets "main" "XRPUSDT" [xrp]
              (storeWith "main" "XRPUSDT" midLadder) midLadder)
    as (am1 & am2 & H1 & H2 & H3 & _).
  - vm_compute. reflexivity.
  - apply list_elem_of_here.
  - repeat constructor. exists midLadder. vm_compute. reflexivity.
  - exists am1, am2. auto.
Defined.

(** ** The token-keyed initialization *)

Lemma tokenKeyed_initializePairs_lookup (pairs : list Pair) (ps : gmap string Position)
    (b : bool) (s : string) :
  fst (TokenKeyed.initializePairs pairs (ps, b)) !! s
  = match ps !! s with
    | Some p => Some p
    | None => if decide (s ∈ symbolsOf pairs) then Some TokenKeyed.initialPosition
              else None
    end.
Proof.
  revert ps b. induction pairs as [|pr rest IH]; intros ps b.
  - cbn. destruct (ps !! s); [reflexivity|].
    rewrite decide_False; [reflexivity | apply not_elem_of_nil].
  - cbn [TokenKeyed.initializePairs].
    destruct (ps !! symbol pr) as [q|] eqn:Hq; rewrite IH.
    + destruct (ps !! s) as [p|] eqn:Hs; [reflexivity|].
      unfold symbolsOf. cbn [map].
      destruct (decide (s ∈ map symbol rest)) as [Hin|Hnin].
      * rewrite decide_True; [reflexivity | apply list_elem_of_further; exact Hin].
      * rewrite decide_False; [reflexivity|].
        intros Hc. apply elem_of_cons in Hc as [->|Hc]; [congruence | contradiction].
    + unfold symbolsOf. cbn [map].
      destruct (decide (s = symbol pr)) as [->|Hne].
      * rewrite lookup_insert_eq, Hq.
        rewrite decide_True; [reflexivity | apply list_elem_of_here].
      * rewrite lookup_insert_ne by auto.
        destruct (ps !! s) as [p|]; [reflexivity|].
        destruct (decide (s ∈ map symbol rest)) as [Hin|Hnin].
        -- rewrite decide_True; [reflexivity | apply list_elem_of_further; exact Hin].
        -- rewrite decide_False; [reflexivity|].
           intros Hc. apply elem_of_cons in Hc as [->|Hc]; [congruence | contradiction].
Qed.

Lemma tokenKeyed_initializePairs_flag (pairs : list Pair) (ps : gmap string Position)
    (b : bool) :
  snd (TokenKeyed.initializePairs pairs (ps, b)) = false ->
  b = false /\ fst (TokenKeyed.initializePairs pairs (ps, b)) = ps.
Proof.
  revert ps b. induction pairs as [|pr rest IH]; intros ps b; [cbn; auto|].
  cbn [TokenKeyed.initializePairs].
  destruct (ps !! symbol pr) as [q|] eqn:Hq; intros Hf.
  - apply IH. exact Hf.
  - apply IH in Hf as [Hf _]. discriminate Hf.
Qed.

Lemma getPositionData_positionIn a s am :
  AccountManager.getPositionData a s am = positionIn (accountData am) a s.
Proof. reflexivity. Qed.

Lemma positionIn_insert (data : gmap string TokenData) (t a s : string) (td : TokenData) :
  positionIn (<[t := td]> data) a s
  = if decide (a = t) then positions td !! s else positionIn data a s.
Proof.
  unfold positionIn. destruct (decide (a = t)) as [->|Hne].
  - rewrite lookup_insert_eq. reflexivity.
  - rewrite lookup_insert_ne by auto. reflexivity.
Qed.

Lemma initializeTokens_step (token : string) (rest : list string) (pairs : list Pair)
    (data : gmap string TokenData) (b : bool) :
  let start := match data !! token with
               | Some td => (positions td, b)
               | None => (∅, true)
               end in
  let result := TokenKeyed.initializePairs pairs start in
  TokenKeyed.initializeTokens (token :: rest) pairs (data, b)
  = TokenKeyed.initializeTokens rest pairs
      (<[token := {| positions := fst result |}]> data, snd result).
Proof.
  cbn [TokenKeyed.initializeTokens].
  destruct (data !! token) as [td|]; cbn -[TokenKeyed.initializePairs];
    match goal with |- context [TokenKeyed.initializePairs ?p ?a] =>
      destruct (TokenKeyed.initializePairs p a) as [ps b']
    end; reflexivity.
Qed.

Lemma initializeTokens_lookup (tokens : list string) (pairs : list Pair)
    (data : gmap string TokenData) (b : bool) (a s : string) :
  positionIn (fst (TokenKeyed.initializeTokens tokens pairs (data, b))) a s
  = match positionIn data a s with
    | Some p => Some p
    | None =>
        if decide (a ∈ tokens /\ s ∈ symbolsOf pairs)
        then Some TokenKeyed.initialPosition
        else None
    end.
Proof.
  revert data b. induction tokens as [|t rest IH]; intros data b.
  - cbn. destruct (positionIn data a s); [reflexivity|].
    rewrite decide_False; [reflexivity|]. intros [Hin _]. apply elem_of_nil in Hin. exact Hin.
  - rewrite initializeTokens_step. cbn zeta. rewrite IH. clear IH.
    rewrite positionIn_insert.
    destruct (decide (a = t)) as [->|Hne].
    + cbn [positions].
      unfold positionIn.
      destruct (data !! t) as [td|]; rewrite tokenKeyed_initializePairs_lookup.
      * destruct (positions td !! s); [reflexivity|].
        destruct (decide (s ∈ symbolsOf pairs)) as [Hs|Hs].
        -- rewrite decide_True; [reflexivity | split; [apply list_elem_of_here | exact Hs]].
        -- rewrite !decide_False; [reflexivity | |]; intros [_ ?]; contradiction.
      * rewrite lookup_empty.
        destruct (decide (s ∈ symbolsOf pairs)) as [Hs|Hs].
        -- rewrite decide_True; [reflexivity | split; [apply list_elem_of_here | exact Hs]].
        -- rewrite !decide_False; [reflexivity | |]; intros [_ ?]; contradiction.
    + destruct (positionIn data a s); [reflexivity|].
      destruct (decide (a ∈ rest /\ s ∈ symbolsOf pairs)) as [[Hr Hs]|Hn].
      * rewrite decide_True; [reflexivity | split; [apply list_elem_of_further; exact Hr | exact Hs]].
      * rewrite decide_False; [reflexivity|].
        intros [Hin Hs]. apply elem_of_cons in Hin as [->|Hin]; [contradiction|].
        apply Hn. auto.
Qed.

Lemma initializeTokens_flag (tokens : list string) (pairs : list Pair)
    (data : gmap string TokenData) (b : bool) :
  snd (TokenKeyed.initializeTokens tokens pairs (data, b)) = false ->
  b = false /\ fst (TokenKeyed.initializeTokens tokens pairs (data, b)) = data.
Proof.
  revert data b. induction tokens as [|t rest IH]; intros data b; [cbn; auto|].
  rewrite initializeTokens_step. cbn zeta. intros Hf.
  apply IH in Hf as [Hf Hdata]. rewrite Hdata. clear Hdata IH.
  destruct (data !! t) as [td|] eqn:Ht.
  - apply tokenKeyed_initializePairs_flag in Hf as [-> ->].
    split; [reflexivity|]. rewrite tokenData_eta. apply insert_id. exact Ht.
  - apply tokenKeyed_initializePairs_flag in Hf as [Hf _]. discriminate Hf.
Qed.

Lemma tokenKeyed_initializeAccountData_run (tokens : list string) (pairs : list Pair)
    (am : AccountManager) :
  let result := TokenKeyed.initializeTokens tokens pairs (accountData am, false) in
  TokenKeyed.initializeAccountData tokens pairs am
  = (Returned tt,
     {| accountData := fst result;
        fileWrites := if snd result then fst result :: fileWrites am
                      else fileWrites am |}).
Proof.
  unfold TokenKeyed.initializeAccountData, Eff.bind at 1, Eff.get.
  destruct (TokenKeyed.initializeTokens tokens pairs (accountData am, false))
    as [data [|]]; reflexivity.
Qed.

Lemma tokenKeyed_initializeAccountData_effect
    (tokens : list string) (pairs : list Pair) (am : AccountManager) :
  exists am',
    TokenKeyed.initializeAccountData tokens pairs am = (Returned tt, am')
    /\ (forall a s,
          AccountManager.getPositionData a s am'
          = match AccountManager.getPositionData a s am with
            | Some p => Some p
            | None =>
                if decide (a ∈ tokens /\ s ∈ symbolsOf pairs)
                then Some TokenKeyed.initialPosition
                else None
            end)
    /\ (am' = am \/ fileWrites am' = accountData am' :: fileWrites am).
Proof.
  rewrite tokenKeyed_initializeAccountData_run. eexists. split; [reflexivity|]. split.
  - intros a s. rewrite !getPositionData_positionIn. cbn [accountData].
    apply initializeTokens_lookup.
  - destruct (snd (TokenKeyed.initializeTokens tokens pairs (accountData am, false)))
      eqn:Hflag; [right; reflexivity|].
    left. apply initializeTokens_flag in Hflag as [_ ->]. apply accountManager_eta.
Qed.

(** X5.  After the start-up call [initializeAccountData(config.tokens,
    config.pairs)] of the token-keyed manager, whatever the file held, the
    detector does not throw on a closed candle of a configured symbol with a
    non-empty history: every configured token has a position to lock. *)
Theorem startup_lets_the_detector_run
    (config : Config) (am : AccountManager)
    (symbolCandles : gmap string (list Candle)) (symbol_ : string)
    (H : list Candle) (pairConfig : Pair) (c : Candle) :
  symbolCandles !! symbol_ = Some H ->
  H <> [] ->
  find (fun p => String.eqb (symbol p) symbol_) (pairs config) = Some pairConfig ->
  let started :=
    snd (TokenKeyed.initializeAccountData (tokens config) (pairs config) am) in
  exists triggered am',
    Detector.processCandles config symbolCandles symbol_ c started
    = (Returned triggered, am').
Proof.
  intros Hhist Hne Hcfg started.
  destruct (tokenKeyed_initializeAccountData_effect (tokens config) (pairs config) am)
    as (am1 & Hrun & Hget & _).
  assert (Heq : started = am1) by (unfold started; rewrite Hrun; reflexivity).
  rewrite Heq. clear started Heq.
  rewrite (processCandles_unfolded config symbolCandles symbol_ H pairConfig
             Hhist Hne Hcfg).
  destruct (codeDecision H pairConfig c); [|eauto].
  assert (Hs : symbol_ ∈ symbolsOf (pairs config)).
  { apply find_some in Hcfg as [Hin Heqb]. apply String.eqb_eq in Heqb. subst symbol_.
    unfold symbolsOf. apply list_elem_of_In. apply in_map. exact Hin. }
  destruct (patchAll_returns (tokens config) symbol_
              (Detector.lockUpdates c (codeThreshold H pairConfig)) am1)
    as [am' Hloop].
  - apply Forall_forall. intros a Ha. rewrite Hget.
    destruct (AccountManager.getPositionData a symbol_ am); [eauto|].
    rewrite decide_True by auto. eauto.
  - unfold Eff.bind. rewrite Hloop. cbn. eauto.
Qed.

Lemma startup_lets_the_detector_run_witness :
  exists triggered am',
    Detector.processCandles testConfig {[ "XRPUSDT" := [quiet] ]} "XRPUSDT" jump
      (snd (TokenKeyed.initializeAccountData ["main"] [xrp] emptyStore))
    = (Returned triggered, am').
Proof.
  apply (startup_lets_the_detector_run testConfig emptyStore
           {[ "XRPUSDT" := [quiet] ]} "XRPUSDT" [quiet] xrp jump).
  - vm_compute. reflexivity.
  - discriminate.
  - vm_compute. reflexivity.
Defined.

(** ** Write-through *)

Lemma written_inSync loaded am am' :
  fileWrites am' = accountData am' :: fileWrites am -> inSync loaded am'.
Proof. intros Hw. unfold inSync, onFile. rewrite Hw. reflexivity. Qed.

Lemma runCall_inSync loaded (c : StoreCall) (am : AccountManager) :
  inSync loaded am -> inSync loaded (snd (runCall c am)).
Proof.
  intros Hs. destruct c as [a pairs|tokens pairs|a s u|a|a s]; cbn [runCall].
  - destruct (initializeAccountData_written a pairs am) as [->|Hw];
      [exact Hs | exact (written_inSync _ _ _ Hw)].
  - destruct (tokenKeyed_initializeAccountData_effect tokens pairs am)
      as (am' & -> & _ & [->|Hw]); [exact Hs | exact (written_inSync _ _ _ Hw)].
  - destruct (AccountManager.getPositionData a s am) as [p|] eqn:Hget.
    + apply getPositionData_Some in Hget as (account & Ha & Hp).
      rewrite (updatePosition_present _ _ _ _ _ _ Ha Hp). reflexivity.
    + destruct (updatePosition_missing a s u am Hget) as [e ->]. exact Hs.
  - pose proof (deleteAccount_effect a am) as Hd.
    destruct (AccountManager.getAccountData a am).
    + destruct Hd as (am' & -> & _ & _ & Hw & _). exact (written_inSync _ _ _ Hw).
    + rewrite Hd. exact Hs.
  - destruct (AccountManager.getPositionData a s am) as [p|] eqn:Hget.
    + destruct (deletePosition_present a s am p Hget) as (am' & -> & _ & _ & _ & Hw).
      exact (written_inSync _ _ _ Hw).
    + rewrite (deletePosition_missing a s am Hget). exact Hs.
Qed.

Lemma runCalls_inSync loaded (calls : list StoreCall) (am : AccountManager) :
  inSync loaded am -> inSync loaded (runCalls calls am).
Proof.
  revert am. induction calls as [|c rest IH]; intros am Hs; [exact Hs|].
  cbn [runCalls fold_left]. apply IH. apply runCall_inSync. exact Hs.
Qed.

(** X6.  After any sequence of calls of the manager's public mutators on
    ordinary names, each of which returned or threw, the document last
    serialized for [fs.writeFile] (the loaded one while nothing has been
    written) was taken from the data now held in memory: no mutator changes
    the data without handing the new document to the file. *)
Theorem store_is_written_through
    (file : option (gmap string TokenData)) (calls : list StoreCall) :
  forallb ordinaryCall calls = true ->
  let am := runCalls calls (AccountManager.create file) in
  onFile (default ∅ file) am = accountData am.
Proof.
  intros _ am. apply runCalls_inSync. reflexivity.
Qed.

(** Start-up, a lock, a refused update and a deletion on a fresh store. *)
Lemma store_is_written_through_witness :
  let calls :=
    [CallInitialize "main" [xrp];
     CallUpdatePosition "main" "XRPUSDT" (Detector.lockUpdates jump 1);
     CallUpdatePosition "main" "BTCUSDT" TradeManager.clearedUpdates;
     CallDeletePosition "main" "XRPUSDT"] in
  let am := runCalls calls (AccountManager.create None) in
  onFile ∅ am = accountData am
  /\ length (fileWrites am) = 3%nat.
Proof.
  intros calls am. split.
  - apply (store_is_written_through None calls). vm_compute. reflexivity.
  - vm_compute. reflexivity.
Defined.

(** ** The candle history *)

Lemma lastEntries_length {A} (n : nat) (xs : list A) :
  length (lastEntries n xs) = Nat.min n (length xs).
Proof. unfold lastEntries. rewrite length_drop. lia. Qed.

Lemma lastEntries_app {A} (n : nat) (xs ys : list A) :
  lastEntries n (lastEntries n xs ++ ys) = lastEntries n (xs ++ ys).
Proof.
  unfold lastEntries at 1 3. rewrite !length_app, lastEntries_length.
  unfold lastEntries.
  destruct (Nat.le_gt_cases (length xs) n) as [Hle|Hgt].
  - replace (length xs - n)%nat with 0%nat by lia. rewrite drop_0.
    f_equal. lia.
  - replace (length xs + length ys - n)%nat
      with ((length xs - n) + (Nat.min n (length xs) + length ys - n))%nat by lia.
    rewrite <- drop_drop. f_equal.
    rewrite drop_app_le by lia. reflexivity.
Qed.

Lemma addCandleToQueue_window (candles : list Candle) (candle : Candle) (maxLength : nat) :
  (1 <= maxLength)%nat -> (length candles <= maxLength)%nat ->
  addCandleToQueue candles candle maxLength = lastEntries maxLength (candles ++ [candle]).
Proof.
  intros Hpos Hlen. unfold addCandleToQueue, lastEntries.
  rewrite length_app. cbn [length].
  destruct (maxLength <=? length candles)%nat eqn:Hfull.
  - apply Nat.leb_le in Hfull.
    replace (length candles + 1 - maxLength)%nat with 1%nat by lia.
    destruct candles as [|c rest]; [cbn in Hfull; lia | reflexivity].
  - apply Nat.leb_gt in Hfull.
    replace (length candles + 1 - maxLength)%nat with 0%nat by lia.
    reflexivity.
Qed.

(** X7.  The start-up loop that feeds the fetched candles to
    [addCandleToQueue] leaves, from a queue of at most 20 candles, the last
    20 of the queue followed by the fetched candles, in their order. *)
Theorem seedCandles_keeps_the_last_twenty (fetched queue : list Candle) :
  (length queue <= defaultMaxLength)%nat ->
  seedCandles fetched queue = lastEntries defaultMaxLength (queue ++ fetched).
Proof.
  revert queue. induction fetched as [|c rest IH]; intros queue Hlen.
  - cbn. rewrite app_nil_r. unfold lastEntries.
    replace (length queue - defaultMaxLength)%nat with 0%nat by lia. reflexivity.
  - unfold seedCandles in *. cbn [fold_left].
    rewrite addCandleToQueue_window by (unfold defaultMaxLength in *; lia).
    rewrite IH by (rewrite lastEntries_length; lia).
    rewrite lastEntries_app, <- app_assoc. reflexivity.
Qed.

Lemma seedCandles_keeps_the_last_twenty_witness :
  seedCandles [quiet; jump] [] = [quiet; jump].
Proof.
  apply (seedCandles_keeps_the_last_twenty [quiet; jump] []).
  unfold defaultMaxLength. cbn. lia.
Defined.

(** ** The closed-candle handler *)

Lemma onClosedCandle_throws (config : Config) (symbol_ : string) (c : Candle) (f : Feed) e am :
  Detector.processCandles config (symbolCandles f) symbol_ c (feedAccounts f)
  = (Thrown e, am) ->
  onClosedCandle config symbol_ c f
  = (Thrown e, {| feedAccounts := am; symbolCandles := symbolCandles f |}).
Proof. intros Hrun. unfold onClosedCandle. rewrite Hrun. reflexivity. Qed.

Lemma onClosedCandle_history (config : Config) (symbol_ other : string) (c : Candle)
    (f : Feed) :
  other <> symbol_ ->
  symbolCandles (snd (onClosedCandle config symbol_ c f)) !! other
  = symbolCandles f !! other.
Proof.
  intros Hne. unfold onClosedCandle.
  destruct (Detector.processCandles _ _ _ _ _) as [[r|e] am]; [|reflexivity].
  destruct (symbolCandles f !! symbol_) as [H|]; [|reflexivity].
  cbn. apply lookup_insert_ne. auto.
Qed.

Lemma processCandles_no_history (config : Config) (table : gmap string (list Candle))
    (symbol_ : string) (c : Candle) (am : AccountManager) :
  default [] (table !! symbol_) = [] ->
  Detector.processCandles config table symbol_ c am = (Thrown (NoCandlesFound symbol_), am).
Proof.
  intros Hempty. unfold Detector.processCandles.
  destruct (table !! symbol_) as [[|h rest]|]; [reflexivity | discriminate Hempty | reflexivity].
Qed.

(** X8.  A symbol whose history is empty stays without history: on each of
    its closed candles the handler throws [No candles found] out of the
    detector, before the line that appends the candle, so after any number
    of closed candles the history is still empty. *)
Theorem empty_history_is_never_filled
    (config : Config) (symbol_ : string) (messages : list (string * Candle)) (f : Feed) :
  symbolCandles f !! symbol_ = Some [] ->
  symbolCandles (afterClosedCandles config messages f) !! symbol_ = Some []
  /\ (forall c, onClosedCandle config symbol_ c f = (Thrown (NoCandlesFound symbol_), f)).
Proof.
  intros Hempty. split.
  - revert f Hempty. induction messages as [|[s c] rest IH]; intros f Hempty;
      [exact Hempty|].
    cbn [afterClosedCandles fold_left fst snd]. apply IH.
    destruct (decide (s = symbol_)) as [->|Hne].
    + rewrite (onClosedCandle_throws config symbol_ c f (NoCandlesFound symbol_)
                 (feedAccounts f)).
      * exact Hempty.
      * apply processCandles_no_history. rewrite Hempty. reflexivity.
    + rewrite onClosedCandle_history by auto. exact Hempty.
  - intros c.
    rewrite (onClosedCandle_throws config symbol_ c f (NoCandlesFound symbol_)
               (feedAccounts f)).
    + destruct f. reflexivity.
    + apply processCandles_no_history. rewrite Hempty. reflexivity.
Qed.

Lemma empty_history_is_never_filled_witness :
  symbolCandles (afterClosedCandles testConfig [("XRPUSDT", quiet); ("XRPUSDT", jump)]
                   emptyFeed) !! "XRPUSDT"
  = Some [].
Proof.
  apply (empty_history_is_never_filled testConfig "XRPUSDT"
           [("XRPUSDT", quiet); ("XRPUSDT", jump)] emptyFeed).
  vm_compute. reflexivity.
Defined.

Lemma updatePosition_keeps_known (accountName symbol_ : string) (u : PositionUpdates)
    (a s : string) :
  preserves (fun am => is_Some (AccountManager.getPositionData a s am))
            (AccountManager.updatePosition accountName symbol_ u).
Proof.
  intros am Hknown.
  destruct (AccountManager.getPositionData accountName symbol_ am) as [p|] eqn:Hget.
  - apply getPositionData_Some in Hget as (account & Ha & Hp).
    rewrite (updatePosition_present _ _ _ _ _ _ Ha Hp). cbn [snd].
    rewrite getPositionData_stored by assumption.
    destruct (decide (a = accountName /\ s = symbol_)); [eauto | exact Hknown].
  - destruct (updatePosition_missing accountName symbol_ u am Hget) as [e ->].
    exact Hknown.
Qed.

Lemma processCandles_keeps_known config table symbol_ c (a s : string) :
  preserves (fun am => is_Some (AccountManager.getPositionData a s am))
            (Detector.processCandles config table symbol_ c).
Proof.
  unfold Detector.processCandles.
  destruct (table !! symbol_) as [[|h0 rest]|]; try apply preserves_throw.
  destruct (find _ (pairs config)); [|apply preserves_throw].
  match goal with |- context [if ?b then _ else _] => destruct b end;
    [|apply preserves_ret].
  apply preserves_bind; [|intros _; apply preserves_ret].
  apply preserves_forOf. intros token. apply updatePosition_keeps_known.
Qed.

Lemma onClosedCandle_keeps_known config symbol_ c (s : string) (f : Feed) :
  tokensKnow config s (feedAccounts f) ->
  tokensKnow config s (feedAccounts (snd (onClosedCandle config symbol_ c f))).
Proof.
  unfold tokensKnow. intros Hall.
  assert (Hafter : Forall (fun a => is_Some (AccountManager.getPositionData a s
                      (snd (Detector.processCandles config (symbolCandles f) symbol_ c
                              (feedAccounts f))))) (tokens config)).
  { eapply Forall_impl; [exact Hall|]. intros a Ha.
    apply (processCandles_keeps_known config (symbolCandles f) symbol_ c a s _ Ha). }
  unfold onClosedCandle.
  destruct (Detector.processCandles _ _ _ _ _) as [[r|e] am]; [|exact Hafter].
  destruct (symbolCandles f !! symbol_); exact Hafter.
Qed.

Lemma onClosedCandle_appends config symbol_ (H : list Candle) pairConfig c (f : Feed) :
  symbolCandles f !! symbol_ = Some H ->
  H <> [] ->
  find (fun p => String.eqb (symbol p) symbol_) (pairs config) = Some pairConfig ->
  tokensKnow config symbol_ (feedAccounts f) ->
  symbolCandles (snd (onClosedCandle config symbol_ c f)) !! symbol_
  = Some (addCandleToQueue H c defaultMaxLength).
Proof.
  intros Hhist Hne Hcfg Hknown. unfold onClosedCandle.
  rewrite (processCandles_unfolded config (symbolCandles f) symbol_ H pairConfig
             Hhist Hne Hcfg).
  destruct (codeDecision H pairConfig c).
  - destruct (patchAll_returns (tokens config) symbol_
                (Detector.lockUpdates c (codeThreshold H pairConfig))
                (feedAccounts f) Hknown) as [am' Hloop].
    unfold Eff.bind. rewrite Hloop. cbn. rewrite Hhist. cbn.
    apply lookup_insert_eq.
  - rewrite Hhist. cbn. apply lookup_insert_eq.
Qed.

Lemma addCandleToQueue_nonempty (candles : list Candle) (c : Candle) (n : nat) :
  addCandleToQueue candles c n <> [].
Proof.
  unfold addCandleToQueue. intros Heq. apply app_eq_nil in Heq as [_ Heq].
  discriminate Heq.
Qed.

Lemma afterClosedCandles_cons config s c rest (f : Feed) :
  afterClosedCandles config ((s, c) :: rest) f
  = afterClosedCandles config rest (snd (onClosedCandle config s c f)).
Proof. reflexivity. Qed.

(** X9.  For a configured symbol with a non-empty history of at most 20
    candles and every configured token initialised, after any sequence of
    closed-candle messages the history of the symbol is the last 20 of the
    old history followed by the candles received for this symbol, in
    arrival order; candles of other symbols do not touch it. *)
Theorem history_is_the_last_twenty_closed_candles
    (config : Config) (symbol_ : string) (H : list Candle) (pairConfig : Pair)
    (messages : list (string * Candle)) (f : Feed) :
  symbolCandles f !! symbol_ = Some H ->
  H <> [] ->
  (length H <= defaultMaxLength)%nat ->
  find (fun p => String.eqb (symbol p) symbol_) (pairs config) = Some pairConfig ->
  Forall (fun a => is_Some (AccountManager.getPositionData a symbol_ (feedAccounts f)))
         (tokens config) ->
  symbolCandles (afterClosedCandles config messages f) !! symbol_
  = Some (lastEntries defaultMaxLength (H ++ candlesFor symbol_ messages)).
Proof.
  intros Hhist Hne Hlen Hcfg Hknown.
  revert f H Hhist Hne Hlen Hknown.
  induction messages as [|[s c] rest IH]; intros f H Hhist Hne Hlen Hknown.
  - cbn. rewrite app_nil_r. unfold lastEntries.
    replace (length H - defaultMaxLength)%nat with 0%nat by lia. exact Hhist.
  - rewrite afterClosedCandles_cons.
    unfold candlesFor. cbn [List.filter fst].
    destruct (String.eqb_spec s symbol_) as [->|Hs].
    + cbn [map snd].
      rewrite (IH (snd (onClosedCandle config symbol_ c f))
                  (addCandleToQueue H c defaultMaxLength)).
      * rewrite addCandleToQueue_window by (unfold defaultMaxLength in *; lia).
        fold (candlesFor symbol_ rest).
        rewrite lastEntries_app, <- app_assoc. reflexivity.
      * eapply onClosedCandle_appends; eassumption.
      * apply addCandleToQueue_nonempty.
      * rewrite addCandleToQueue_window by (unfold defaultMaxLength in *; lia).
        rewrite lastEntries_length. lia.
      * apply onClosedCandle_keeps_known. exact Hknown.
    + apply IH; try assumption.
      * rewrite onClosedCandle_history by auto. exact Hhist.
      * apply onClosedCandle_keeps_known. exact Hknown.
Qed.

Lemma history_is_the_last_twenty_closed_candles_witness :
  symbolCandles (afterClosedCandles testConfig [("XRPUSDT", jump)] quietFeed) !! "XRPUSDT"
  = Some [quiet; jump].
Proof.
  apply (history_is_the_last_twenty_closed_candles testConfig "XRPUSDT" [quiet] xrp
           [("XRPUSDT", jump)] quietFeed).
  - vm_compute. reflexivity.
  - discriminate.
  - unfold defaultMaxLength. cbn. lia.
  - vm_compute. reflexivity.
  - repeat constructor. eexists. vm_compute. reflexivity.
Defined.

(** ** The configuration tables *)

Lemma find_append {A} (f : A -> bool) (xs ys : list A) :
  find f (xs ++ ys) = match find f xs with Some x => Some x | None => find f ys end.
Proof.
  induction xs as [|x xs IH]; [reflexivity|]. cbn. destruct (f x); [reflexivity | exact IH].
Qed.

Lemma pairSettings_fold (pairs : list Pair) (acc : gmap string Pair) (s : string) :
  fold_left (fun acc p => <[symbol p := p]> acc) pairs acc !! s
  = match findPair s (rev pairs) with
    | Some p => Some p
    | None => acc !! s
    end.
Proof.
  revert acc. induction pairs as [|p rest IH]; intros acc; [reflexivity|].
  cbn [fold_left rev]. rewrite IH. unfold findPair. rewrite find_append.
  destruct (find _ (rev rest)) as [q|]; [reflexivity|].
  cbn [find]. destruct (String.eqb_spec (symbol p) s) as [<-|Hne].
  - apply lookup_insert_eq.
  - apply lookup_insert_ne. exact Hne.
Qed.

Lemma pairSettingsOf_lookup (config : Config) (symbol_ : string) :
  pairSettingsOf config !! symbol_ = findPair symbol_ (rev (pairs config)).
Proof.
  unfold pairSettingsOf. rewrite pairSettings_fold, lookup_empty.
  destruct (findPair symbol_ (rev (pairs config))); reflexivity.
Qed.

Lemma findPair_symbol s pairs p : findPair s pairs = Some p -> symbol p = s /\ In p pairs.
Proof.
  intros Hf. apply find_some in Hf as [Hin Heq]. apply String.eqb_eq in Heq. auto.
Qed.

Lemma findPair_none s pairs : findPair s pairs = None -> s ∉ symbolsOf pairs.
Proof.
  intros Hf Hin. unfold symbolsOf in Hin. apply list_elem_of_In, in_map_iff in Hin
    as (p & <- & Hp).
  pose proof (find_none _ _ Hf p Hp) as Hn. cbn in Hn.
  rewrite String.eqb_refl in Hn. discriminate Hn.
Qed.

Lemma findPair_unique s (pairs : list Pair) p :
  NoDup (symbolsOf pairs) -> In p pairs -> symbol p = s -> findPair s pairs = Some p.
Proof.
  induction pairs as [|q rest IH]; intros Hnd Hin Hs; [contradiction|].
  unfold symbolsOf in Hnd. cbn [map] in Hnd. apply NoDup_cons in Hnd as [Hq Hnd].
  unfold findPair. cbn [find].
  destruct (String.eqb_spec (symbol q) s) as [Heq|Hne].
  - destruct Hin as [->|Hin]; [reflexivity|].
    exfalso. apply Hq. rewrite Heq, <- Hs. apply list_elem_of_In, in_map. exact Hin.
  - destruct Hin as [->|Hin]; [contradiction|]. apply IH; assumption.
Qed.

Lemma findPair_rev_unique (symbol_ : string) (pairs : list Pair) :
  NoDup (symbolsOf pairs) -> findPair symbol_ (rev pairs) = findPair symbol_ pairs.
Proof.
  intros Hnd.
  destruct (findPair symbol_ pairs) as [p|] eqn:Hf.
  - apply findPair_symbol in Hf as [Hs Hin].
    apply findPair_unique; [| apply in_rev; rewrite rev_involutive; exact Hin | exact Hs].
    unfold symbolsOf. rewrite map_rev.
    apply NoDup_ListNoDup, List.NoDup_rev, NoDup_ListNoDup. exact Hnd.
  - destruct (findPair symbol_ (rev pairs)) as [q|] eqn:Hr; [|reflexivity].
    apply findPair_symbol in Hr as [Hs Hin]. apply in_rev in Hin.
    exfalso. apply (findPair_none _ _ Hf). rewrite <- Hs.
    apply list_elem_of_In, in_map. exact Hin.
Qed.

(** X10.  The [pairSettings] table gives, for a symbol, the last pair of the
    configuration with that symbol, where the detector's
    [config.pairs.find] gives the first; the two agree when no symbol is
    listed twice. *)
Theorem pairSettings_last_duplicate_wins (config : Config) (symbol_ : string) :
  pairSettingsOf config !! symbol_ = findPair symbol_ (rev (pairs config))
  /\ (NoDup (symbolsOf (pairs config)) ->
      pairSettingsOf config !! symbol_ = findPair symbol_ (pairs config)).
Proof.
  split; [apply pairSettingsOf_lookup|].
  intros Hnd. rewrite pairSettingsOf_lookup. apply findPair_rev_unique. exact Hnd.
Qed.

(** ** Rounding *)

Lemma pow10_pos (p : nat) : 0 < inject_Z (Z.pos (Number.pow10 p)).
Proof. unfold Qlt. cbn. lia. Qed.





Lemma toFixed_of_scaled (n : Z) (p : nat) :
  Number.toFixed (n # Number.pow10 p) p = (n # Number.pow10 p).
Proof.
  assert (Hscaled : forall k : Z, (0 <= k)%Z ->
            Number.nearestScaled (k # Number.pow10 p) p = k).
  { intros k Hk. unfold Number.nearestScaled.
    assert (Heq : (k # Number.pow10 p) * inject_Z (Z.pos (Number.pow10 p)) + (1 # 2)
                  == inject_Z k + (1 # 2)).
    { rewrite (Qmake_Qdiv k). field.
      pose proof (pow10_pos p) as Hd. intros Hz. rewrite Hz in Hd.
      apply (Qlt_irrefl _ Hd). }
    rewrite (Qfloor_comp _ _ Heq).
    assert (Hlo : (k <= Qfloor (inject_Z k + (1 # 2)))%Z).
    { rewrite <- (Qfloor_Z k) at 1. apply Qfloor_resp_le. lra. }
    assert (Hhi : (Qfloor (inject_Z k + (1 # 2)) < k + 1)%Z).
    { pose proof (Qfloor_le (inject_Z k + (1 # 2))) as Hfl.
      rewrite Zlt_Qlt, inject_Z_plus. change (inject_Z 1) with 1. lra. }
    lia. }
  unfold Number.toFixed.
  destruct (Qle_bool 0 (n # Number.pow10 p)) eqn:Hsign.
  - apply Qle_bool_iff in Hsign.
    assert (Hn : (0 <= n)%Z) by (unfold Qle in Hsign; cbn in Hsign; lia).
    rewrite Hscaled by exact Hn. reflexivity.
  - assert (Hn : (n < 0)%Z).
    { destruct (Z_lt_le_dec n 0) as [Hlt|Hge]; [exact Hlt|].
      assert (H0 : 0 <= n # Number.pow10 p) by (unfold Qle; cbn; lia).
      apply Qle_bool_iff in H0. congruence. }
    change (- (n # Number.pow10 p)) with ((- n)%Z # Number.pow10 p).
    rewrite Hscaled by lia. f_equal. lia.
Qed.

Lemma roundToPrecision_twice (value : Q) (precision : nat) :
  TradeManager.roundToPrecision (TradeManager.roundToPrecision value precision) precision
  = TradeManager.roundToPrecision value precision.
Proof.
  unfold TradeManager.roundToPrecision.
  destruct (toFixed_rounds value precision) as [[n Hn] _].
  rewrite Hn. apply toFixed_of_scaled.
Qed.

(** ** The shape of the ladder *)

Lemma Qmult_le_l_weak (x y z : Q) : 0 <= z -> x <= y -> z * x <= z * y.
Proof.
  intros Hz Hxy. rewrite (Qmult_comm z x), (Qmult_comm z y).
  apply Qmult_le_compat_r; assumption.
Qed.

Lemma percent (x : Q) : x / 100 == x * (1 # 100).
Proof. reflexivity. Qed.

Section LadderShape.
Variables (E m f : Q).
Hypothesis E_nonneg : 0 <= E.
Hypothesis m_nonneg : 0 <= m.
Hypothesis f_nonneg : 0 <= f.
Hypothesis below_all : m + f <= 100.

Lemma triggerPrice_long_monotone (i j : Z) :
  (i <= j)%Z -> Ladder.triggerPrice E m long i <= Ladder.triggerPrice E m long j.
Proof.
  intros Hij. unfold Ladder.triggerPrice. rewrite !percent.
  assert (Hinj : inject_Z i <= inject_Z j) by (rewrite <- Zle_Qle; exact Hij).
  assert (H1 : inject_Z i * m <= inject_Z j * m)
    by (apply Qmult_le_compat_r; assumption).
  apply Qmult_le_l_weak; [exact E_nonneg | lra].
Qed.

Lemma triggerPrice_short_monotone (i j : Z) :
  (i <= j)%Z -> Ladder.triggerPrice E m short j <= Ladder.triggerPrice E m short i.
Proof.
  intros Hij. unfold Ladder.triggerPrice. rewrite !percent.
  assert (Hinj : inject_Z i <= inject_Z j) by (rewrite <- Zle_Qle; exact Hij).
  assert (H1 : inject_Z i * m <= inject_Z j * m)
    by (apply Qmult_le_compat_r; assumption).
  apply Qmult_le_l_weak; [exact E_nonneg | lra].
Qed.

Lemma initialStopPrice_nonneg d : 0 <= Ladder.initialStopPrice E m f d.
Proof.
  unfold Ladder.initialStopPrice. destruct d; rewrite !percent;
    apply Qmult_le_0_compat; try exact E_nonneg; lra.
Qed.

Lemma stops_nonneg d (k : nat) :
  0 <= Nat.iter k (Ladder.stopPrice m f d) (Ladder.initialStopPrice E m f d).
Proof.
  induction k as [|k IH]; [apply initialStopPrice_nonneg|].
  rewrite Nat.iter_succ. unfold Ladder.stopPrice at 1.
  set (x := Nat.iter k _ _) in *.
  destruct d; rewrite !percent; apply Qmult_le_0_compat; try exact IH; lra.
Qed.

Lemma stops_long_step (k : nat) :
  Nat.iter k (Ladder.stopPrice m f long) (Ladder.initialStopPrice E m f long)
  <= Nat.iter (S k) (Ladder.stopPrice m f long) (Ladder.initialStopPrice E m f long).
Proof.
  rewrite Nat.iter_succ. unfold Ladder.stopPrice at 2.
  pose proof (stops_nonneg long k) as Hk.
  set (x := Nat.iter k _ _) in *. rewrite !percent.
  assert (H1 : x * 1 <= x * (1 + m * (1 # 100) + f * (1 # 100)))
    by (apply Qmult_le_l_weak; [exact Hk | lra]).
  lra.
Qed.

Lemma stops_short_step (k : nat) :
  Nat.iter (S k) (Ladder.stopPrice m f short) (Ladder.initialStopPrice E m f short)
  <= Nat.iter k (Ladder.stopPrice m f short) (Ladder.initialStopPrice E m f short).
Proof.
  rewrite Nat.iter_succ. unfold Ladder.stopPrice at 1.
  pose proof (stops_nonneg short k) as Hk.
  set (x := Nat.iter k _ _) in *. rewrite !percent.
  assert (H1 : x * (1 - m * (1 # 100) - f * (1 # 100)) <= x * 1)
    by (apply Qmult_le_l_weak; [exact Hk | lra]).
  lra.
Qed.

Lemma stops_long_monotone (i j : nat) :
  (i <= j)%nat ->
  Nat.iter i (Ladder.stopPrice m f long) (Ladder.initialStopPrice E m f long)
  <= Nat.iter j (Ladder.stopPrice m f long) (Ladder.initialStopPrice E m f long).
Proof.
  induction 1 as [|j Hij IH]; [apply Qle_refl|].
  eapply Qle_trans; [exact IH | apply stops_long_step].
Qed.

Lemma stops_short_monotone (i j : nat) :
  (i <= j)%nat ->
  Nat.iter j (Ladder.stopPrice m f short) (Ladder.initialStopPrice E m f short)
  <= Nat.iter i (Ladder.stopPrice m f short) (Ladder.initialStopPrice E m f short).
Proof.
  induction 1 as [|j Hij IH]; [apply Qle_refl|].
  eapply Qle_trans; [apply stops_short_step | exact IH].
Qed.


End LadderShape.



(** ** Invariants of the engines *)

Section WorldLifts.
Context {G : Type}.
Variable I : AccountManager -> Prop.

Lemma onAccounts_preserves {A} (c : Eff AccountManager A) :
  preserves I c -> preserves (fun w : World G => I (accountManager w)) (onAccounts c).
Proof.
  intros Hc w Hw. unfold onAccounts. specialize (Hc _ Hw).
  destruct (c (accountManager w)). exact Hc.
Qed.

Lemma onGateway_preserves {A} (c : Eff G A) :
  preserves (fun w : World G => I (accountManager w)) (onGateway c).
Proof. intros w Hw. unfold onGateway. destruct (c (gateway w)). exact Hw. Qed.

Lemma setProcessing_preserves k b :
  preserves (fun w : World G => I (accountManager w)) (setProcessing k b).
Proof. intros w Hw. exact Hw. Qed.

Lemma calculateTriggers_preserves pairSettings E d accountName symbol_ N :
  (forall ts ss, preserves I (AccountManager.updatePosition accountName symbol_
                                (ladderPatch ts ss d))) ->
  preserves I (calculateTriggers pairSettings E d accountName symbol_ N).
Proof.
  intros Hwrite am Ham. unfold calculateTriggers, Eff.bind at 1, Eff.get.
  destruct (AccountManager.getPositionData accountName symbol_ am) as [p|];
    [|exact Ham].
  destruct (movement_threshold p) as [m|]; [|exact Ham].
  destruct (negb (Number.truthy m)); [exact Ham|].
  destruct (pairSettings !! symbol_) as [pairConfig|]; [|exact Ham].
  destruct (Ladder.loop _ _ _ _ _ _ _ _ _) as [ts ss].
  revert am Ham.
  change (preserves I (AccountManager.updatePosition accountName symbol_
                         (ladderPatch ts ss d) ;; Eff.ret (ts, ss))).
  apply preserves_bind; [apply Hwrite | intros _; apply preserves_ret].
Qed.

End WorldLifts.

Section EnginePreserves.
Context {G : Type}.
Variable tm : TradeManagerMethods G.
Variable J : World G -> Prop.
Variables (accountName symbol_ : string).
Hypothesis gate : forall A (c : Eff G A), preserves J (onGateway c).

Lemma setTriggers_preserves pairSettings price d :
  (forall E, preserves J (onAccounts (calculateTriggers pairSettings E d accountName
                                        symbol_ defaultCount))) ->
  preserves J (setTriggers pairSettings accountName symbol_ price d).
Proof.
  intros Hcalc. unfold setTriggers.
  apply preserves_tryCatch; [|intros e; apply preserves_ret].
  apply preserves_bind; [apply preserves_get|]. intros w.
  apply preserves_bind; [apply Hcalc | intros _; apply preserves_ret].
Qed.

Lemma checkMovementThreshold_preserves pairSettings price :
  (forall E d, preserves J (onAccounts (calculateTriggers pairSettings E d accountName
                                          symbol_ defaultCount))) ->
  preserves J (checkMovementThreshold tm pairSettings accountName symbol_ price).
Proof.
  intros Hcalc. unfold checkMovementThreshold.
  apply preserves_bind; [apply preserves_get|]. intros w.
  destruct (AccountManager.getPositionData _ _ _) as [p|]; [|apply preserves_ret].
  destruct (lock_close_price p) as [L|]; [|apply preserves_ret].
  destruct (Number.truthy L && negb (status p)); [|apply preserves_ret].
  destruct (movement_threshold p) as [m|]; [|apply preserves_ret].
  destruct (negb (Number.truthy m)); [apply preserves_ret|].
  destruct (pairSettings !! symbol_) as [pairConfig|]; [|apply preserves_throw].
  destruct (Number.geb _ _); [|destruct (Number.leb _ _); [|apply preserves_ret]];
    (apply preserves_bind; [apply gate|]);
    intros response; destruct (success response);
    try apply preserves_ret; apply setTriggers_preserves; intros E; apply Hcalc.
Qed.

Hypothesis lock : forall b, preserves J (setProcessing (lockKeyOf accountName symbol_) b).

Lemma retryLoop_preserves turns isLong stopPrice ts ss :
  preserves J (onAccounts (AccountManager.updatePosition accountName symbol_
                             (ladderUpdates (drop 1 ts) (drop 1 ss)))) ->
  preserves J (retryLoop tm turns accountName symbol_ isLong stopPrice ts ss).
Proof.
  intros Hwrite. induction turns as [|turns IH]; [apply preserves_ret|].
  cbn [retryLoop]. apply preserves_bind; [apply gate|].
  intros [|]; [|exact IH].
  apply preserves_bind; [exact Hwrite|].
  intros _. apply preserves_bind; [apply lock|].
  intros _. apply preserves_ret.
Qed.

Lemma checkTriggers_preserves price :
  (forall ts ss, preserves J (onAccounts (AccountManager.updatePosition accountName
                                            symbol_ (ladderUpdates ts ss)))) ->
  preserves J (checkTriggers tm accountName symbol_ price).
Proof.
  intros Hwrite. unfold checkTriggers.
  apply preserves_bind; [apply preserves_get|]. intros w.
  destruct (AccountManager.getPositionData _ _ _) as [p|]; [|apply preserves_ret].
  destruct (negb (status p) || _ || _); [apply preserves_ret|].
  destruct (default false _); [apply preserves_ret|].
  destruct (triggers p) as [|trigger0 ts]; [apply preserves_ret|].
  destruct (stop_prices p) as [|stop0 ss]; [apply preserves_ret|].
  destruct (triggerCondition _ _ _); [|apply preserves_ret].
  apply preserves_tryFinally; [|apply lock].
  apply preserves_tryCatch; [|intros e; apply preserves_ret].
  apply preserves_bind; [apply lock|]. intros _.
  apply preserves_bind; [apply preserves_get|]. intros w'.
  match goal with |- context [if ?b then _ else _] => destruct b end; [apply lock|].
  apply preserves_bind; [apply retryLoop_preserves, Hwrite|].
  intros [|]; [apply preserves_ret | apply gate].
Qed.

End EnginePreserves.

(** ** The entry engine writes the ladder and nothing else *)

Lemma spread_ladderOnly (p : Position) (u : PositionUpdates) :
  ladderOnly u -> sameButLadder p (spread p u).
Proof.
  intros (H1 & H2 & H3 & H4 & H5). unfold sameButLadder, spread. cbn.
  rewrite H1, H2, H3, H4, H5. repeat split; reflexivity.
Qed.

Lemma sameButLadder_trans (p q r : Position) :
  sameButLadder p q -> sameButLadder q r -> sameButLadder p r.
Proof.
  unfold sameButLadder. intros (A1 & A2 & A3 & A4 & A5) (B1 & B2 & B3 & B4 & B5).
  repeat split; congruence.
Qed.

Lemma updatePosition_ladderOnly (accountName symbol_ a s : string)
    (o : option Position) (u : PositionUpdates) :
  ladderOnly u ->
  preserves (ladderWrittenAt accountName symbol_ a s o)
            (AccountManager.updatePosition accountName symbol_ u).
Proof.
  intros Hu am Hinv.
  destruct (AccountManager.getPositionData accountName symbol_ am) as [q|] eqn:Hget.
  2:{ destruct (updatePosition_missing accountName symbol_ u am Hget) as [e ->].
      exact Hinv. }
  pose proof Hget as Hget'.
  apply getPositionData_Some in Hget' as (account & Ha & Hp).
  rewrite (updatePosition_present _ _ _ _ _ _ Ha Hp). cbn [snd].
  unfold ladderWrittenAt in *. destruct o as [p|].
  - destruct Hinv as (p' & Hp' & Hsame & Hother).
    rewrite getPositionData_stored by assumption.
    destruct (decide (a = accountName /\ s = symbol_)) as [[-> ->]|Hne].
    + rewrite Hget in Hp'. injection Hp' as ->.
      eexists. split; [reflexivity|]. split.
      * eapply sameButLadder_trans; [exact Hsame | apply spread_ladderOnly, Hu].
      * intros Hn. exfalso. apply Hn. auto.
    + exists p'. auto.
  - rewrite getPositionData_stored by assumption.
    destruct (decide (a = accountName /\ s = symbol_)) as [[-> ->]|Hne];
      [congruence | exact Hinv].
Qed.

Lemma ladderWrittenAt_start accountName symbol_ a s am :
  ladderWrittenAt accountName symbol_ a s (AccountManager.getPositionData a s am) am.
Proof.
  unfold ladderWrittenAt.
  destruct (AccountManager.getPositionData a s am) as [p|] eqn:Hp; [|reflexivity].
  exists p. split; [reflexivity|]. split; [|reflexivity].
  repeat split; reflexivity.
Qed.

Lemma checkMovementThreshold_ladderWrittenAt {G} (tm : TradeManagerMethods G)
    pairSettings accountName symbol_ price a s o :
  preserves (fun w : World G =>
               ladderWrittenAt accountName symbol_ a s o (accountManager w))
            (checkMovementThreshold tm pairSettings accountName symbol_ price).
Proof.
  apply checkMovementThreshold_preserves.
  - intros A c. apply onGateway_preserves.
  - intros E d. apply onAccounts_preserves, calculateTriggers_preserves.
    intros ts ss. apply updatePosition_ladderOnly. repeat split; reflexivity.
Qed.

(** X13.  Whatever the trade manager answers, a run of
    [checkMovementThreshold] creates and deletes no position, leaves every
    position other than the one of its account and symbol as it was, and of
    that one changes at most [triggers], [stop_prices] and [trigger_side]:
    status, entry price, lock price and movement threshold are not written. *)
Theorem entry_engine_writes_only_the_ladder
    {G : Type} (tm : TradeManagerMethods G) (pairSettings : gmap string Pair)
    (accountName symbol_ : string) (currentPrice : Q) (w : World G) (a s : string) :
  let w' := snd (checkMovementThreshold tm pairSettings accountName symbol_
                   currentPrice w) in
  match AccountManager.getPositionData a s (accountManager w) with
  | Some p =>
      exists p',
        AccountManager.getPositionData a s (accountManager w') = Some p'
        /\ sameButLadder p p'
        /\ (~ (a = accountName /\ s = symbol_) -> p' = p)
  | None => AccountManager.getPositionData a s (accountManager w') = None
  end.
Proof.
  intros w'.
  change (ladderWrittenAt accountName symbol_ a s
            (AccountManager.getPositionData a s (accountManager w))
            (accountManager w')).
  apply (checkMovementThreshold_ladderWrittenAt tm pairSettings accountName symbol_
           currentPrice a s _ w).
  apply ladderWrittenAt_start.
Qed.

(** ** Each engine has its own positions *)

Lemma checkMovementThreshold_open {G} (tm : TradeManagerMethods G) pairSettings
    accountName symbol_ price (w : World G) p :
  AccountManager.getPositionData accountName symbol_ (accountManager w) = Some p ->
  status p = true ->
  checkMovementThreshold tm pairSettings accountName symbol_ price w = (Returned tt, w).
Proof.
  intros Hget Hstatus. unfold checkMovementThreshold, Eff.bind, Eff.get.
  rewrite Hget, Hstatus. destruct (lock_close_price p) as [L|]; [|reflexivity].
  rewrite andb_false_r. reflexivity.
Qed.

Lemma checkMovementThreshold_unknown {G} (tm : TradeManagerMethods G) pairSettings
    accountName symbol_ price (w : World G) :
  AccountManager.getPositionData accountName symbol_ (accountManager w) = None ->
  checkMovementThreshold tm pairSettings accountName symbol_ price w = (Returned tt, w).
Proof.
  intros Hget. unfold checkMovementThreshold, Eff.bind, Eff.get.
  rewrite Hget. reflexivity.
Qed.

Lemma checkTriggers_idle {G} (tm : TradeManagerMethods G)
    accountName symbol_ price (w : World G) :
  match AccountManager.getPositionData accountName symbol_ (accountManager w) with
  | Some p => status p = false
  | None => True
  end ->
  checkTriggers tm accountName symbol_ price w = (Returned tt, w).
Proof.
  intros Hidle. unfold checkTriggers, Eff.bind, Eff.get.
  destruct (AccountManager.getPositionData accountName symbol_ (accountManager w))
    as [p|]; [|reflexivity].
  rewrite Hidle. reflexivity.
Qed.

(** X14.  The two engines split the positions by their status, each deciding
    from the position it reads when it is called: [checkMovementThreshold]
    returns without a request and without a write for an open position,
    [checkTriggers] does so for a position that is not open, and both do
    for a symbol the account holds no position for. *)
Theorem engines_split_positions_by_status
    {G : Type} (tm : TradeManagerMethods G) (pairSettings : gmap string Pair)
    (accountName symbol_ : string) (currentPrice : Q) (w : World G) :
  match AccountManager.getPositionData accountName symbol_ (accountManager w) with
  | Some p =>
      if status p
      then checkMovementThreshold tm pairSettings accountName symbol_ currentPrice w
           = (Returned tt, w)
      else checkTriggers tm accountName symbol_ currentPrice w = (Returned tt, w)
  | None =>
      checkMovementThreshold tm pairSettings accountName symbol_ currentPrice w
      = (Returned tt, w)
      /\ checkTriggers tm accountName symbol_ currentPrice w = (Returned tt, w)
  end.
Proof.
  destruct (AccountManager.getPositionData accountName symbol_ (accountManager w))
    as [p|] eqn:Hget.
  - destruct (status p) eqn:Hstatus.
    + exact (checkMovementThreshold_open tm pairSettings accountName symbol_
               currentPrice w p Hget Hstatus).
    + apply checkTriggers_idle. rewrite Hget. exact Hstatus.
  - split.
    + exact (checkMovementThreshold_unknown tm pairSettings accountName symbol_
               currentPrice w Hget).
    + apply checkTriggers_idle. rewrite Hget. exact I.
Qed.

(** ** The trigger runner *)

Lemma tryFinally_returns {S A} (body : Eff S A) (fin : Eff S unit) (s : S) a :
  (forall s1, exists s2, fin s1 = (Returned tt, s2)) ->
  fst (body s) = Returned a ->
  fst (Eff.tryFinally body fin s) = Returned a.
Proof.
  intros Hfin Hbody. unfold Eff.tryFinally.
  destruct (body s) as [r s1]. cbn in Hbody. subst r.
  destruct (Hfin s1) as [s2 ->]. reflexivity.
Qed.

Lemma checkTriggers_returns {G} (tm : TradeManagerMethods G)
    accountName symbol_ price (w : World G) :
  fst (checkTriggers tm accountName symbol_ price w) = Returned tt.
Proof.
  unfold checkTriggers, Eff.bind at 1, Eff.get.
  destruct (AccountManager.getPositionData _ _ _) as [p|]; [|reflexivity].
  destruct (negb (status p) || _ || _); [reflexivity|].
  destruct (default false _); [reflexivity|].
  destruct (triggers p) as [|trigger0 ts]; [reflexivity|].
  destruct (stop_prices p) as [|stop0 ss]; [reflexivity|].
  destruct (triggerCondition _ _ _); [|reflexivity].
  apply tryFinally_returns; [intros s1; eexists; reflexivity|].
  unfold Eff.tryCatch.
  match goal with |- context [match ?c w with _ => _ end] =>
    destruct (c w) as [[[]|e] w1]
  end; reflexivity.
Qed.

Lemma setProcessing_other {G} (key other : string) (b : bool) (v : option bool) :
  other <> key ->
  preserves (fun w : World G => processingTriggers w !! other = v)
            (setProcessing key b).
Proof.
  intros Hne w Hw. cbn. rewrite lookup_insert_ne by auto. exact Hw.
Qed.

Lemma onGateway_processing {G A} (c : Eff G A) (P : gmap string bool -> Prop) :
  preserves (fun w : World G => P (processingTriggers w)) (onGateway c).
Proof. intros w Hw. unfold onGateway. destruct (c (gateway w)). exact Hw. Qed.

Lemma onAccounts_processing {G A} (c : Eff AccountManager A)
    (P : gmap string bool -> Prop) :
  preserves (fun w : World G => P (processingTriggers w)) (onAccounts c).
Proof. intros w Hw. unfold onAccounts. destruct (c (accountManager w)). exact Hw. Qed.

Lemma checkTriggers_other_locks {G} (tm : TradeManagerMethods G)
    accountName symbol_ price (other : string) (v : option bool) :
  other <> lockKeyOf accountName symbol_ ->
  preserves (fun w : World G => processingTriggers w !! other = v)
            (checkTriggers tm accountName symbol_ price).
Proof.
  intros Hne. apply checkTriggers_preserves.
  - intros A c. apply (onGateway_processing c (fun t => t !! other = v)).
  - intros b. apply setProcessing_other. exact Hne.
  - intros ts ss. apply (onAccounts_processing _ (fun t => t !! other = v)).
Qed.

Lemma checkTriggers_own_lock {G} (tm : TradeManagerMethods G)
    accountName symbol_ price (w : World G) :
  default false (processingTriggers (snd (checkTriggers tm accountName symbol_ price w))
                 !! lockKeyOf accountName symbol_)
  = default false (processingTriggers w !! lockKeyOf accountName symbol_).
Proof.
  unfold checkTriggers, Eff.bind at 1, Eff.get.
  destruct (AccountManager.getPositionData _ _ _) as [p|]; [|reflexivity].
  destruct (negb (status p) || _ || _); [reflexivity|].
  destruct (default false (processingTriggers w !! lockKeyOf accountName symbol_))
    eqn:Hheld; [cbn; exact Hheld|].
  destruct (triggers p) as [|trigger0 ts]; [cbn; exact Hheld|].
  destruct (stop_prices p) as [|stop0 ss]; [cbn; exact Hheld|].
  destruct (triggerCondition _ _ _); [|cbn; exact Hheld].
  unfold Eff.tryFinally.
  match goal with |- context [Eff.tryCatch ?b ?h w] =>
    destruct (Eff.tryCatch b h w) as [r w1]
  end.
  cbn. rewrite lookup_insert_eq. reflexivity.
Qed.

(** X15.  Whatever the trade manager does, [checkTriggers] returns (it never
    throws) and leaves every processing lock, read as a condition, as it
    found it: its own lock is released on every way out. *)
Theorem checkTriggers_returns_and_releases
    {G : Type} (tm : TradeManagerMethods G) (accountName symbol_ : string)
    (currentPrice : Q) (w : World G) :
  let run := checkTriggers tm accountName symbol_ currentPrice w in
  fst run = Returned tt
  /\ (forall key,
        default false (processingTriggers (snd run) !! key)
        = default false (processingTriggers w !! key)).
Proof.
  cbn zeta. split; [apply checkTriggers_returns|].
  intros key. destruct (decide (key = lockKeyOf accountName symbol_)) as [->|Hne].
  - apply checkTriggers_own_lock.
  - f_equal.
    apply (checkTriggers_other_locks tm accountName symbol_ currentPrice key
             (processingTriggers w !! key) Hne w).
    reflexivity.
Qed.

Lemma retryLoop_step {G} (tm : TradeManagerMethods G) turns accountName symbol_
    isLong stopPrice ts ss (w : World G) :
  retryLoop tm (S turns) accountName symbol_ isLong stopPrice ts ss w
  = let '(placed, g') :=
      tm_placeTrailStopLoss tm symbol_ (if isLong then BUY else SELL) stopPrice
                            (gateway w) in
    let w1 := {| accountManager := accountManager w;
                 processingTriggers := processingTriggers w;
                 gateway := g' |} in
    match placed with
    | Returned true =>
        let '(r, am1) :=
          AccountManager.updatePosition accountName symbol_
            (ladderUpdates (drop 1 ts) (drop 1 ss)) (accountManager w) in
        match r with
        | Returned _ =>
            (Returned true,
             {| accountManager := am1;
                processingTriggers :=
                  <[lockKeyOf accountName symbol_ := false]> (processingTriggers w);
                gateway := g' |})
        | Thrown e =>
            (Thrown e,
             {| accountManager := am1; processingTriggers := processingTriggers w;
                gateway := g' |})
        end
    | Returned false =>
        retryLoop tm turns accountName symbol_ isLong stopPrice ts ss w1
    | Thrown e => (Thrown e, w1)
    end.
Proof.
  cbn [retryLoop]. unfold Eff.bind at 1, onGateway.
  destruct (tm_placeTrailStopLoss tm symbol_ (if isLong then BUY else SELL) stopPrice
              (gateway w)) as [[[|]|e] g']; [|reflexivity|reflexivity].
  unfold Eff.bind, onAccounts, setProcessing, Eff.modify, Eff.ret.
  cbn [accountManager processingTriggers gateway].
  destruct (AccountManager.updatePosition _ _ _ (accountManager w)) as [[[]|e] am1];
    reflexivity.
Qed.

Lemma retryLoop_writes_once {G} (tm : TradeManagerMethods G) turns accountName symbol_
    isLong stopPrice ts ss (w : World G) :
  let am' := accountManager (snd (retryLoop tm turns accountName symbol_ isLong
                                    stopPrice ts ss w)) in
  am' = accountManager w
  \/ am' = snd (AccountManager.updatePosition accountName symbol_
                  (ladderUpdates (drop 1 ts) (drop 1 ss)) (accountManager w)).
Proof.
  cbn zeta. revert w. induction turns as [|turns IH]; intros w; [left; reflexivity|].
  rewrite retryLoop_step.
  destruct (tm_placeTrailStopLoss tm symbol_ (if isLong then BUY else SELL) stopPrice
              (gateway w)) as [[[|]|e] g']; cbn zeta.
  - right.
    destruct (AccountManager.updatePosition _ _ _ (accountManager w)) as [[[]|e] am1];
      reflexivity.
  - match goal with |- context [retryLoop _ _ _ _ _ _ _ _ ?w1] =>
      destruct (IH w1) as [Heq|Heq]; rewrite Heq; [left | right]; reflexivity
    end.
  - left. reflexivity.
Qed.

Lemma checkTriggers_store {G} (tm : TradeManagerMethods G) accountName symbol_
    currentPrice (w : World G) (am' : AccountManager) :
  am' = accountManager (snd (checkTriggers tm accountName symbol_ currentPrice w)) ->
  match AccountManager.getPositionData accountName symbol_ (accountManager w) with
  | None => am' = accountManager w
  | Some p =>
      am' = accountManager w
      \/ (status p = true
          /\ (exists trigger0,
                head (triggers p) = Some trigger0
                /\ triggerCondition (bool_decide (trigger_side p = Some long))
                                    currentPrice trigger0 = true)
          /\ am' = ladderAdvanced accountName symbol_ p (accountManager w))
  end.
Proof.
  unfold checkTriggers, Eff.bind at 1, Eff.get.
  destruct (AccountManager.getPositionData accountName symbol_ (accountManager w))
    as [p|] eqn:Hget; [|intros ->; reflexivity].
  destruct (status p) eqn:Hstatus; [|intros ->; left; reflexivity]. cbn [negb orb].
  destruct ((length (triggers p) =? 0)%nat || (length (stop_prices p) =? 0)%nat);
    [intros ->; left; reflexivity|].
  destruct (default false _); [intros ->; left; reflexivity|].
  destruct (triggers p) as [|trigger0 ts] eqn:Hts; [intros ->; left; reflexivity|].
  destruct (stop_prices p) as [|stop0 ss] eqn:Hss; [intros ->; left; reflexivity|].
  destruct (triggerCondition _ _ _) eqn:Hcross; [|intros ->; left; reflexivity].
  unfold Eff.tryFinally, Eff.tryCatch, Eff.bind at 1, setProcessing, Eff.modify.
  unfold Eff.bind at 1, Eff.get.
  match goal with |- context [if ?b then _ else _] => destruct b end;
    [intros ->; left; reflexivity|].
  unfold Eff.bind at 1.
  assert (Hadv : forall am1,
            am1 = snd (AccountManager.updatePosition accountName symbol_
                         (ladderUpdates (drop 1 (trigger0 :: ts)) (drop 1 (stop0 :: ss)))
                         (accountManager w)) ->
            am1 = ladderAdvanced accountName symbol_ p (accountManager w)).
  { intros am1 ->. unfold ladderAdvanced. rewrite Hts, Hss. reflexivity. }
  match goal with |- context [retryLoop tm ?n ?a ?s ?l ?sp ?t1 ?t2 ?w1] =>
    pose proof (retryLoop_writes_once tm n a s l sp t1 t2 w1) as Hloop;
    destruct (retryLoop tm n a s l sp t1 t2 w1) as [[[|]|e] w2]
  end; cbn [snd accountManager] in Hloop |- *.
  - intros ->. cbn [snd accountManager].
    destruct Hloop as [Heq|Heq]; [left; exact Heq|].
    right. split; [reflexivity|]. split; [eauto|]. apply Hadv. exact Heq.
  - unfold onGateway, Eff.ret.
    destruct (tm_closePosition tm symbol_ (gateway w2)) as [[u|e] g3];
      intros ->; cbn [snd accountManager];
      (destruct Hloop as [Heq|Heq]; [left; exact Heq|];
       right; split; [reflexivity|]; split; [eauto|]; apply Hadv; exact Heq).
  - intros ->. cbn [snd accountManager].
    destruct Hloop as [Heq|Heq]; [left; exact Heq|].
    right. split; [reflexivity|]. split; [eauto|]. apply Hadv. exact Heq.
Qed.

(** X16.  Whatever the trade manager does, a run of [checkTriggers] either
    leaves the account store as it was or, for an open position whose first
    trigger is crossed, leaves the store of a single [updatePosition] that
    drops the first trigger and the first stop price: one tick consumes at
    most one rung, however far the price has moved. *)
Theorem checkTriggers_drops_at_most_the_head
    {G : Type} (tm : TradeManagerMethods G) (accountName symbol_ : string)
    (currentPrice : Q) (w : World G) :
  let am' := accountManager (snd (checkTriggers tm accountName symbol_ currentPrice w)) in
  match AccountManager.getPositionData accountName symbol_ (accountManager w) with
  | None => am' = accountManager w
  | Some p =>
      am' = accountManager w
      \/ (status p = true
          /\ (exists trigger0,
                head (triggers p) = Some trigger0
                /\ triggerCondition (bool_decide (trigger_side p = Some long))
                                    currentPrice trigger0 = true)
          /\ am' = ladderAdvanced accountName symbol_ p (accountManager w))
  end.
Proof.
  intros am'. apply (checkTriggers_store tm). reflexivity.
Qed.

(** The runner on an open position whose first trigger is crossed while no
    run is in progress: what follows the retry loop. *)
Lemma checkTriggers_crossing {G} (tm : TradeManagerMethods G)
    accountName symbol_ currentPrice (w : World G) p trigger0 stop0 ts ss :
  AccountManager.getPositionData accountName symbol_ (accountManager w) = Some p ->
  status p = true ->
  triggers p = trigger0 :: ts ->
  stop_prices p = stop0 :: ss ->
  default false (processingTriggers w !! lockKeyOf accountName symbol_) = false ->
  triggerCondition (bool_decide (trigger_side p = Some long)) currentPrice trigger0
  = true ->
  let key := lockKeyOf accountName symbol_ in
  checkTriggers tm accountName symbol_ currentPrice w
  = let '(r, w2) :=
      retryLoop tm maxRetries accountName symbol_
                (bool_decide (trigger_side p = Some long)) stop0
                (trigger0 :: ts) (stop0 :: ss) (withProcessing key true w) in
    match r with
    | Returned false =>
        (Returned tt,
         withProcessing key false (snd (onGateway (tm_closePosition tm symbol_) w2)))
    | _ => (Returned tt, withProcessing key false w2)
    end.
Proof.
  intros Hget Hstatus Htr Hst Hfree Hcross key.
  unfold checkTriggers, Eff.bind at 1, Eff.get.
  rewrite Hget, Hstatus, Htr, Hst. cbn [negb length Nat.eqb orb].
  rewrite Hfree, Hcross.
  unfold Eff.tryFinally, Eff.tryCatch, Eff.bind at 1, setProcessing, Eff.modify.
  unfold Eff.bind at 1, Eff.get. cbn [accountManager].
  rewrite Hget, Hstatus, Htr, Hst, !headsDiffer_same. cbn [negb orb].
  unfold Eff.bind at 1. subst key. fold (withProcessing (lockKeyOf accountName symbol_) true w).
  destruct (retryLoop tm maxRetries accountName symbol_ _ stop0 _ _ _)
    as [[[|]|e] w2]; try reflexivity.
  unfold Eff.ret.
  destruct (onGateway (tm_closePosition tm symbol_) w2) as [[[]|e] w3]; reflexivity.
Qed.

(** X17.  With the engine's own [TradeManager], a crossed first trigger of an
    open, unlocked position leads to exactly one call of
    [placeTrailStopLoss]: the gateway afterwards is the gateway after that
    call, the ladder is advanced if the call returned and is unchanged if it
    threw, and the lock is released. *)
Theorem checkTriggers_makes_one_attempt
    (accountName symbol_ : string) (currentPrice : Q) (w : World Gateway)
    (p : Position) (trigger0 stop0 : Q) (ts ss : list Q) :
  AccountManager.getPositionData accountName symbol_ (accountManager w) = Some p ->
  status p = true ->
  triggers p = trigger0 :: ts ->
  stop_prices p = stop0 :: ss ->
  default false (processingTriggers w !! lockKeyOf accountName symbol_) = false ->
  triggerCondition (bool_decide (trigger_side p = Some long)) currentPrice trigger0
  = true ->
  let attempt :=
    TradeManager.placeTrailStopLoss
      symbol_ (if bool_decide (trigger_side p = Some long) then BUY else SELL) stop0
      (gateway w) in
  exists w',
    checkTriggers tradeManager accountName symbol_ currentPrice w = (Returned tt, w')
    /\ gateway w' = snd attempt
    /\ processingTriggers w' !! lockKeyOf accountName symbol_ = Some false
    /\ accountManager w'
       = match fst attempt with
         | Returned _ =>
             snd (AccountManager.updatePosition accountName symbol_
                    (ladderUpdates ts ss) (accountManager w))
         | Thrown _ => accountManager w
         end.
Proof.
  intros Hget Hstatus Htr Hst Hfree Hcross attempt.
  rewrite (checkTriggers_crossing tradeManager accountName symbol_ currentPrice w p
             trigger0 stop0 ts ss Hget Hstatus Htr Hst Hfree Hcross).
  unfold maxRetries. rewrite retryLoop_step.
  cbn [tm_placeTrailStopLoss tradeManager withProcessing gateway accountManager
       processingTriggers].
  fold attempt. destruct attempt as [[[|]|e] g'] eqn:Hattempt; cbn zeta.
  - change (drop 1 (trigger0 :: ts)) with ts. change (drop 1 (stop0 :: ss)) with ss.
    destruct (AccountManager.updatePosition accountName symbol_ (ladderUpdates ts ss)
                (accountManager w)) as [[[]|e] am1];
      eexists; (split; [reflexivity|]); cbn;
      rewrite lookup_insert_eq; auto.
  - pose proof (placeTrailStopLoss_true_or_throws _ _ _ _ _ _ Hattempt) as Hfalse.
    discriminate Hfalse.
  - eexists. split; [reflexivity|]. cbn. rewrite lookup_insert_eq. auto.
Qed.

Lemma checkTriggers_makes_one_attempt_witness :
  exists w',
    checkTriggers tradeManager "main" "XRPUSDT" 0.516
                  (liveWorld (storeWith "main" "XRPUSDT" midLadder) placingReplies)
    = (Returned tt, w')
    /\ processingTriggers w' !! lockKeyOf "main" "XRPUSDT" = Some false.
Proof.
  destruct (checkTriggers_makes_one_attempt "main" "XRPUSDT" 0.516
              (liveWorld (storeWith "main" "XRPUSDT" midLadder) placingReplies)
              midLadder 0.515 0.51099866 [0.52; 0.525] [0.51661965; 0.52230246])
    as (w' & Hrun & _ & Hlock & _).
  - vm_compute. reflexivity.
  - reflexivity.
  - reflexivity.
  - reflexivity.
  - vm_compute. reflexivity.
  - vm_compute. reflexivity.
  - exists w'. auto.
Defined.

(** ** Lock keys *)

Lemma containsHyphen_app (a b : string) :
  containsHyphen (a ++ "-" ++ b) = true.
Proof.
  change (containsHyphen (a ++ String hyphen b) = true).
  induction a as [|c a IH]; [reflexivity|].
  change (Ascii.eqb c hyphen || containsHyphen (a ++ String hyphen b) = true).
  rewrite IH. apply orb_true_r.
Qed.

(** X18.  The lock key [`${accountName}-${symbol}`] identifies the account
    and the symbol as long as symbols contain no hyphen: two keys are equal
    only for the same account and the same symbol. *)
Theorem lockKeyOf_injective (account1 symbol1 account2 symbol2 : string) :
  containsHyphen symbol1 = false ->
  containsHyphen symbol2 = false ->
  lockKeyOf account1 symbol1 = lockKeyOf account2 symbol2 ->
  account1 = account2 /\ symbol1 = symbol2.
Proof.
  intros H1 H2. unfold lockKeyOf. revert account2.
  induction account1 as [|c a1 IH]; intros [|c' a2] Heq.
  - change (String hyphen symbol1 = String hyphen symbol2) in Heq.
    injection Heq as ->. auto.
  - change (String hyphen symbol1 = String c' (a2 ++ "-" ++ symbol2)) in Heq.
    injection Heq as <- Heq. subst symbol1.
    rewrite containsHyphen_app in H1. discriminate H1.
  - change (String c (a1 ++ "-" ++ symbol1) = String hyphen symbol2) in Heq.
    injection Heq as -> Heq. subst symbol2.
    rewrite containsHyphen_app in H2. discriminate H2.
  - change (String c (a1 ++ "-" ++ symbol1) = String c' (a2 ++ "-" ++ symbol2)) in Heq.
    injection Heq as -> Heq.
    destruct (IH a2 Heq) as [-> ->]. auto.
Qed.

Lemma lockKeyOf_injective_witness :
  "main"%string = "main"%string /\ "XRPUSDT"%string = "XRPUSDT"%string.
Proof.
  apply (lockKeyOf_injective "main" "XRPUSDT" "main" "XRPUSDT"); reflexivity.
Defined.

(** Without the condition two pairs can share a key. *)
Example lockKeyOf_collision :
  lockKeyOf "a-b" "c" = lockKeyOf "a" "b-c".
Proof. reflexivity. Qed.

(** ** The detector's look-back *)

Lemma slice_from_front {A} (start : Z) (xs : list A) :
  (0 <= start)%Z -> Detector.slice start xs = drop (Z.to_nat start) xs.
Proof.
  intros Hs. unfold Detector.slice.
  destruct (start <? 0)%Z eqn:Hneg; [apply Z.ltb_lt in Hneg; lia|].
  destruct (Z_le_gt_dec start (Z.of_nat (length xs))) as [Hle|Hgt].
  - rewrite Z.min_l by exact Hle. reflexivity.
  - rewrite Z.min_r by lia. rewrite Nat2Z.id.
    rewrite !drop_ge by lia. reflexivity.
Qed.

(** X19.  With [num_previous_candles <= 0] the slice [diffs.slice(-n)] starts
    from the front, skipping the first [-n] diffs; for [n = 0] it is the
    whole array.  The detector then answers [false] exactly when the
    candle's move does not exceed both the dynamic threshold and the sum of
    those diffs, for 0 the sum over the whole history. *)
Theorem lookback_zero_sums_the_whole_history
    (config : Config) (table : gmap string (list Candle)) (symbol_ : string)
    (H : list Candle) (pairConfig : Pair) (c : Candle) (am : AccountManager) :
  table !! symbol_ = Some H ->
  H <> [] ->
  find (fun p => String.eqb (symbol p) symbol_) (pairs config) = Some pairConfig ->
  (num_previous_candles pairConfig <= 0)%Z ->
  let skipped := Z.to_nat (- num_previous_candles pairConfig) in
  let pastSum := Detector.sum (drop skipped (map Detector.rowDiff H)) in
  (num_previous_candles pairConfig = 0%Z ->
   pastSum = Detector.sum (map Detector.rowDiff H))
  /\ (fst (Detector.processCandles config table symbol_ c am) = Returned false
      <-> ~ (codeThreshold H pairConfig < Detector.currentDiffOf c
             /\ pastSum < Detector.currentDiffOf c)).
Proof.
  intros Hhist Hne Hcfg Hn skipped pastSum. split.
  - intros Hz. unfold pastSum, skipped. rewrite Hz. reflexivity.
  - rewrite (processCandles_unfolded config table symbol_ H pairConfig Hhist Hne Hcfg).
    assert (Hpast : codePastSum H pairConfig = pastSum).
    { unfold codePastSum, pastSum, skipped. rewrite slice_from_front by lia.
      reflexivity. }
    unfold codeDecision. rewrite Hpast.
    destruct (Number.gtb (Detector.currentDiffOf c) (codeThreshold H pairConfig))
      eqn:Hthr;
      destruct (Number.gtb (Detector.currentDiffOf c) pastSum) eqn:Hsum;
      cbn [andb].
    + apply gtb_iff in Hthr, Hsum. split.
      * unfold Eff.bind.
        destruct (Eff.forOf _ _ am) as [[[]|e] am1]; intros Heq; discriminate Heq.
      * intros Hnot. exfalso. apply Hnot. auto.
    + split; [|reflexivity]. intros _ [_ Hs]. apply gtb_iff in Hs. congruence.
    + split; [|reflexivity]. intros _ [Ht _]. apply gtb_iff in Ht. congruence.
    + split; [|reflexivity]. intros _ [Ht _]. apply gtb_iff in Ht. congruence.
Qed.

Lemma lookback_zero_sums_the_whole_history_witness :
  fst (Detector.processCandles wholeHistoryConfig {[ "XRPUSDT" := [quiet] ]} "XRPUSDT"
         jump (storeWith "main" "XRPUSDT" AccountManager.initialPosition))
  = Returned false
  <-> ~ (codeThreshold [quiet] wholeHistory < Detector.currentDiffOf jump
         /\ Detector.sum (map Detector.rowDiff [quiet]) < Detector.currentDiffOf jump).
Proof.
  destruct (lookback_zero_sums_the_whole_history wholeHistoryConfig
              {[ "XRPUSDT" := [quiet] ]} "XRPUSDT" [quiet] wholeHistory jump
              (storeWith "main" "XRPUSDT" AccountManager.initialPosition))
    as [_ Hiff].
  - vm_compute. reflexivity.
  - discriminate.
  - vm_compute. reflexivity.
  - cbn. lia.
  - exact Hiff.
Defined.

(** ** Arming is not atomic across accounts *)

(** X20.  Arming is not atomic.  When the detector triggers and a configured
    token has no position for the symbol, [processCandles] throws at that
    token: the tokens before it have been locked and stay locked, the
    tokens after it are not, and nothing else is changed. *)
Theorem arming_stops_at_the_first_unknown_account
    (config : Config) (table : gmap string (list Candle)) (symbol_ : string)
    (H : list Candle) (pairConfig : Pair) (c : Candle) (am : AccountManager)
    (before after : list string) (unknown : string) :
  table !! symbol_ = Some H ->
  H <> [] ->
  find (fun p => String.eqb (symbol p) symbol_) (pairs config) = Some pairConfig ->
  codeDecision H pairConfig c = true ->
  tokens config = before ++ unknown :: after ->
  Forall (fun a => is_Some (AccountManager.getPositionData a symbol_ am)) before ->
  AccountManager.getPositionData unknown symbol_ am = None ->
  exists e am',
    Detector.processCandles config table symbol_ c am = (Thrown e, am')
    /\ (forall a, a ∈ before ->
          exists p,
            AccountManager.getPositionData a symbol_ am = Some p
            /\ AccountManager.getPositionData a symbol_ am'
               = Some (withLock p (close c) (codeThreshold H pairConfig / 2)))
    /\ (forall a s, ~ (a ∈ before /\ s = symbol_) ->
          AccountManager.getPositionData a s am'
          = AccountManager.getPositionData a s am).
Proof.
  intros Hhist Hne Hcfg Hdec Htokens Hknown Hunknown.
  rewrite (processCandles_unfolded config table symbol_ H pairConfig Hhist Hne Hcfg).
  rewrite Hdec, Htokens. unfold Eff.bind. rewrite forOf_app.
  destruct (patchAll_returns before symbol_
              (Detector.lockUpdates c (codeThreshold H pairConfig)) am Hknown)
    as [am1 Hrun1].
  rewrite Hrun1.
  destruct (patchAll_effect _ _ _ _ _ Hrun1) as [Hin Hout].
  assert (Hstill : AccountManager.getPositionData unknown symbol_ am1 = None).
  { rewrite Hout; [exact Hunknown|]. intros [Hmem _].
    apply (proj1 (Forall_forall _ _) Hknown) in Hmem. rewrite Hunknown in Hmem.
    destruct Hmem as [? Hmem]. discriminate Hmem. }
  rewrite forOf_cons.
  destruct (updatePosition_missing unknown symbol_
              (Detector.lockUpdates c (codeThreshold H pairConfig)) am1 Hstill)
    as [e He].
  rewrite He. exists e, am1. split; [reflexivity|]. split; [|exact Hout].
  intros a Ha. destruct (Hin a Ha) as (p & Hp & Hp'). exists p.
  rewrite spread_lockUpdates in Hp'. auto.
Qed.

Lemma arming_stops_at_the_first_unknown_account_witness :
  exists e am',
    Detector.processCandles ghostConfig {[ "XRPUSDT" := [quiet] ]} "XRPUSDT" jump
                            twoAccounts
    = (Thrown e, am')
    /\ AccountManager.getPositionData "second" "XRPUSDT" am'
       = Some AccountManager.initialPosition.
Proof.
  destruct (arming_stops_at_the_first_unknown_account ghostConfig
              {[ "XRPUSDT" := [quiet] ]} "XRPUSDT" [quiet] xrp jump twoAccounts
              ["main"] ["second"] "ghost")
    as (e & am' & Hrun & _ & Hout).
  - vm_compute. reflexivity.
  - discriminate.
  - vm_compute. reflexivity.
  - vm_compute. reflexivity.
  - reflexivity.
  - repeat constructor. eexists. vm_compute. reflexivity.
  - vm_compute. reflexivity.
  - exists e, am'. split; [exact Hrun|]. rewrite Hout.
    + vm_compute. reflexivity.
    + intros [Hin _]. apply list_elem_of_singleton in Hin. discriminate Hin.
Defined.

(** ** Reconciliation *)

(** X22.  A report with a non-zero [positionAmount] sets [status] to true and
    [entry_price] to the reported entry price and keeps the ladder, the
    lock price, the movement threshold and the flag of the position, when
    the message has no other report for the symbol and names only positions
    the account holds. *)
Theorem fill_report_marks_the_position_open
    (accountName : string) (earlier later : list TradeManager.UpdatedPosition)
    (report : TradeManager.UpdatedPosition) (am : AccountManager) (prior : Position) :
  Forall (knows accountName am) (earlier ++ report :: later) ->
  AccountManager.getPositionData accountName (TradeManager.updated_symbol report) am
  = Some prior ->
  ~ TradeManager.positionAmount report == 0 ->
  Forall (fun r => TradeManager.updated_symbol r <> TradeManager.updated_symbol report)
         (earlier ++ later) ->
  exists am',
    TradeManager.handleAccountUpdate accountName (earlier ++ report :: later) am
    = (Returned tt, am')
    /\ AccountManager.getPositionData accountName (TradeManager.updated_symbol report) am'
       = Some (openedPosition prior (TradeManager.entryPrice report)).
Proof.
  intros Hall Hprior Hnz Hothers.
  apply Forall_app in Hall as [Hearlier Hrest].
  apply Forall_cons in Hrest as [_ Hlater_known].
  apply Forall_app in Hothers as [Hbefore Hafter].
  destruct (handleAccountUpdate_all accountName earlier am Hearlier)
    as (am1 & Hrun1 & Hframe1 & Hflag1).
  assert (Hp1 : AccountManager.getPositionData accountName
                  (TradeManager.updated_symbol report) am1 = Some prior).
  { rewrite Hframe1; [exact Hprior | intros _; exact Hbefore]. }
  destruct (handleAccountUpdate_one accountName report am1 prior Hp1)
    as (am2 & Hrun2 & Hat2 & Hframe2).
  assert (Hamt : Qeq_bool (TradeManager.positionAmount report) 0 = false).
  { destruct (Qeq_bool (TradeManager.positionAmount report) 0) eqn:Hb; [|reflexivity].
    apply Qeq_bool_iff in Hb. contradiction. }
  rewrite Hamt in Hat2.
  destruct (handleAccountUpdate_all accountName later am2) as (am3 & Hrun3 & Hframe3 & _).
  { eapply Forall_impl; [exact Hlater_known|]. intros r [q Hq].
    destruct (Hflag1 _ _ Hq) as (q' & Hq' & _).
    destruct (decide (TradeManager.updated_symbol r = TradeManager.updated_symbol report))
      as [Heq|Hne].
    - unfold knows. rewrite Heq, Hat2. eauto.
    - unfold knows. rewrite Hframe2; [eauto | intros [_ ?]; auto]. }
  exists am3. split.
  - unfold TradeManager.handleAccountUpdate in *.
    rewrite forOf_app, Hrun1.
    change (report :: later) with ([report] ++ later).
    rewrite forOf_app, Hrun2. exact Hrun3.
  - rewrite Hframe3 by (intros _; exact Hafter).
    rewrite Hat2. reflexivity.
Qed.

Lemma fill_report_marks_the_position_open_witness :
  exists am',
    TradeManager.handleAccountUpdate "main" [fillReport]
      (storeWith "main" "XRPUSDT" (armedAt 101 0.25))
    = (Returned tt, am')
    /\ AccountManager.getPositionData "main" "XRPUSDT" am'
       = Some (openedPosition (armedAt 101 0.25) 102).
Proof.
  apply (fill_report_marks_the_position_open "main" [] [] fillReport
           (storeWith "main" "XRPUSDT" (armedAt 101 0.25)) (armedAt 101 0.25)).
  - repeat constructor. eexists. vm_compute. reflexivity.
  - vm_compute. reflexivity.
  - intros Hz. vm_compute in Hz. discriminate Hz.
  - constructor.
Defined.

(** X23.  [handleAccountUpdate] throws at the first report whose symbol the
    account has no position for: the reports before it have been applied,
    exactly as if the message had ended there, and the reports after it are
    dropped. *)
Theorem account_update_stops_at_an_unknown_symbol
    (accountName : string) (known rest : list TradeManager.UpdatedPosition)
    (unknown : TradeManager.UpdatedPosition) (am : AccountManager) :
  Forall (knows accountName am) known ->
  AccountManager.getPositionData accountName (TradeManager.updated_symbol unknown) am
  = None ->
  exists e am1,
    TradeManager.handleAccountUpdate accountName known am = (Returned tt, am1)
    /\ TradeManager.handleAccountUpdate accountName (known ++ unknown :: rest) am
       = (Thrown e, am1).
Proof.
  intros Hknown Hunknown.
  destruct (handleAccountUpdate_all accountName known am Hknown)
    as (am1 & Hrun1 & Hframe1 & _).
  assert (Hstill : AccountManager.getPositionData accountName
                     (TradeManager.updated_symbol unknown) am1 = None).
  { rewrite Hframe1; [exact Hunknown|]. intros _.
    eapply Forall_impl; [exact Hknown|]. intros r [q Hq] Heq.
    rewrite Heq in Hq. congruence. }
  assert (Hthrow : forall u, exists e,
             AccountManager.updatePosition accountName
               (TradeManager.updated_symbol unknown) u am1 = (Thrown e, am1)).
  { intros u. apply updatePosition_missing. exact Hstill. }
  unfold TradeManager.handleAccountUpdate in *.
  rewrite forOf_app, Hrun1, forOf_cons.
  destruct (Qeq_bool (TradeManager.positionAmount unknown) 0).
  - destruct (Hthrow TradeManager.clearedUpdates) as [e He]. rewrite He. eauto.
  - destruct (Hthrow (TradeManager.openedUpdates (TradeManager.entryPrice unknown)))
      as [e He]. rewrite He. eauto.
Qed.

Lemma account_update_stops_at_an_unknown_symbol_witness :
  exists e am1,
    TradeManager.handleAccountUpdate "main" [fillReport]
      (storeWith "main" "XRPUSDT" midLadder)
    = (Returned tt, am1)
    /\ TradeManager.handleAccountUpdate "main" [fillReport; strayReport; flatReport]
         (storeWith "main" "XRPUSDT" midLadder)
       = (Thrown e, am1).
Proof.
  apply (account_update_stops_at_an_unknown_symbol "main" [fillReport] [flatReport]
           strayReport (storeWith "main" "XRPUSDT" midLadder)).
  - repeat constructor. eexists. vm_compute. reflexivity.
  - vm_compute. reflexivity.
Defined.

(** ** Invariants of the gateway *)

Ltac preserving :=
  repeat first
    [ assumption
    | apply preserves_ret | apply preserves_throw | apply preserves_get
    | match goal with
      | |- preserves _ (match ?x with _ => _ end) => destruct x
      end
    | match goal with
      | |- preserves _ (Eff.bind _ _) => apply preserves_bind; [|intros ?]
      | |- preserves _ (Eff.tryCatch _ _) => apply preserves_tryCatch; [|intros ?]
      | |- preserves _ (Eff.tryFinally _ _) => apply preserves_tryFinally
      | |- preserves _ TradeManager.illShaped => unfold TradeManager.illShaped
      end ].

Section GatewayInvariant.
Variable I : Gateway -> Prop.
Variable allowed : Request -> Prop.
Hypothesis call_kept : forall rq, allowed rq -> preserves I (TradeManager.call rq).
Hypothesis precision_kept : forall s, preserves I (TradeManager.getSymbolPrecision s).

Lemma getPositionsV3_preserves s :
  allowed (GetPositionsV3 s) -> preserves I (TradeManager.getPositionsV3 s).
Proof.
  intros Ha. unfold TradeManager.getPositionsV3.
  apply preserves_bind; [apply call_kept; exact Ha|]. intros r. preserving.
Qed.

Lemma getAllOpenOrders_preserves s :
  allowed (GetAllOpenOrders s) -> preserves I (TradeManager.getAllOpenOrders s).
Proof.
  intros Ha. unfold TradeManager.getAllOpenOrders.
  apply preserves_bind; [apply call_kept; exact Ha|]. intros r. preserving.
Qed.

Lemma submitNewOrder_preserves o :
  allowed (SubmitNewOrder o) -> preserves I (TradeManager.submitNewOrder o).
Proof.
  intros Ha. unfold TradeManager.submitNewOrder.
  apply preserves_bind; [apply call_kept; exact Ha|]. intros r. preserving.
Qed.

Lemma submitMultipleOrders_preserves os :
  allowed (SubmitMultipleOrders os) -> preserves I (TradeManager.submitMultipleOrders os).
Proof.
  intros Ha. unfold TradeManager.submitMultipleOrders.
  apply preserves_bind; [apply call_kept; exact Ha|]. intros r. preserving.
Qed.

Lemma cancelAllOrder_preserves s :
  allowed (CancelAllOpenOrders (toUpperCase s)) -> preserves I (TradeManager.cancelAllOrder s).
Proof.
  intros Ha. unfold TradeManager.cancelAllOrder, TradeManager.cancelAllOpenOrders.
  apply preserves_tryCatch; [|intros e; apply preserves_throw].
  apply preserves_bind; [apply call_kept; exact Ha|]. intros r. preserving.
Qed.

Lemma calculateQuantity_preserves s price usdt :
  preserves I (TradeManager.calculateQuantity s price usdt).
Proof.
  unfold TradeManager.calculateQuantity.
  apply preserves_tryCatch; [|intros e; apply preserves_throw].
  apply preserves_bind; [apply precision_kept|]. intros [pp qp]. apply preserves_ret.
Qed.

Lemma inExistingPosition_preserves s :
  allowed (GetPositionsV3 s) -> allowed (GetAllOpenOrders s) ->
  preserves I (TradeManager.inExistingPosition s).
Proof.
  intros Hp Ho. unfold TradeManager.inExistingPosition.
  apply preserves_tryCatch; [|intros e; apply preserves_ret].
  apply preserves_bind; [apply getPositionsV3_preserves; exact Hp|]. intros ps.
  apply preserves_bind; [apply getAllOpenOrders_preserves; exact Ho|]. intros os.
  apply preserves_ret.
Qed.

Lemma closeFirstOpen_preserves s ps :
  (forall o, allowed (SubmitNewOrder o)) ->
  preserves I (TradeManager.closeFirstOpen s ps).
Proof.
  intros Ho. induction ps as [|pos rest IH]; cbn [TradeManager.closeFirstOpen].
  - apply preserves_ret.
  - destruct (TradeManager.nonZero (positionAmt pos)); [|exact IH].
    apply preserves_bind; [apply precision_kept|]. intros [pp qp].
    apply preserves_bind; [apply submitNewOrder_preserves, Ho|]. intros _.
    apply preserves_ret.
Qed.

Lemma closePosition_preserves s :
  allowed (GetPositionsV3 s) -> (forall o, allowed (SubmitNewOrder o)) ->
  preserves I (TradeManager.closePosition s).
Proof.
  intros Hp Ho. unfold TradeManager.closePosition.
  apply preserves_tryCatch; [|intros e; apply preserves_throw].
  apply preserves_bind; [apply getPositionsV3_preserves; exact Hp|]. intros ps.
  apply closeFirstOpen_preserves, Ho.
Qed.

Lemma placeTrailStopLoss_preserves s forSide stopPrice :
  allowed (GetAllOpenOrders s) -> allowed (CancelAllOpenOrders (toUpperCase s)) ->
  (forall o, allowed (SubmitNewOrder o)) ->
  preserves I (TradeManager.placeTrailStopLoss s forSide stopPrice).
Proof.
  intros Hq Hc Ho. unfold TradeManager.placeTrailStopLoss.
  apply preserves_tryCatch; [|intros e; apply preserves_throw].
  apply preserves_bind; [apply getAllOpenOrders_preserves; exact Hq|]. intros os.
  destruct (find _ os); [apply preserves_ret|].
  apply preserves_bind; [apply precision_kept|]. intros [pp qp].
  apply preserves_bind; [apply cancelAllOrder_preserves; exact Hc|]. intros _.
  apply preserves_bind; [apply submitNewOrder_preserves, Ho|]. intros _.
  apply preserves_ret.
Qed.

(** What [placePositionWithStopLoss] does once [inExistingPosition] has
    answered. *)
Lemma afterCheck_preserves s (positionExists : bool) (first second : OrderParams)
    (refused stopFailed placed : OrderResult) :
  allowed (SubmitMultipleOrders [first; second]) ->
  allowed (GetPositionsV3 s) -> (forall o, allowed (SubmitNewOrder o)) ->
  preserves I
    (if positionExists
     then Eff.ret refused
     else
       let* orders := TradeManager.submitMultipleOrders [first; second] in
       match orders !! 1%nat with
       | None => Eff.throw (TypeError "orders[1] is undefined")
       | Some stopLossOrder =>
           if TradeManager.isOrderError stopLossOrder
           then TradeManager.closePosition s ;; Eff.ret stopFailed
           else Eff.ret placed
       end).
Proof.
  intros Hb Hp Ho. destruct positionExists; [apply preserves_ret|].
  apply preserves_bind; [apply submitMultipleOrders_preserves; exact Hb|].
  intros orders. destruct (orders !! 1%nat) as [o|]; [|apply preserves_throw].
  destruct (TradeManager.isOrderError o); [|apply preserves_ret].
  apply preserves_bind; [apply closePosition_preserves; assumption|].
  intros _. apply preserves_ret.
Qed.

Lemma placePositionWithStopLoss_preserves s side usdt stop :
  preserves I (TradeManager.setPositionLock s true) ->
  preserves I (TradeManager.setPositionLock s false) ->
  allowed (GetPositionsV3 s) -> allowed (GetAllOpenOrders s) ->
  (forall os, allowed (SubmitMultipleOrders os)) ->
  (forall o, allowed (SubmitNewOrder o)) ->
  preserves I (TradeManager.placePositionWithStopLoss s side usdt stop).
Proof.
  intros Hset Hclear Hp Hq Hb Ho. unfold TradeManager.placePositionWithStopLoss.
  apply preserves_bind; [apply preserves_get|]. intros g0.
  destruct (default false (positionLocks g0 !! s)); [apply preserves_ret|].
  apply preserves_tryFinally; [|exact Hclear].
  apply preserves_tryCatch.
  - apply preserves_bind; [exact Hset|]. intros _. cbv zeta.
    apply preserves_bind; [apply calculateQuantity_preserves|]. intros quantity.
    apply preserves_bind; [apply precision_kept|]. intros [pp qp].
    apply preserves_bind; [apply inExistingPosition_preserves; assumption|].
    intros positionExists. apply afterCheck_preserves; auto.
  - intros e. apply preserves_bind; [apply closePosition_preserves; assumption|].
    intros _. apply preserves_ret.
Qed.

End GatewayInvariant.

(** [getSymbolPrecision] under an invariant that the cache may change. *)
Lemma getSymbolPrecision_preserves (I : Gateway -> Prop) s :
  preserves I (TradeManager.call GetExchangeInfo) ->
  (forall info, preserves I (TradeManager.setExchangeInfo info)) ->
  preserves I (TradeManager.getSymbolPrecision s).
Proof.
  intros Hcall Hset. unfold TradeManager.getSymbolPrecision.
  apply preserves_bind; [apply preserves_get|]. intros g0.
  apply preserves_bind.
  - destruct (exchangeInfo g0); [apply preserves_ret|].
    apply preserves_bind.
    + unfold TradeManager.getExchangeInfo.
      apply preserves_bind; [exact Hcall|]. intros r. preserving.
    + intros info. apply preserves_bind; [apply Hset|]. intros _. apply preserves_ret.
  - intros info. destruct (find _ info); [apply preserves_ret | apply preserves_throw].
Qed.

(** ** The entry lock *)

(** X24.  Whatever the exchange replies, and however the method ends,
    [placePositionWithStopLoss] leaves every position lock, read as a
    condition, as it found it.  When the lock of its symbol is held it
    answers [Position entry in progress] and touches nothing. *)
Theorem placePositionWithStopLoss_leaves_locks_as_found
    (symbol : string) (side : OrderSide) (usdtAmount stopPrice : Q) (g : Gateway) :
  let run := TradeManager.placePositionWithStopLoss symbol side usdtAmount stopPrice g in
  (forall other, lockHeld other (snd run) = lockHeld other g)
  /\ (lockHeld symbol g = true ->
      fst run = Returned (TradeManager.failure "Position entry in progress")
      /\ snd run = g).
Proof.
  cbn zeta. split.
  - intros other. destruct (decide (other = symbol)) as [->|Hne].
    + unfold TradeManager.placePositionWithStopLoss, Eff.bind at 1, Eff.get.
      unfold lockHeld at 2.
      destruct (default false (positionLocks g !! symbol)) eqn:Hheld.
      * cbn. exact Hheld.
      * unfold Eff.tryFinally.
        match goal with |- context [Eff.tryCatch ?b ?h g] =>
          destruct (Eff.tryCatch b h g) as [r g1] end.
        cbn. unfold lockHeld. cbn. rewrite lookup_insert_eq. reflexivity.
    + unfold lockHeld. f_equal.
      apply (placePositionWithStopLoss_preserves
               (fun g' => positionLocks g' !! other = positionLocks g !! other)
               (fun _ => True)); auto.
      * intros rq _ g1 Hg1. unfold TradeManager.call.
        destruct (replies g1) as [|[] rest]; exact Hg1.
      * intros s. apply getSymbolPrecision_preserves.
        -- intros g1 Hg1. unfold TradeManager.call.
           destruct (replies g1) as [|[] rest]; exact Hg1.
        -- intros info g1 Hg1. exact Hg1.
      * intros g1 Hg1. cbn. rewrite lookup_insert_ne by auto. exact Hg1.
      * intros g1 Hg1. cbn. rewrite lookup_insert_ne by auto. exact Hg1.
  - intros Hheld. unfold lockHeld in Hheld.
    unfold TradeManager.placePositionWithStopLoss, Eff.bind, Eff.get.
    rewrite Hheld. split; reflexivity.
Qed.

(** ** The exchange-info cache *)

Lemma cachedAndSilent_call info g rq :
  isInfoRequest rq = false ->
  preserves (cachedAndSilent info g) (TradeManager.call rq).
Proof.
  intros Hrq g1 [Hc (new & Hnew & Hsilent)]. unfold TradeManager.call.
  assert (Hgoal : cachedAndSilent info g
            {| positionLocks := positionLocks g1; exchangeInfo := exchangeInfo g1;
               replies := tail (replies g1); requests := requests g1 ++ [rq] |}).
  { split; [exact Hc|]. exists (new ++ [rq]). cbn. split.
    - rewrite Hnew, <- app_assoc. reflexivity.
    - rewrite existsb_app, Hsilent. cbn. rewrite Hrq. reflexivity. }
  destruct (replies g1) as [|[] rest]; exact Hgoal.
Qed.

Lemma cachedAndSilent_precision info g s :
  preserves (cachedAndSilent info g) (TradeManager.getSymbolPrecision s).
Proof.
  intros g1 Hg1. unfold TradeManager.getSymbolPrecision, Eff.bind, Eff.get.
  destruct Hg1 as [Hc Hnew]. rewrite Hc. cbn.
  destruct (find _ info); cbn; split; assumption.
Qed.

Lemma cachedAndSilent_lock info g s b :
  preserves (cachedAndSilent info g) (TradeManager.setPositionLock s b).
Proof. intros g1 Hg1. exact Hg1. Qed.

(** X25.  Once the exchange information is cached, none of
    [placePositionWithStopLoss], [placeTrailStopLoss] and [closePosition]
    requests it again or replaces it, whatever the exchange replies: the
    precisions in use are those of the first answer. *)
Theorem exchange_info_is_fetched_once
    (info : list SymbolInfo) (g : Gateway) (symbol : string) (side : OrderSide)
    (usdtAmount stopPrice : Q) :
  exchangeInfo g = Some info ->
  cachedAndSilent info g
    (snd (TradeManager.placePositionWithStopLoss symbol side usdtAmount stopPrice g))
  /\ cachedAndSilent info g
       (snd (TradeManager.placeTrailStopLoss symbol side stopPrice g))
  /\ cachedAndSilent info g (snd (TradeManager.closePosition symbol g)).
Proof.
  intros Hc.
  assert (Hstart : cachedAndSilent info g g).
  { split; [exact Hc|]. exists []. rewrite app_nil_r. split; reflexivity. }
  pose proof (cachedAndSilent_call info g) as Hcall.
  pose proof (cachedAndSilent_precision info g) as Hprec.
  split; [|split].
  - apply (placePositionWithStopLoss_preserves _ (fun rq => isInfoRequest rq = false));
      auto using cachedAndSilent_lock.
  - apply (placeTrailStopLoss_preserves _ (fun rq => isInfoRequest rq = false)); auto.
  - apply (closePosition_preserves _ (fun rq => isInfoRequest rq = false)); auto.
Qed.

Lemma exchange_info_is_fetched_once_witness :
  cachedAndSilent [xrpInfo] (cachedGateway rejectedStopReplies)
    (snd (TradeManager.placePositionWithStopLoss "XRPUSDT" BUY 100 100.98
            (cachedGateway rejectedStopReplies))).
Proof.
  apply (exchange_info_is_fetched_once [xrpInfo] (cachedGateway rejectedStopReplies)
           "XRPUSDT" BUY 100 100.98).
  reflexivity.
Defined.

(** ** The check before an entry *)

Lemma inExistingPosition_false (symbol : string) (g g' : Gateway) :
  TradeManager.inExistingPosition symbol g = (Returned false, g') ->
  exists ps os,
    replies g = Positions ps :: OpenOrders os :: replies g'
    /\ flatPositions ps /\ noMarketOrder os.
Proof.
  unfold TradeManager.inExistingPosition, Eff.tryCatch, Eff.bind,
    TradeManager.getPositionsV3, TradeManager.getAllOpenOrders, Eff.bind,
    TradeManager.call.
  destruct (replies g) as [|[] rest1]; cbn; try discriminate.
  destruct rest1 as [|[] rest2]; cbn; try discriminate.
  intros Hrun. injection Hrun as Hb <-. apply orb_false_iff in Hb as [Hps Hos].
  exists ps, os. cbn. auto.
Qed.

Lemma inExistingPosition_clean (symbol : string) (g : Gateway) ps os rest :
  replies g = Positions ps :: OpenOrders os :: rest ->
  flatPositions ps -> noMarketOrder os ->
  TradeManager.inExistingPosition symbol g
  = (Returned false,
     {| positionLocks := positionLocks g; exchangeInfo := exchangeInfo g;
        replies := rest;
        requests := requests g ++ [GetPositionsV3 symbol; GetAllOpenOrders symbol] |}).
Proof.
  intros Hr Hps Hos.
  unfold TradeManager.inExistingPosition, Eff.tryCatch, Eff.bind,
    TradeManager.getPositionsV3, TradeManager.getAllOpenOrders, Eff.bind,
    TradeManager.call.
  rewrite Hr. cbn. unfold flatPositions in Hps. unfold noMarketOrder in Hos.
  rewrite Hps, Hos, <- app_assoc. reflexivity.
Qed.

Lemma inExistingPosition_returns (symbol : string) (g : Gateway) :
  exists b g', TradeManager.inExistingPosition symbol g = (Returned b, g').
Proof.
  unfold TradeManager.inExistingPosition, Eff.tryCatch, Eff.bind,
    TradeManager.getPositionsV3, TradeManager.getAllOpenOrders, Eff.bind,
    TradeManager.call.
  destruct (replies g) as [|[] rest1]; cbn; eauto.
  destruct rest1 as [|[] rest2]; cbn; eauto.
Qed.

(** X26.  [inExistingPosition] never throws, and it answers [false] exactly
    when the positions request and the open-orders request were both
    answered and show no non-zero position and no [MARKET] order; a missing,
    rejected or unexpected reply makes it answer [true]. *)
Theorem inExistingPosition_is_false_only_on_a_clean_answer
    (symbol : string) (g : Gateway) :
  exists positionExists g',
    TradeManager.inExistingPosition symbol g = (Returned positionExists, g')
    /\ (positionExists = false
        <-> exists ps os rest,
              replies g = Positions ps :: OpenOrders os :: rest
              /\ flatPositions ps /\ noMarketOrder os).
Proof.
  destruct (inExistingPosition_returns symbol g) as (b & g' & Hrun).
  exists b, g'. split; [exact Hrun|]. split.
  - intros ->. apply inExistingPosition_false in Hrun as (ps & os & Hr & Hps & Hos).
    eauto 6.
  - intros (ps & os & rest & Hr & Hps & Hos).
    rewrite (inExistingPosition_clean symbol g ps os rest Hr Hps Hos) in Hrun.
    congruence.
Qed.

Lemma batchOnlyWhenClean_call g rq :
  isBatch rq = false \/ cleanCheckIn (replies g) ->
  preserves (batchOnlyWhenClean g) (TradeManager.call rq).
Proof.
  intros Hrq g1 [[consumed Hc] (new & Hnew & Hb)]. unfold TradeManager.call.
  assert (Hgoal : batchOnlyWhenClean g
            {| positionLocks := positionLocks g1; exchangeInfo := exchangeInfo g1;
               replies := tail (replies g1); requests := requests g1 ++ [rq] |}).
  { split; cbn.
    - destruct (replies g1) as [|r rest] eqn:Hr.
      + exists consumed. exact Hc.
      + exists (consumed ++ [r]). rewrite Hc, <- app_assoc. reflexivity.
    - exists (new ++ [rq]). split; [rewrite Hnew, <- app_assoc; reflexivity|].
      rewrite existsb_app. cbn. intros Hsent.
      destruct Hrq as [Hrq|Hclean]; [|exact Hclean].
      rewrite Hrq in Hsent. apply Hb.
      destruct (existsb isBatch new); [reflexivity | discriminate Hsent]. }
  destruct (replies g1) as [|[] rest]; exact Hgoal.
Qed.

Lemma batchOnlyWhenClean_precision g s :
  preserves (batchOnlyWhenClean g) (TradeManager.getSymbolPrecision s).
Proof.
  apply getSymbolPrecision_preserves.
  - apply batchOnlyWhenClean_call. left. reflexivity.
  - intros info g1 Hg1. exact Hg1.
Qed.

(** X27.  Whatever the exchange replies, [placePositionWithStopLoss] only
    adds requests to the journal, and it sends the batch of the entry order
    and its stop only if the replies held, next to each other, a positions
    answer without a non-zero position and an open-orders answer without a
    [MARKET] order. *)
Theorem entry_batch_needs_a_clean_check
    (symbol : string) (side : OrderSide) (usdtAmount stopPrice : Q) (g : Gateway) :
  exists new,
    requests (snd (TradeManager.placePositionWithStopLoss symbol side usdtAmount
                     stopPrice g))
    = requests g ++ new
    /\ (existsb isBatch new = true -> cleanCheckIn (replies g)).
Proof.
  set (allowed := fun rq => isBatch rq = false \/ cleanCheckIn (replies g)).
  pose proof (batchOnlyWhenClean_call g : forall rq, allowed rq -> _) as Hcall.
  pose proof (batchOnlyWhenClean_precision g) as Hprec.
  assert (Hlock : forall b, preserves (batchOnlyWhenClean g)
                              (TradeManager.setPositionLock symbol b)).
  { intros b g1 Hg1. exact Hg1. }
  assert (Hclose : preserves (batchOnlyWhenClean g) (TradeManager.closePosition symbol)).
  { apply (closePosition_preserves _ allowed Hcall Hprec).
    - left. reflexivity.
    - intros o. left. reflexivity. }
  assert (Hkept : preserves (batchOnlyWhenClean g)
            (TradeManager.placePositionWithStopLoss symbol side usdtAmount stopPrice)).
  { unfold TradeManager.placePositionWithStopLoss.
    apply preserves_bind; [apply preserves_get|]. intros g0.
    destruct (default false (positionLocks g0 !! symbol)); [apply preserves_ret|].
    apply preserves_tryFinally; [|apply Hlock].
    apply preserves_tryCatch.
    - apply preserves_bind; [apply Hlock|]. intros _. cbv zeta.
      apply preserves_bind;
        [apply (calculateQuantity_preserves _ Hprec)|].
      intros quantity.
      apply preserves_bind; [apply Hprec|]. intros [pp qp].
      intros g1 Hg1.
      pose proof (inExistingPosition_preserves _ allowed Hcall symbol
                    (or_introl eq_refl) (or_introl eq_refl) g1 Hg1) as Hg2.
      unfold Eff.bind at 1.
      destruct (TradeManager.inExistingPosition symbol g1) as [[[]|e] g2] eqn:Hrun;
        [exact Hg2 | | exact Hg2].
      apply inExistingPosition_false in Hrun as (ps & os & Hr & Hps & Hos).
      assert (Hclean : cleanCheckIn (replies g)).
      { destruct Hg1 as [[consumed Hc] _].
        exists consumed, ps, os, (replies g2). rewrite Hc, Hr. auto. }
      refine (afterCheck_preserves _ allowed Hcall Hprec symbol false _ _
                (TradeManager.failure "Position already exists") _ _ _ _ _ g2 Hg2).
      + right. exact Hclean.
      + left. reflexivity.
      + intros o. left. reflexivity.
    - intros e. apply preserves_bind; [exact Hclose|]. intros _. apply preserves_ret. }
  destruct (Hkept g) as [_ Hnew]; [|exact Hnew].
  split; [exists []; reflexivity|].
  exists []. rewrite app_nil_r. split; [reflexivity | discriminate].
Qed.

(** ** Closing a position *)

Lemma nonZero_false (amt : Q) : amt == 0 -> TradeManager.nonZero amt = false.
Proof.
  intros Hz. unfold TradeManager.nonZero.
  rewrite (proj2 (Qeq_bool_iff amt 0) Hz). reflexivity.
Qed.

Lemma nonZero_true (amt : Q) : ~ amt == 0 -> TradeManager.nonZero amt = true.
Proof.
  intros Hnz. unfold TradeManager.nonZero.
  destruct (Qeq_bool amt 0) eqn:Hb; [|reflexivity].
  apply Qeq_bool_iff in Hb. contradiction.
Qed.

Lemma closeFirstOpen_skips (symbol : string) (flats others : list ExchangePosition) :
  Forall (fun p => positionAmt p == 0) flats ->
  TradeManager.closeFirstOpen symbol (flats ++ others)
  = TradeManager.closeFirstOpen symbol others.
Proof.
  induction 1 as [|p flats Hp _ IH]; [reflexivity|].
  cbn [app TradeManager.closeFirstOpen]. rewrite (nonZero_false _ Hp). exact IH.
Qed.

Lemma getSymbolPrecision_cached (symbol : string) (g : Gateway) info symbolInfo :
  exchangeInfo g = Some info ->
  find (fun s => String.eqb (info_symbol s) (toUpperCase symbol)) info = Some symbolInfo ->
  TradeManager.getSymbolPrecision symbol g
  = (Returned (pricePrecision symbolInfo, quantityPrecision symbolInfo), g).
Proof.
  intros Hc Hf. unfold TradeManager.getSymbolPrecision, Eff.bind, Eff.get.
  rewrite Hc. cbn. rewrite Hf. reflexivity.
Qed.

Lemma closePosition_run (symbol : string) (g : Gateway) info symbolInfo
    (flats others : list ExchangePosition) (pos : ExchangePosition)
    (orderId : Z) (rest : list Reply) :
  exchangeInfo g = Some info ->
  find (fun s => String.eqb (info_symbol s) (toUpperCase symbol)) info = Some symbolInfo ->
  replies g = Positions (flats ++ pos :: others) :: OrderPlaced orderId :: rest ->
  Forall (fun p => positionAmt p == 0) flats ->
  ~ positionAmt pos == 0 ->
  TradeManager.closePosition symbol g
  = (Returned tt,
     {| positionLocks := positionLocks g; exchangeInfo := Some info;
        replies := rest;
        requests := requests g
                    ++ [GetPositionsV3 symbol;
                        SubmitNewOrder
                          (closingOrder symbol pos (quantityPrecision symbolInfo))] |}).
Proof.
  intros Hc Hf Hr Hflats Hpos.
  unfold TradeManager.closePosition, Eff.tryCatch, Eff.bind at 1,
    TradeManager.getPositionsV3, Eff.bind at 1, TradeManager.call.
  rewrite Hr. cbn [tail Eff.ret]. rewrite (closeFirstOpen_skips _ _ _ Hflats).
  cbn [TradeManager.closeFirstOpen]. rewrite (nonZero_true _ Hpos).
  unfold Eff.bind at 1.
  rewrite (getSymbolPrecision_cached symbol _ info symbolInfo) by (cbn; assumption).
  unfold TradeManager.submitNewOrder, Eff.bind, TradeManager.call. cbn.
  rewrite Hc, <- app_assoc. reflexivity.
Qed.

(** X28.  With the precision of the symbol cached, [closePosition] sends one
    [MARKET] order, for the first non-zero position of the answer: the
    opposite side, the absolute amount rounded to the quantity precision,
    the position's own side, and the symbol as it was passed.  Positions
    later in the answer are not closed. *)
Theorem closePosition_closes_the_first_open_position_only
    (symbol : string) (g : Gateway) (info : list SymbolInfo) (symbolInfo : SymbolInfo)
    (flats others : list ExchangePosition) (pos : ExchangePosition)
    (orderId : Z) (rest : list Reply) :
  exchangeInfo g = Some info ->
  find (fun s => String.eqb (info_symbol s) (toUpperCase symbol)) info = Some symbolInfo ->
  replies g = Positions (flats ++ pos :: others) :: OrderPlaced orderId :: rest ->
  Forall (fun p => positionAmt p == 0) flats ->
  ~ positionAmt pos == 0 ->
  let run := TradeManager.closePosition symbol g in
  fst run = Returned tt
  /\ requests (snd run)
     = requests g
       ++ [GetPositionsV3 symbol;
           SubmitNewOrder (closingOrder symbol pos (quantityPrecision symbolInfo))]
  /\ replies (snd run) = rest.
Proof.
  intros Hc Hf Hr Hflats Hpos. cbn zeta.
  rewrite (closePosition_run symbol g info symbolInfo flats others pos orderId rest)
    by assumption.
  auto.
Qed.

Lemma closePosition_closes_the_first_open_position_only_witness :
  requests (snd (TradeManager.closePosition "XRPUSDT"
                   (cachedGateway [Positions [openLong]; OrderPlaced 9])))
  = [GetPositionsV3 "XRPUSDT"; SubmitNewOrder (closingOrder "XRPUSDT" openLong 1)].
Proof.
  destruct (closePosition_closes_the_first_open_position_only "XRPUSDT"
              (cachedGateway [Positions [openLong]; OrderPlaced 9]) [xrpInfo] xrpInfo
              [] [] openLong 9 [])
    as (_ & Hreq & _).
  - reflexivity.
  - vm_compute. reflexivity.
  - reflexivity.
  - constructor.
  - intros Hz. vm_compute in Hz. discriminate Hz.
  - exact Hreq.
Defined.

(** X29.  When the batch is answered with an error for the stop order,
    whatever the answer for the entry order, [placePositionWithStopLoss]
    asks for the positions again, closes the first open one with a market
    order, answers [Stop loss placement failed] and releases the lock.  The
    entry quantity is the amount over the price recovered from the stop,
    rounded to the quantity precision. *)
Theorem rejected_stop_loss_closes_the_position
    (symbol : string) (side : OrderSide) (usdtAmount stopPrice : Q) (g : Gateway)
    (info : list SymbolInfo) (symbolInfo : SymbolInfo)
    (ps : list ExchangePosition) (os : list OpenOrder)
    (entryAnswer : OrderAnswer) (code : Z) (more : list OrderAnswer)
    (flats others : list ExchangePosition) (pos : ExchangePosition)
    (orderId : Z) (rest : list Reply) :
  lockHeld symbol g = false ->
  exchangeInfo g = Some info ->
  find (fun s => String.eqb (info_symbol s) (toUpperCase symbol)) info = Some symbolInfo ->
  replies g
  = Positions ps :: OpenOrders os
    :: OrderAnswers (entryAnswer :: NewOrderError code :: more)
    :: Positions (flats ++ pos :: others) :: OrderPlaced orderId :: rest ->
  flatPositions ps -> noMarketOrder os ->
  Forall (fun p => positionAmt p == 0) flats ->
  ~ positionAmt pos == 0 ->
  let assumedPrice :=
    stopPrice / (1 + match side with BUY => - (1 # 100) | SELL => 1 # 100 end) in
  let quantity :=
    TradeManager.roundToPrecision (usdtAmount / assumedPrice)
      (quantityPrecision symbolInfo) in
  let run := TradeManager.placePositionWithStopLoss symbol side usdtAmount stopPrice g in
  fst run = Returned (TradeManager.failure "Stop loss placement failed")
  /\ requests (snd run)
     = requests g
       ++ [GetPositionsV3 symbol; GetAllOpenOrders symbol;
           SubmitMultipleOrders
             [entryOrder symbol side quantity;
              stopLossOrder symbol side
                (TradeManager.roundToPrecision stopPrice (pricePrecision symbolInfo))];
           GetPositionsV3 symbol;
           SubmitNewOrder (closingOrder symbol pos (quantityPrecision symbolInfo))]
  /\ replies (snd run) = rest
  /\ lockHeld symbol (snd run) = false.
Proof.
  intros Hfree Hc Hf Hr Hps Hos Hflats Hpos assumedPrice quantity run.
  assert (Hrun : run
    = (Returned (TradeManager.failure "Stop loss placement failed"),
       {| positionLocks := <[symbol := false]> (<[symbol := true]> (positionLocks g));
          exchangeInfo := Some info;
          replies := rest;
          requests :=
            requests g
            ++ [GetPositionsV3 symbol; GetAllOpenOrders symbol;
                SubmitMultipleOrders
                  [entryOrder symbol side quantity;
                   stopLossOrder symbol side
                     (TradeManager.roundToPrecision stopPrice
                        (pricePrecision symbolInfo))];
                GetPositionsV3 symbol;
                SubmitNewOrder
                  (closingOrder symbol pos (quantityPrecision symbolInfo))] |})).
  { unfold run, TradeManager.placePositionWithStopLoss, Eff.bind at 1, Eff.get.
    unfold lockHeld in Hfree. rewrite Hfree.
    unfold Eff.tryFinally, Eff.tryCatch.
    unfold Eff.bind at 1. unfold TradeManager.setPositionLock at 1, Eff.modify.
    cbv zeta. unfold Eff.bind at 1.
    unfold TradeManager.calculateQuantity, Eff.tryCatch, Eff.bind at 1.
    rewrite (getSymbolPrecision_cached symbol _ info symbolInfo) by (cbn; assumption).
    unfold Eff.ret at 1. unfold Eff.bind at 1.
    rewrite (getSymbolPrecision_cached symbol _ info symbolInfo) by (cbn; assumption).
    unfold Eff.bind at 1.
    erewrite (inExistingPosition_clean symbol _ ps os);
      [| cbn; exact Hr | exact Hps | exact Hos].
    unfold Eff.bind at 1, TradeManager.submitMultipleOrders, Eff.bind at 1,
      TradeManager.call.
    cbn [replies tail Eff.ret lookup list_lookup TradeManager.isOrderError].
    unfold Eff.bind at 1.
    erewrite (closePosition_run symbol _ info symbolInfo flats others pos orderId rest);
      [| cbn; exact Hc | exact Hf | cbn; reflexivity | exact Hflats | exact Hpos].
    rewrite roundToPrecision_twice. cbn. rewrite <- !app_assoc. reflexivity. }
  rewrite Hrun. unfold lockHeld. cbn. rewrite lookup_insert_eq. auto.
Qed.

Lemma rejected_stop_loss_closes_the_position_witness :
  let run := TradeManager.placePositionWithStopLoss "XRPUSDT" BUY 100 100.98
               (cachedGateway rejectedStopReplies) in
  fst run = Returned (TradeManager.failure "Stop loss placement failed")
  /\ replies (snd run) = []
  /\ lockHeld "XRPUSDT" (snd run) = false.
Proof.
  intros run.
  destruct (rejected_stop_loss_closes_the_position "XRPUSDT" BUY 100 100.98
              (cachedGateway rejectedStopReplies) [xrpInfo] xrpInfo [] []
              (NewOrderResult 1) (-2021) [] [] [] openLong 9 [])
    as (Hout & _ & Hrest & Hlock).
  - reflexivity.
  - reflexivity.
  - vm_compute. reflexivity.
  - reflexivity.
  - reflexivity.
  - reflexivity.
  - constructor.
  - intros Hz. vm_compute in Hz. discriminate Hz.
  - auto.
Defined.

(** ** Replacing the stop *)

Lemma placeTrailStopLoss_existing (symbol : string) (forSide : OrderSide)
    (stopPrice : Q) (g : Gateway) (os : list OpenOrder) (o : OpenOrder)
    (rest : list Reply) :
  replies g = OpenOrders os :: rest ->
  find (fun o => bool_decide (open_type o = STOP_MARKET)
                 && Qeq_bool (open_stopPrice o) stopPrice) os = Some o ->
  TradeManager.placeTrailStopLoss symbol forSide stopPrice g
  = (Returned true,
     {| positionLocks := positionLocks g; exchangeInfo := exchangeInfo g;
        replies := rest; requests := requests g ++ [GetAllOpenOrders symbol] |}).
Proof.
  intros Hr Hfind.
  unfold TradeManager.placeTrailStopLoss, Eff.tryCatch, Eff.bind at 1,
    TradeManager.getAllOpenOrders, Eff.bind at 1, TradeManager.call.
  rewrite Hr. cbn [Eff.ret tail]. rewrite Hfind. reflexivity.
Qed.

(** X30.  [placeTrailStopLoss] cancels all open orders of the symbol before it
    submits the new stop.  When that submission is rejected the method
    throws with the cancellation already sent: the old stop is gone and no
    new one is in place. *)
Theorem trail_stop_cancels_before_it_places
    (symbol : string) (forSide : OrderSide) (stopPrice : Q) (g : Gateway)
    (info : list SymbolInfo) (symbolInfo : SymbolInfo) (os : list OpenOrder)
    (what : string) (rest : list Reply) :
  exchangeInfo g = Some info ->
  find (fun s => String.eqb (info_symbol s) (toUpperCase symbol)) info = Some symbolInfo ->
  replies g = OpenOrders os :: Cancelled :: Rejects what :: rest ->
  find (fun o => bool_decide (open_type o = STOP_MARKET)
                 && Qeq_bool (open_stopPrice o) stopPrice) os = None ->
  let run := TradeManager.placeTrailStopLoss symbol forSide stopPrice g in
  fst run = Thrown (TransportError what)
  /\ requests (snd run)
     = requests g
       ++ [GetAllOpenOrders symbol;
           CancelAllOpenOrders (toUpperCase symbol);
           SubmitNewOrder
             (stopLossOrder symbol forSide
                (TradeManager.roundToPrecision stopPrice (pricePrecision symbolInfo)))]
  /\ replies (snd run) = rest.
Proof.
  intros Hc Hf Hr Hnone run.
  assert (Hrun : run
    = (Thrown (TransportError what),
       {| positionLocks := positionLocks g; exchangeInfo := exchangeInfo g;
          replies := rest;
          requests :=
            requests g
            ++ [GetAllOpenOrders symbol;
                CancelAllOpenOrders (toUpperCase symbol);
                SubmitNewOrder
                  (stopLossOrder symbol forSide
                     (TradeManager.roundToPrecision stopPrice
                        (pricePrecision symbolInfo)))] |})).
  { unfold run, TradeManager.placeTrailStopLoss, Eff.tryCatch, Eff.bind at 1,
      TradeManager.getAllOpenOrders, Eff.bind at 1, TradeManager.call.
    rewrite Hr. cbn [Eff.ret tail]. rewrite Hnone.
    unfold Eff.bind at 1.
    rewrite (getSymbolPrecision_cached symbol _ info symbolInfo) by (cbn; assumption).
    unfold TradeManager.cancelAllOrder, TradeManager.cancelAllOpenOrders,
      TradeManager.submitNewOrder, Eff.tryCatch, Eff.bind, TradeManager.call.
    cbn. rewrite <- !app_assoc. reflexivity. }
  rewrite Hrun. cbn. auto.
Qed.

Lemma trail_stop_cancels_before_it_places_witness :
  let run := TradeManager.placeTrailStopLoss "XRPUSDT" BUY 0.51099866
               (cachedGateway cancelledThenTimeout) in
  fst run = Thrown (TransportError "timeout")
  /\ requests (snd run)
     = [GetAllOpenOrders "XRPUSDT"; CancelAllOpenOrders "XRPUSDT";
        SubmitNewOrder
          (stopLossOrder "XRPUSDT" BUY (TradeManager.roundToPrecision 0.51099866 4))].
Proof.
  intros run.
  destruct (trail_stop_cancels_before_it_places "XRPUSDT" BUY 0.51099866
              (cachedGateway cancelledThenTimeout) [xrpInfo] xrpInfo [] "timeout" [])
    as (Hout & Hreq & _).
  - reflexivity.
  - vm_compute. reflexivity.
  - reflexivity.
  - reflexivity.
  - auto.
Defined.
